(** * Contest environment manager: whitelist, dependency analysis and
      firewall rule construction

    A shallow embedding of the lab-PC restriction tool:
    - [PyStr]: the Python [str] methods the program calls;
    - [ContestManager]: contest_manager/core/manager.py and the add/remove
      branches of contest_manager/cli/main.py;
    - [DependencyAnalyzer]: contest_manager/utils/dependency_analyzer.py
      (the copy in scripts/utils/ has the same extract_domain and
      filter_dependencies);
    - [ContestRestrictor]: the dependency cache of scripts/restrict.py;
    - [Iptables], [NetworkRestrictor]: scripts/utils/network_restrictor.py
      over a model of the kernel rule tables.

    Strings are sequences of code points below 256 (Rocq's [ascii]); the
    case and whitespace tables of [PyStr] are Python's on that range. *)

From Stdlib Require Import Ascii String NArith Bool List Permutation Lia.
From stdpp Require Import base decidable option list sorting gmap strings pretty.

Local Open Scope N_scope.

(* ================================================================== *)
(** * Python string methods *)
(* ================================================================== *)

Module PyStr.

(** [str.lower] on one code point: A-Z, and the Latin-1 capitals
    U+00C0..U+00DE except the multiplication sign U+00D7. *)
Definition lower_char (c : ascii) : ascii :=
  let n := N_of_ascii c in
  if ((65 <=? n) && (n <=? 90))
     || ((192 <=? n) && (n <=? 222) && negb (n =? 215))
  then ascii_of_N (n + 32) else c.

(** The code points [str.strip] removes: U+0009..U+000D, U+001C..U+0020,
    U+0085 and U+00A0. *)
Definition is_space (c : ascii) : bool :=
  let n := N_of_ascii c in
  ((9 <=? n) && (n <=? 13)) || ((28 <=? n) && (n <=? 32))
  || (n =? 133) || (n =? 160).

(** [s.lower()] *)
Fixpoint lower (s : string) : string :=
  match s with
  | EmptyString => EmptyString
  | String c s' => String (lower_char c) (lower s')
  end.

(** [s.lstrip()] *)
Fixpoint lstrip (s : string) : string :=
  match s with
  | EmptyString => EmptyString
  | String c s' => if is_space c then lstrip s' else s
  end.

(** [s.rstrip()] *)
Fixpoint rstrip (s : string) : string :=
  match s with
  | EmptyString => EmptyString
  | String c s' =>
      match rstrip s' with
      | EmptyString => if is_space c then EmptyString else String c EmptyString
      | r => String c r
      end
  end.

(** [s.strip()] *)
Definition strip (s : string) : string := lstrip (rstrip s).

(** [s.startswith(p)] *)
Fixpoint startswith (p s : string) : bool :=
  match p, s with
  | EmptyString, _ => true
  | String _ _, EmptyString => false
  | String a p', String b s' => if Ascii.eqb a b then startswith p' s' else false
  end.

(** [s.endswith(p)]: some suffix of [s] is [p]. *)
Fixpoint endswith (p s : string) : bool :=
  if String.eqb s p then true
  else match s with
       | EmptyString => false
       | String _ s' => endswith p s'
       end.

(** [p in s] *)
Fixpoint contains (p s : string) : bool :=
  if startswith p s then true
  else match s with
       | EmptyString => false
       | String _ s' => contains p s'
       end.

(** [c in s] for one character. *)
Fixpoint has_char (c : ascii) (s : string) : bool :=
  match s with
  | EmptyString => false
  | String b s' => if Ascii.eqb c b then true else has_char c s'
  end.

(** [s.split(c)[0]]: the part before the first [c]. *)
Fixpoint split_head (c : ascii) (s : string) : string :=
  match s with
  | EmptyString => EmptyString
  | String b s' => if Ascii.eqb c b then EmptyString else String b (split_head c s')
  end.

(** [s.replace(old, new)] for a non-empty [old]: a left-to-right scan
    over non-overlapping occurrences.  [skip] counts the characters of
    the occurrence just replaced that are still to be passed over. *)
Fixpoint replace_from (old new : string) (skip : nat) (s : string) : string :=
  match s with
  | EmptyString => EmptyString
  | String c s' =>
      match skip with
      | S k => replace_from old new k s'
      | O =>
          if startswith old s
          then new +:+ replace_from old new (Nat.pred (String.length old)) s'
          else String c (replace_from old new O s')
      end
  end.

Definition replace (old new s : string) : string := replace_from old new O s.

(** [s[n:]] *)
Fixpoint drop (n : nat) (s : string) : string :=
  match n, s with
  | O, _ => s
  | S _, EmptyString => EmptyString
  | S k, String _ s' => drop k s'
  end.

(** Reading a text file translates "\r\n" and a lone "\r" to "\n". *)
Fixpoint universal_newlines (s : string) : string :=
  match s with
  | EmptyString => EmptyString
  | String c s' =>
      if Ascii.eqb c "013"%char then
        match s' with
        | String d _ =>
            if Ascii.eqb d "010"%char then universal_newlines s'
            else String "010"%char (universal_newlines s')
        | EmptyString => String "010"%char EmptyString
        end
      else String c (universal_newlines s')
  end.

(** The lines of a text, each with its terminating "\n" (the last one
    may have none). *)
Fixpoint split_lines (s : string) : list string :=
  match s with
  | EmptyString => []
  | String c s' =>
      if Ascii.eqb c "010"%char then String c EmptyString :: split_lines s'
      else match split_lines s' with
           | [] => [String c EmptyString]
           | l :: ls => String c l :: ls
           end
  end.

(** [for line in f] over a file opened in text mode. *)
Definition file_lines (content : string) : list string :=
  split_lines (universal_newlines content).

(** [s.split(c)]: never empty. *)
Fixpoint split (c : ascii) (s : string) : list string :=
  match s with
  | EmptyString => [EmptyString]
  | String b s' =>
      if Ascii.eqb c b then EmptyString :: split c s'
      else match split c s' with
           | [] => [String b EmptyString]
           | l :: ls => String b l :: ls
           end
  end.

Definition is_digit (c : ascii) : bool :=
  let n := N_of_ascii c in (48 <=? n) && (n <=? 57).

Fixpoint all_chars (P : ascii -> bool) (s : string) : bool :=
  match s with
  | EmptyString => true
  | String c s' => P c && all_chars P s'
  end.

(** [int(s)] for a string of decimal digits, most significant first. *)
Fixpoint int_from (acc : N) (s : string) : N :=
  match s with
  | EmptyString => acc
  | String c s' => int_from (10 * acc + (N_of_ascii c - 48)) s'
  end.

(** [any(k in s for k in keywords)] *)
Definition contains_any (keywords : list string) (s : string) : bool :=
  existsb (fun k => contains k s) keywords.

End PyStr.

(* ================================================================== *)
(** * contest_manager/core/manager.py *)
(* ================================================================== *)

Module ContestManager.
Import PyStr.

(** [ContestManager._normalize_domain] *)
Definition _normalize_domain (domain : string) : string :=
  if String.eqb domain "" then ""
  else
    let domain := replace "https://" "" (replace "http://" "" domain) in
    let domain := split_head "/"%char domain in
    let domain := split_head ":"%char domain in
    let domain := strip (lower domain) in
    if String.eqb domain "" || negb (has_char "."%char domain) then ""
    else domain.

(** What the program prints: [print_status], [print_error],
    [print_warning] of utils/common.py, and a bare [print].  A message
    that interpolates a path or the text of an exception is given
    without it. *)
Inductive message :=
| PrintStatus (text : string)
| PrintError (text : string)
| PrintWarning (text : string)
| Print (text : string).

(** The dependency cache file: missing, not valid JSON, or a JSON object
    from domain to array of domains. *)
Inductive cache_content :=
| CacheAbsent
| CacheCorrupt
| CacheJson (entries : gmap string (list string)).

(** The files under the configuration directory and the terminal.
    [default_whitelist] is requirements/whitelist.default.txt; [writable]
    tells whether opening a file of the directory for writing succeeds. *)
Record world := World {
  whitelist_file : option string;
  default_whitelist : option string;
  cache_file : cache_content;
  writable : bool;
  output : list message
}.

Definition say (m : message) (w : world) : world :=
  World (whitelist_file w) (default_whitelist w) (cache_file w) (writable w)
        (output w ++ [m]).

Definition write_whitelist (content : string) (w : world) : world :=
  World (Some content) (default_whitelist w) (cache_file w) (writable w)
        (output w).

Definition write_cache (entries : gmap string (list string)) (w : world) : world :=
  World (whitelist_file w) (default_whitelist w) (CacheJson entries)
        (writable w) (output w).

Definition nl : string := String "010"%char EmptyString.

(** The three comment lines and the blank line that start the file. *)
Definition header : string :=
  "# Contest Environment Manager - Whitelisted Sites" +:+ nl +:+
  "# Add one domain per line" +:+ nl +:+
  "# Comments start with #" +:+ nl +:+ nl.

(** [line = line.strip(); if line and not line.startswith('#')] *)
Definition data_line (line : string) : option string :=
  let line := strip line in
  if negb (String.eqb line "") && negb (startswith "#" line)
  then Some line else None.

(** [ContestManager._create_default_whitelist] *)
Definition _create_default_whitelist (w : world) : world :=
  if writable w then
    let body :=
      match default_whitelist w with
      | Some src =>
          foldl (fun acc line =>
                   match data_line line with
                   | Some line => acc +:+ line +:+ nl
                   | None => acc
                   end) EmptyString (file_lines src)
      | None => EmptyString
      end in
    say (PrintStatus "Created default whitelist")
        (write_whitelist (header +:+ body) w)
  else say (PrintError "Failed to create default whitelist") w.

(** [ContestManager.__init__] *)
Definition __init__ (w : world) : world :=
  match whitelist_file w with
  | None => _create_default_whitelist w
  | Some _ => w
  end.

(** The body of the loop of [load_whitelist]. *)
Definition read_line (domains : gset string) (line : string) : gset string :=
  match data_line line with
  | Some line => domains ∪ {[ lower line ]}
  | None => domains
  end.

(** [ContestManager.load_whitelist] *)
Definition load_whitelist (w : world) : gset string :=
  match whitelist_file w with
  | None => ∅
  | Some content => foldl read_line ∅ (file_lines content)
  end.

(** [sorted(domains)]: ascending code-point order. *)
Definition sorted (domains : gset string) : list string :=
  merge_sort String.le (elements domains).

Definition whitelist_text (domains : gset string) : string :=
  foldl (fun acc domain => acc +:+ domain +:+ nl) header (sorted domains).

(** [ContestManager.save_whitelist].  The failure is the one of [open]:
    nothing is written.  A failure during the writes, after [open] has
    truncated the file, is not modelled; no statement below speaks of
    the file after a failed save. *)
Definition save_whitelist (domains : gset string) (w : world) : bool * world :=
  if writable w then (true, write_whitelist (whitelist_text domains) w)
  else (false, say (PrintError "Failed to save whitelist") w).

Definition count_text (domains : gset string) : string :=
  "Total domains: " +:+ pretty (size domains).

(** [ContestManager.add_domain] *)
Definition add_domain (domain : string) (w : world) : bool * world :=
  let domain := _normalize_domain domain in
  if String.eqb domain "" then
    (false, say (PrintError "Invalid domain format") w)
  else
    let domains := load_whitelist w in
    if decide (domain ∈ domains) then
      (true, say (PrintWarning
                    ("Domain '" +:+ domain +:+ "' is already in the whitelist")) w)
    else
      let domains := domains ∪ {[ domain ]} in
      match save_whitelist domains w with
      | (true, w) =>
          (true, say (PrintStatus (count_text domains))
                   (say (PrintStatus ("Added '" +:+ domain +:+ "' to whitelist")) w))
      | (false, w) =>
          (false, say (PrintError
                         ("Failed to add '" +:+ domain +:+ "' to whitelist")) w)
      end.

(** [ContestManager.remove_domain] *)
Definition remove_domain (domain : string) (w : world) : bool * world :=
  let domain := _normalize_domain domain in
  if String.eqb domain "" then
    (false, say (PrintError "Invalid domain format") w)
  else
    let domains := load_whitelist w in
    if decide (domain ∈ domains) then
      let domains := domains ∖ {[ domain ]} in
      match save_whitelist domains w with
      | (true, w) =>
          (true, say (PrintStatus (count_text domains))
                   (say (PrintStatus ("Removed '" +:+ domain +:+ "' from whitelist")) w))
      | (false, w) =>
          (false, say (PrintError
                         ("Failed to remove '" +:+ domain +:+ "' from whitelist")) w)
      end
    else
      (true, say (PrintWarning
                    ("Domain '" +:+ domain +:+ "' is not in the whitelist")) w).

(** [ContestManager.list_domains] *)
Definition list_domains (w : world) : list string :=
  sorted (load_whitelist w).

(** [ContestManager.load_dependencies] *)
Definition load_dependencies (w : world) : gmap string (list string) :=
  match cache_file w with
  | CacheJson entries => entries
  | CacheAbsent => ∅
  | CacheCorrupt => ∅
  end.

(** What [apply_restrictions] gets from outside the whitelist and cache
    files: the results of [apply_network_restrictions] and
    [apply_usb_restrictions], whether the analyzer could be imported and
    built, and what [analyze_domain] returns for a domain, as a list in
    the order [list()] gives it ([None] when it raises). *)
Record restrict_env := RestrictEnv {
  network_ok : bool;
  usb_ok : bool;
  analyzer_ok : bool;
  analyze_domain : string -> option (list string)
}.

(** The body of the loop over the whitelist in [apply_restrictions]. *)
Definition analyze_into (env : restrict_env)
    (acc : gmap string (list string) * world) (domain : string)
  : gmap string (list string) * world :=
  let '(cache, w) := acc in
  match analyze_domain env domain with
  | Some deps => (<[domain := deps]> cache, w)
  | None =>
      (<[domain := []]> cache,
       say (PrintWarning ("Dependency analysis failed for " +:+ domain)) w)
  end.

(** [ContestManager.apply_restrictions], up to the write of the cache
    file; step 4 saves the rule tables and touches neither file. *)
Definition apply_restrictions (env : restrict_env) (w : world) : bool * world :=
  if negb (network_ok env) then
    (false, say (PrintError "Failed to apply network restrictions") w)
  else if negb (usb_ok env) then
    (false, say (PrintError "Failed to apply USB restrictions") w)
  else
    let w :=
      if negb (analyzer_ok env) then
        say (PrintError "Dependency analysis failed") w
      else
        let whitelist := list_domains w in
        let '(dependency_cache, w) :=
          foldl (analyze_into env) (∅, w) whitelist in
        if writable w then
          say (PrintStatus "Dependency cache updated")
              (write_cache dependency_cache w)
        else say (PrintError "Dependency analysis failed") w in
    (true, say (PrintStatus "Restrictions applied successfully") w).





End ContestManager.

(* ================================================================== *)
(** * scripts/restrict.py: the dependency cache *)
(* ================================================================== *)

Module ContestRestrictor.
Import ContestManager.

(** [ContestRestrictor.load_dependency_cache] *)
Definition load_dependency_cache (w : world) : gmap string (list string) * world :=
  match cache_file w with
  | CacheJson cache =>
      (cache, say (PrintStatus ("Loaded dependency cache with " +:+
                                pretty (size cache) +:+ " entries")) w)
  | CacheCorrupt =>
      (∅, say (PrintWarning "Failed to load dependency cache") w)
  | CacheAbsent => (∅, w)
  end.

(** [ContestRestrictor.save_dependency_cache] *)
Definition save_dependency_cache (cache : gmap string (list string))
    (w : world) : world :=
  if writable w then say (PrintStatus "Dependency cache saved") (write_cache cache w)
  else say (PrintWarning "Failed to save dependency cache") w.

Section Analyze.
(** The order in which Python iterates a set. *)
Variable set_iter : gset string -> list string.
(** [DependencyAnalyzer.analyze_site]; [None] when it raises. *)
Variable analyze_site : string -> option (gset string).

(** The body of the loop over the sites in [analyze_dependencies]. *)
Definition analyze_one (force_refresh : bool)
    (acc : gmap string (list string) * gset string * world) (site : string)
  : gmap string (list string) * gset string * world :=
  let '(cache, all_dependencies, w) := acc in
  match cache !! site, force_refresh with
  | Some cached, false =>
      (cache, all_dependencies ∪ list_to_set cached,
       say (PrintStatus "Using cached dependencies") w)
  | _, _ =>
      match analyze_site site with
      | Some dependencies =>
          (<[site := set_iter dependencies]> cache,
           all_dependencies ∪ dependencies,
           say (PrintStatus "Found essential dependencies") w)
      | None =>
          (<[site := []]> cache, all_dependencies,
           say (PrintError ("Failed to analyze " +:+ site)) w)
      end
  end.

(** [ContestRestrictor.analyze_dependencies]: the boolean result, the
    new [essential_dependencies] and the world. *)
Definition analyze_dependencies (force_refresh : bool)
    (whitelisted_sites : gset string) (w : world)
  : bool * gset string * world :=
  let '(cache, w) :=
    if force_refresh then (∅, w) else load_dependency_cache w in
  let '(cache, all_dependencies, w) :=
    foldl (analyze_one force_refresh) (cache, ∅, w)
          (set_iter whitelisted_sites) in
  let w := save_dependency_cache cache w in
  (true, all_dependencies, w).
End Analyze.

End ContestRestrictor.

(* ================================================================== *)
(** * contest_manager/utils/dependency_analyzer.py *)
(* ================================================================== *)

Module DependencyAnalyzer.
Import PyStr.

(** [self.blocked_keywords] *)
Definition blocked_keywords : list string :=
  [ "openai"; "chatgpt"; "anthropic"; "claude"; "gemini"; "bard";
    "google"; "bing"; "yahoo"; "duckduckgo"; "yandex"; "baidu";
    "facebook"; "twitter"; "instagram"; "linkedin"; "reddit"; "discord";
    "telegram"; "whatsapp"; "tiktok"; "youtube"; "snapchat";
    "github"; "gitlab"; "stackoverflow"; "stackexchange"; "medium";
    "dev.to"; "hackernews"; "codepen"; "jsfiddle";
    "wikipedia"; "w3schools"; "tutorialspoint"; "freecodecamp";
    "coursera"; "udemy"; "khan"; "edx";
    "amazon"; "ebay"; "alibaba"; "shopify";
    "dropbox"; "onedrive"; "icloud"; "mega";
    "cnn"; "bbc"; "reuters"; "news"; "techcrunch" ].

(** [self.essential_keywords] *)
Definition essential_keywords : list string :=
  [ "cdn"; "static"; "assets"; "img"; "css"; "js"; "fonts";
    "cloudflare"; "cloudfront"; "fastly"; "jsdelivr"; "unpkg";
    "bootstrapcdn"; "jquery"; "ajax"; "gstatic";
    "captcha"; "recaptcha"; "hcaptcha"; "auth"; "oauth";
    "ssl"; "tls"; "cert"; "security";
    "api"; "webhook"; "analytics"; "tracking";
    "mathjax"; "katex"; "mermaid"; "highlight";
    "fontawesome"; "typekit"; "googlefonts" ].

(** The literal patterns of the [is_cdn] test. *)
Definition cdn_patterns : list string :=
  [ "cdn."; "static."; "assets."; "img."; "css."; "js.";
    "fonts."; "api."; "auth."; "ssl."; "captcha" ].

(** The names of the [is_common_cdn] test. *)
Definition common_cdns : list string :=
  [ "cloudflare"; "fastly"; "amazon"; "microsoft"; "akamai" ].

Definition is_blocked (dep : string) : bool :=
  contains_any blocked_keywords (lower dep).

Definition is_essential (dep : string) : bool :=
  contains_any essential_keywords (lower dep).

Definition is_cdn (dep : string) : bool :=
  contains_any cdn_patterns (lower dep).

Definition is_common_cdn (dep : string) : bool :=
  (endswith ".net" dep || endswith ".io" dep)
  && contains_any common_cdns (lower dep).

(** The three ways the loop body of [filter_dependencies] ends. *)
Inductive verdict := Blocked | Essential | Skipped.

(** One iteration of the loop of [filter_dependencies]. *)
Definition classify (dep : string) : verdict :=
  if is_blocked dep then Blocked
  else if is_essential dep || is_cdn dep || is_common_cdn dep then Essential
  else Skipped.

#[global] Instance verdict_eq_dec : EqDecision verdict.
Proof. solve_decision. Defined.

(** [DependencyAnalyzer.filter_dependencies] *)
Definition filter_dependencies (dependencies : gset string) : gset string :=
  filter (fun dep => classify dep = Essential) dependencies.

(** [s[4:] if s.startswith('www.') else s] *)
Definition strip_www (domain : string) : string :=
  if startswith "www." domain then drop 4 domain else domain.

(** [s.split(':')[0] if ':' in s else s] *)
Definition strip_port (domain : string) : string :=
  if has_char ":"%char domain then split_head ":"%char domain else domain.

Section Crawl.
(** [urlparse(url).netloc]; [None] when [urlparse] raises. *)
Variable netloc_of : string -> option string.

(** [DependencyAnalyzer.extract_domain] *)
Definition extract_domain (url : string) : option string :=
  match netloc_of url with
  | None => None
  | Some netloc =>
      let domain := lower netloc in
      let domain := strip_port domain in
      let domain := strip_www domain in
      if String.eqb domain "" then None else Some domain
  end.

(** The loop over [har['log']['entries']]: an entry is the URL of its
    request, or [None] when the entry has no such field and the lookup
    raises, which ends the loop with what was collected. *)
Fixpoint collect (domain : string) (entries : list (option string))
    (dependencies : gset string) : gset string :=
  match entries with
  | [] => dependencies
  | None :: _ => dependencies
  | Some req_url :: rest =>
      match extract_domain req_url with
      | Some dep_domain =>
          if negb (String.eqb dep_domain domain)
          then collect domain rest (dependencies ∪ {[ dep_domain ]})
          else collect domain rest dependencies
      | None => collect domain rest dependencies
      end
  end.

(** [DependencyAnalyzer.analyze_domain].  [har] is the entry list of
    the recorded HAR file, or [None] when the browser run or the read
    of the file raised. *)
Definition analyze_domain (domain : string)
    (har : option (list (option string))) : gset string :=
  let dependencies :=
    match har with
    | Some entries => collect domain entries ∅
    | None => ∅
    end in
  filter_dependencies dependencies.
End Crawl.

(** [urlparse(url).netloc] on URLs of the plain form scheme://host/rest:
    what follows "://" up to the first of "/", "?" and "#". *)
Fixpoint after_scheme (url : string) : option string :=
  match url with
  | EmptyString => None
  | String c rest =>
      if startswith "://" url then Some (drop 3 url) else after_scheme rest
  end.

Fixpoint until_delim (s : string) : string :=
  match s with
  | EmptyString => EmptyString
  | String c rest =>
      if Ascii.eqb c "/"%char || Ascii.eqb c "?"%char || Ascii.eqb c "#"%char
      then EmptyString else String c (until_delim rest)
  end.

Definition plain_netloc (url : string) : option string :=
  match after_scheme url with
  | Some rest => Some (until_delim rest)
  | None => Some EmptyString
  end.

End DependencyAnalyzer.

(* ================================================================== *)
(** * The rule tables that iptables and ip6tables edit *)
(* ================================================================== *)

(** The program changes the firewall only by running [iptables] and
    [ip6tables]; this module gives those commands their meaning on the
    filter table, after iptables(8): a table maps the name of each chain
    to its rules in order, and a rule is the argument list it was added
    with. *)
Module Iptables.

Abbreviation rule := (list string).
Abbreviation table := (gmap string (list (list string))).

Record firewall := Firewall { ipv4 : table; ipv6 : table }.

Definition builtin_chains : list string := ["INPUT"; "FORWARD"; "OUTPUT"].

Definition standard_targets : list string :=
  ["ACCEPT"; "DROP"; "REJECT"; "RETURN"; "QUEUE"; "LOG"].

(** A table with the built-in chains only, all empty. *)
Definition fresh_table : table :=
  list_to_map (map (fun c => (c, [])) builtin_chains).

Definition fresh : firewall := Firewall fresh_table fresh_table.

(** The argument of [-j]. *)
Fixpoint jump_target (spec : rule) : option string :=
  match spec with
  | [] => None
  | flag :: rest =>
      if String.eqb flag "-j" then head rest else jump_target rest
  end.

Definition jumps_to (chain : string) (spec : rule) : bool :=
  bool_decide (jump_target spec = Some chain).

(** Some rule of the table jumps to [chain]. *)
Definition referenced (chain : string) (tab : table) : bool :=
  existsb (fun entry => existsb (jumps_to chain) entry.2) (map_to_list tab).

(** The target of a new rule must be a standard target or a chain. *)
Definition target_ok (spec : rule) (tab : table) : bool :=
  match jump_target spec with
  | None => true
  | Some t => bool_decide (t ∈ standard_targets) || bool_decide (is_Some (tab !! t))
  end.

(** Delete the first rule equal to [spec]. *)
Fixpoint delete_first (spec : rule) (rules : list rule) : list rule :=
  match rules with
  | [] => []
  | r :: rest => if decide (r = spec) then rest else r :: delete_first spec rest
  end.

(** One command on one table; [None] is a non-zero exit status, which
    leaves the table as it was. *)
Definition exec (args : list string) (tab : table) : option table :=
  match args with
  | op :: chain :: spec =>
      if String.eqb op "-N" then
        match spec, tab !! chain with
        | [], None => Some (<[chain := []]> tab)
        | _, _ => None
        end
      else if String.eqb op "-F" then
        match spec, tab !! chain with
        | [], Some _ => Some (<[chain := []]> tab)
        | _, _ => None
        end
      else if String.eqb op "-X" then
        match spec, tab !! chain with
        | [], Some [] =>
            if bool_decide (chain ∈ builtin_chains) || referenced chain tab
            then None else Some (delete chain tab)
        | _, _ => None
        end
      else if String.eqb op "-A" then
        match tab !! chain with
        | Some rules =>
            if target_ok spec tab then Some (<[chain := rules ++ [spec]]> tab)
            else None
        | None => None
        end
      else if String.eqb op "-I" then
        match tab !! chain with
        | Some rules =>
            if target_ok spec tab then Some (<[chain := spec :: rules]> tab)
            else None
        | None => None
        end
      else if String.eqb op "-D" then
        match tab !! chain with
        | Some rules =>
            if bool_decide (spec ∈ rules)
            then Some (<[chain := delete_first spec rules]> tab)
            else None
        | None => None
        end
      else if String.eqb op "-L" then
        match tab !! chain with
        | Some _ => Some tab
        | None => None
        end
      else None
  | _ => None
  end.

(** A command line: the program name selects the table. *)
Definition run (cmd : list string) (fw : firewall) : option firewall :=
  match cmd with
  | prog :: args =>
      if String.eqb prog "iptables" then
        tab ← exec args (ipv4 fw); Some (Firewall tab (ipv6 fw))
      else if String.eqb prog "ip6tables" then
        tab ← exec args (ipv6 fw); Some (Firewall (ipv4 fw) tab)
      else None
  | [] => None
  end.

End Iptables.

(* ================================================================== *)
(** * scripts/utils/network_restrictor.py *)
(* ================================================================== *)

Module NetworkRestrictor.
Import PyStr Iptables.

(** The fields of a [NetworkRestrictor] that its commands use. *)
Record restrictor := Restrictor {
  user : string;
  user_uid : nat;
  chain_in : string;
  chain_out : string
}.

Inductive rrtype := A | AAAA.

(** One octet of a dotted quad, as [ipaddress] parses it: one to three
    decimal digits, no leading zero, at most 255. *)
Definition parse_octet (octet_str : string) : bool :=
  negb (String.eqb octet_str "")
  && all_chars is_digit octet_str
  && (String.length octet_str <=? 3)%nat
  && (String.eqb octet_str "0" || negb (startswith "0" octet_str))
  && (int_from 0 octet_str <=? 255).

Definition valid_ipv4 (ip : string) : bool :=
  let octets := split "."%char ip in
  (length octets =? 4)%nat && forallb parse_octet octets.

Inductive ip_version := V4 | V6 | Invalid.

Definition essential_cdns : list string :=
  [ "cloudflare.com"; "cloudfront.net"; "fastly.com";
    "jsdelivr.net"; "unpkg.com"; "cdnjs.cloudflare.com";
    "fonts.googleapis.com"; "fonts.gstatic.com"; "typekit.net";
    "recaptcha.net"; "hcaptcha.com"; "gstatic.com";
    "mathjax.org"; "cdn.mathjax.org";
    "ajax.googleapis.com" ].

Definition subdomains : list string := ["www"; "api"; "cdn"; "static"; "assets"].

(** [NetworkRestrictor.run_command]: [None] is the exception raised when
    [check] is set and the command exits with a non-zero status. *)
Definition run_command (cmd : list string) (check : bool) (fw : firewall)
  : option firewall :=
  match run cmd fw with
  | Some fw' => Some fw'
  | None => if check then None else Some fw
  end.

Section Env.
(** [str.upper] *)
Variable upper : string -> string.
(** The order in which Python iterates a set. *)
Variable set_iter : gset string -> list string.
(** Whether [ipaddress.IPv6Address] accepts the string. *)
Variable valid_ipv6 : string -> bool.
(** The answers of the resolver for a name and record type, as text;
    empty when the query raises a [DNSException]. *)
Variable dns : string -> rrtype -> list string.

(** [NetworkRestrictor.__init__], with the uid [get_user_uid] found. *)
Definition __init__ (user : string) (uid : nat) : restrictor :=
  Restrictor user uid
             ("CONTEST_" +:+ upper user +:+ "_IN")
             ("CONTEST_" +:+ upper user +:+ "_OUT").

(** [ipaddress.ip_address(ip).version]; [Invalid] is a [ValueError]. *)
Definition version (ip : string) : ip_version :=
  if valid_ipv4 ip then V4 else if valid_ipv6 ip then V6 else Invalid.

Definition owner_jump (r : restrictor) : rule :=
  ["-m"; "owner"; "--uid-owner"; pretty (user_uid r); "-j"; chain_out r].

(** [NetworkRestrictor.clear_existing_rules] *)
Definition clear_existing_rules (r : restrictor) (fw : firewall)
  : option firewall :=
  fw ← run_command ("iptables" :: "-D" :: "OUTPUT" :: owner_jump r) false fw;
  foldl (fun acc chain =>
           fw ← acc;
           fw ← run_command ["iptables"; "-F"; chain] false fw;
           fw ← run_command ["iptables"; "-X"; chain] false fw;
           fw ← run_command ["ip6tables"; "-F"; chain] false fw;
           run_command ["ip6tables"; "-X"; chain] false fw)
        (Some fw) [chain_in r; chain_out r].

(** [NetworkRestrictor.create_chains] *)
Definition create_chains (r : restrictor) (fw : firewall) : option firewall :=
  fw ← run_command ["iptables"; "-N"; chain_in r] true fw;
  fw ← run_command ["iptables"; "-N"; chain_out r] true fw;
  fw ← run_command ["ip6tables"; "-N"; chain_in r] false fw;
  run_command ["ip6tables"; "-N"; chain_out r] false fw.

(** [NetworkRestrictor.setup_default_rules] *)
Definition setup_default_rules (r : restrictor) (fw : firewall)
  : option firewall :=
  fw ← run_command ["iptables"; "-A"; chain_out r; "-m"; "state";
                    "--state"; "ESTABLISHED,RELATED"; "-j"; "ACCEPT"] true fw;
  fw ← run_command ["iptables"; "-A"; chain_out r; "-d"; "127.0.0.0/8";
                    "-j"; "ACCEPT"] true fw;
  fw ← run_command ["iptables"; "-A"; chain_out r; "-p"; "udp";
                    "--dport"; "53"; "-j"; "ACCEPT"] true fw;
  fw ← run_command ["iptables"; "-A"; chain_out r; "-p"; "tcp";
                    "--dport"; "53"; "-j"; "ACCEPT"] true fw;
  fw ← run_command ["ip6tables"; "-A"; chain_out r; "-m"; "state";
                    "--state"; "ESTABLISHED,RELATED"; "-j"; "ACCEPT"] false fw;
  fw ← run_command ["ip6tables"; "-A"; chain_out r; "-d"; "::1/128";
                    "-j"; "ACCEPT"] false fw;
  fw ← run_command ["ip6tables"; "-A"; chain_out r; "-p"; "udp";
                    "--dport"; "53"; "-j"; "ACCEPT"] false fw;
  run_command ["ip6tables"; "-A"; chain_out r; "-p"; "tcp";
               "--dport"; "53"; "-j"; "ACCEPT"] false fw.

(** [NetworkRestrictor.resolve_domain_ips] *)
Definition resolve_domain_ips (domain : string) : gset string :=
  let ips : gset string :=
    list_to_set (dns domain A) ∪ list_to_set (dns domain AAAA) in
  foldl (fun (ips : gset string) subdomain =>
           let subdomain_name := subdomain +:+ "." +:+ domain in
           ips ∪ list_to_set (dns subdomain_name A)
               ∪ list_to_set (dns subdomain_name AAAA))
        ips subdomains.

(** The body of the loop over the addresses of one domain: a failing
    IPv4 command raises and the handler goes on to the next address. *)
Definition add_ip_rule (r : restrictor) (fw : firewall) (ip : string)
  : firewall :=
  match version ip with
  | V4 =>
      default fw (run_command ["iptables"; "-A"; chain_out r; "-d"; ip;
                               "-j"; "ACCEPT"] true fw)
  | V6 =>
      default fw (run_command ["ip6tables"; "-A"; chain_out r; "-d"; ip;
                               "-j"; "ACCEPT"] false fw)
  | Invalid => fw
  end.

(** The body of the loop over the domains in [add_domain_rules]. *)
Definition add_rules_for (r : restrictor) (fw : firewall) (domain : string)
  : firewall :=
  let ips := resolve_domain_ips domain in
  if decide (ips = ∅) then fw
  else foldl (add_ip_rule r) fw (set_iter ips).

(** [NetworkRestrictor.add_domain_rules] *)
Definition add_domain_rules (r : restrictor) (domains : gset string)
    (fw : firewall) : firewall :=
  foldl (add_rules_for r) fw (set_iter domains).

(** [NetworkRestrictor.add_essential_cdns] *)
Definition add_essential_cdns (r : restrictor) (fw : firewall) : firewall :=
  add_domain_rules r (list_to_set essential_cdns) fw.

(** [NetworkRestrictor.finalize_rules] *)
Definition finalize_rules (r : restrictor) (fw : firewall) : option firewall :=
  fw ← run_command ["iptables"; "-A"; chain_out r; "-j"; "REJECT";
                    "--reject-with"; "icmp-host-unreachable"] true fw;
  fw ← run_command ["ip6tables"; "-A"; chain_out r; "-j"; "REJECT";
                    "--reject-with"; "icmp6-adm-prohibited"] false fw;
  fw ← run_command ("iptables" :: "-A" :: "OUTPUT" :: owner_jump r) true fw;
  run_command ("ip6tables" :: "-A" :: "OUTPUT" :: owner_jump r) false fw.

(** [NetworkRestrictor.remove_restrictions], on the rule tables. *)
Definition remove_restrictions (r : restrictor) (fw : firewall)
  : option firewall :=
  fw ← run_command ("iptables" :: "-D" :: "OUTPUT" :: owner_jump r) false fw;
  fw ← run_command ("ip6tables" :: "-D" :: "OUTPUT" :: owner_jump r) false fw;
  foldl (fun acc chain =>
           fw ← acc;
           fw ← run_command ["iptables"; "-F"; chain] false fw;
           fw ← run_command ["iptables"; "-X"; chain] false fw;
           fw ← run_command ["ip6tables"; "-F"; chain] false fw;
           run_command ["ip6tables"; "-X"; chain] false fw)
        (Some fw) [chain_in r; chain_out r].

(** [NetworkRestrictor.apply_restrictions]: the tables it leaves when
    it returns, [None] when a checked command fails and it raises.
    [install_dependencies] runs dpkg and apt and handles its own
    errors; it leaves the tables alone. *)
Definition apply_restrictions (r : restrictor)
    (domains dependencies : gset string) (fw : firewall) : option firewall :=
  fw ← clear_existing_rules r fw;
  fw ← create_chains r fw;
  fw ← setup_default_rules r fw;
  let all_allowed_domains := domains ∪ dependencies in
  let fw := add_domain_rules r all_allowed_domains fw in
  let fw := add_essential_cdns r fw in
  finalize_rules r fw.

(** [n] calls of [apply_restrictions] in a row. *)
Fixpoint reapply (n : nat) (r : restrictor)
    (domains dependencies : gset string) (fw : firewall) : option firewall :=
  match n with
  | O => Some fw
  | S k =>
      fw ← apply_restrictions r domains dependencies fw;
      reapply k r domains dependencies fw
  end.
End Env.

(** [str.upper] on ASCII, the alphabet of login names. *)
Definition upper_char (c : ascii) : ascii :=
  let n := N_of_ascii c in
  if (97 <=? n) && (n <=? 122) then ascii_of_N (n - 32) else c.

Fixpoint ascii_upper (s : string) : string :=
  match s with
  | EmptyString => EmptyString
  | String c s' => String (upper_char c) (ascii_upper s')
  end.

End NetworkRestrictor.

(* ================================================================== *)
(** * Notions used in the statements *)
(* ================================================================== *)

Module Statements.
Import PyStr ContestManager.

(** What [_normalize_domain] computes before its final validation. *)
Definition normalize_core (domain : string) : string :=
  strip (lower (split_head ":"%char (split_head "/"%char
    (replace "https://" "" (replace "http://" "" domain))))).

(** A domain that the line-oriented whitelist file can hold: lowercase,
    trimmed, not empty, not a comment, and free of line breaks. *)
Definition storable (d : string) : Prop :=
  lower d = d /\ strip d = d /\ d <> "" /\ startswith "#" d = false /\
  has_char "010"%char d = false /\ has_char "013"%char d = false.

(** The files of a world, without the terminal. *)
Definition files (w : world) : option string * option string * cache_content :=
  (whitelist_file w, default_whitelist w, cache_file w).

(** The body of the whitelist file: one line per domain. *)
Fixpoint lines_text (domains : list string) : string :=
  match domains with
  | [] => EmptyString
  | d :: rest => d +:+ nl +:+ lines_text rest
  end.

(** The four lines of the header. *)
Definition header_lines : list string :=
  [ "# Contest Environment Manager - Whitelisted Sites" +:+ nl;
    "# Add one domain per line" +:+ nl;
    "# Comments start with #" +:+ nl;
    nl ].

(** The classification rule in the words of the specification: the host
    contains an essential keyword, or starts with one of the literal
    patterns, or ends in .net or .io and contains the name of a big
    CDN. *)
Definition spec_essential (host : string) : bool :=
  contains_any DependencyAnalyzer.essential_keywords host
  || existsb (fun p => startswith p host) DependencyAnalyzer.cdn_patterns
  || ((endswith ".net" host || endswith ".io" host)
      && contains_any DependencyAnalyzer.common_cdns host).

End Statements.

Module FirewallStatements.
Import PyStr Iptables NetworkRestrictor.

(** Names of the per-user chains. *)
Definition user_chain (c : string) : Prop := startswith "CONTEST_" c = true.

(** The rules of the output chain before the per-domain rules. *)
Definition default_rules : list rule :=
  [ ["-m"; "state"; "--state"; "ESTABLISHED,RELATED"; "-j"; "ACCEPT"];
    ["-d"; "127.0.0.0/8"; "-j"; "ACCEPT"];
    ["-p"; "udp"; "--dport"; "53"; "-j"; "ACCEPT"];
    ["-p"; "tcp"; "--dport"; "53"; "-j"; "ACCEPT"] ].

(** The catch-all rule that ends the chain. *)
Definition reject_rule : rule :=
  ["-j"; "REJECT"; "--reject-with"; "icmp-host-unreachable"].

(** The rule for the one address of example.com. *)
Definition accept_example : rule := ["-d"; "93.184.216.34"; "-j"; "ACCEPT"].

(** The output chain the specification expects for example.com. *)
Definition expected_rules : list rule :=
  [ ["-m"; "state"; "--state"; "ESTABLISHED,RELATED"; "-j"; "ACCEPT"];
    ["-d"; "127.0.0.0/8"; "-j"; "ACCEPT"];
    ["-p"; "udp"; "--dport"; "53"; "-j"; "ACCEPT"];
    ["-p"; "tcp"; "--dport"; "53"; "-j"; "ACCEPT"];
    ["-d"; "93.184.216.34"; "-j"; "ACCEPT"];
    ["-j"; "REJECT"; "--reject-with"; "icmp-host-unreachable"] ].

(** Tables that hold neither chain of the user and an empty OUTPUT
    chain. *)
Definition clean (r : restrictor) (t : table) : Prop :=
  t !! chain_in r = None /\ t !! chain_out r = None /\ t !! "OUTPUT" = Some [].

(** The resolver of the example: one address for example.com. *)
Definition example_dns (name : string) (ty : rrtype) : list string :=
  if String.eqb name "example.com" then
    match ty with A => ["93.184.216.34"] | AAAA => [] end
  else [].

(** The number of rules of the OUTPUT chain that bind the uid of the
    user to the user's output chain. *)
Definition count_bindings (r : restrictor) (tab : table) : nat :=
  length (filter (fun spec => spec = owner_jump r) (default [] (tab !! "OUTPUT"))).

(** The numbers of bindings in the IPv4 and in the IPv6 table. *)
Definition bindings (r : restrictor) (fw : firewall) : nat * nat :=
  (count_bindings r (ipv4 fw), count_bindings r (ipv6 fw)).

End FirewallStatements.

(* ================================================================== *)
(** * scripts/restrict.py: reading the whitelist *)
(* ================================================================== *)

Module RestrictScript.
Import PyStr ContestManager.

(** [line.strip() and not line.startswith('#')], then [line.strip()] *)
Definition site_line (line : string) : option string :=
  if negb (String.eqb (strip line) "") && negb (startswith "#" line)
  then Some (strip line) else None.

Section Paths.
(** [self.whitelist_file], the path. *)
Variable whitelist_path : string.

(** [ContestRestrictor.load_whitelist]: the result, the new
    [whitelisted_sites] and the world. *)
Definition load_whitelist (whitelisted_sites : gset string) (w : world)
  : bool * gset string * world :=
  match whitelist_file w with
  | None =>
      (false, whitelisted_sites,
       say (PrintError ("Whitelist file not found: " +:+ whitelist_path)) w)
  | Some content =>
      let sites := omap site_line (file_lines content) in
      let whitelisted_sites : gset string := list_to_set sites in
      (true, whitelisted_sites,
       say (PrintStatus ("Loaded " +:+ pretty (size whitelisted_sites) +:+
                         " whitelisted sites")) w)
  end.
End Paths.
End RestrictScript.

(* ================================================================== *)
(** * contest_manager/utils/dependency_analyzer.py: a whole whitelist file *)
(* ================================================================== *)

Module DependencyAnalyzerFile.
Import PyStr DependencyAnalyzer.

(** The filter and the map of the list comprehension over the lines of the
    file: [line.strip() for line in f if line.strip() and not
    line.startswith('#')]. *)
Definition selected_line (line : string) : option string :=
  if negb (String.eqb (strip line) "") && negb (startswith "#" line)
  then Some (strip line) else None.

(** [domain.replace('http://', '').replace('https://', '').split('/')[0]] *)
Definition clean_domain (domain : string) : string :=
  split_head "/"%char (replace "https://" "" (replace "http://" "" domain)).

Section File.
Variable netloc_of : string -> option string.
(** The entries of the HAR file recorded for a domain. *)
Variable capture : string -> option (list (option string)).

(** [DependencyAnalyzer.analyze_domains_from_file]; the file is its text,
    or [None] when it does not exist. *)
Definition analyze_domains_from_file (whitelist_file : option string)
  : gset string :=
  match whitelist_file with
  | None => ∅
  | Some content =>
      let domains := omap selected_line (file_lines content) in
      foldl (fun (dependencies : gset string) domain =>
               let domain := clean_domain domain in
               dependencies ∪ analyze_domain netloc_of domain (capture domain))
            ∅ domains
  end.
End File.
End DependencyAnalyzerFile.

(* ================================================================== *)
(** * scripts/utils/network_restrictor.py: the periodic update *)
(* ================================================================== *)

Module NetworkRestrictorUpdate.
Import PyStr Iptables NetworkRestrictor.

Section Env.
Variable set_iter : gset string -> list string.
Variable valid_ipv6 : string -> bool.
Variable dns : string -> rrtype -> list string.

(** [NetworkRestrictor.update_domain_ips] *)
Definition update_domain_ips (r : restrictor) (domains : gset string)
    (fw : firewall) : option firewall :=
  fw ← run_command ["iptables"; "-F"; chain_out r] true fw;
  fw ← run_command ["ip6tables"; "-F"; chain_out r] false fw;
  fw ← setup_default_rules r fw;
  let fw := add_domain_rules set_iter valid_ipv6 dns r domains fw in
  let fw := add_essential_cdns set_iter valid_ipv6 dns r fw in
  finalize_rules r fw.
End Env.
End NetworkRestrictorUpdate.

(* ================================================================== *)
(** * Statements about whitelist files *)
(* ================================================================== *)

Module WhitelistStatements.
Import PyStr ContestManager Statements.

(** A line of a text file: a body without line feed, with or without the
    line feed that ends it. *)
Definition line_of (body line : string) : Prop :=
  has_char "010"%char body = false /\ (line = body \/ line = body +:+ nl).

(** A text that a line of the whitelist file holds as it is: trimmed, not
    empty, not a comment, free of line breaks. *)
Definition entry (d : string) : Prop :=
  strip d = d /\ d <> "" /\ startswith "#" d = false /\
  has_char "010"%char d = false /\ has_char "013"%char d = false.

(** A name the normalizer accepts and leaves as it is. *)
Definition normal (d : string) : Prop :=
  lower d = d /\ strip d = d /\ has_char "."%char d = true /\
  has_char "/"%char d = false /\ has_char ":"%char d = false.

(** The domains [load_whitelist] reads from a text. *)
Definition domains_of_text (content : string) : gset string :=
  foldl read_line ∅ (file_lines content).
End WhitelistStatements.

(* ================================================================== *)
(** * Statements about the rule tables *)
(* ================================================================== *)

(** The methods of [NetworkRestrictor] touch a table only at the OUTPUT
    chain and at the two chains of the user.  [TableShapes] describes a
    table by what the program has made of these three chains, and gives
    the effect of each command on this description. *)

Module TableShapes.
Import PyStr Iptables NetworkRestrictor FirewallStatements.

(** A rule that jumps to neither chain of the user. *)
Definition harmless (r : restrictor) (spec : rule) : Prop :=
  jump_target spec <> Some (chain_in r) /\ jump_target spec <> Some (chain_out r).

(** A table that does not know the user: neither chain exists, no rule
    jumps to one of them, and the OUTPUT chain exists. *)
Definition quiet (r : restrictor) (t : table) : Prop :=
  t !! chain_in r = None /\ t !! chain_out r = None /\
  is_Some (t !! "OUTPUT") /\
  forall c rules, t !! c = Some rules -> Forall (harmless r) rules.

(** What the program has made of a table: the number of bindings it has
    appended to the OUTPUT chain, and the rules of the two chains of the
    user where they exist. *)
Record shape := Shape {
  bound : nat;
  in_rules : option (list rule);
  out_rules : option (list rule)
}.

(** [t] is [base] with the chains of the user in the given shape. *)
Definition rep (r : restrictor) (base t : table) (a : shape) : Prop :=
  (exists O, base !! "OUTPUT" = Some O /\
             t !! "OUTPUT" = Some (O ++ replicate (bound a) (owner_jump r))) /\
  t !! chain_in r = in_rules a /\
  t !! chain_out r = out_rules a /\
  (forall c, c <> "OUTPUT" -> c <> chain_in r -> c <> chain_out r ->
             t !! c = base !! c) /\
  (forall rules, in_rules a = Some rules -> Forall (harmless r) rules) /\
  (forall rules, out_rules a = Some rules -> Forall (harmless r) rules).

Inductive which := ChainIn | ChainOut.

Definition chain_name (r : restrictor) (c : which) : string :=
  match c with ChainIn => chain_in r | ChainOut => chain_out r end.

(** The commands the program runs on one table. *)
Inductive op :=
| New (c : which)
| Flush (c : which)
| Destroy (c : which)
| Append (spec : rule)
| Bind
| Unbind.

Definition args (r : restrictor) (o : op) : list string :=
  match o with
  | New c => ["-N"; chain_name r c]
  | Flush c => ["-F"; chain_name r c]
  | Destroy c => ["-X"; chain_name r c]
  | Append spec => "-A" :: chain_out r :: spec
  | Bind => "-A" :: "OUTPUT" :: owner_jump r
  | Unbind => "-D" :: "OUTPUT" :: owner_jump r
  end.

Definition chain_rules (c : which) (a : shape) : option (list rule) :=
  match c with ChainIn => in_rules a | ChainOut => out_rules a end.

Definition with_rules (c : which) (v : option (list rule)) (a : shape) : shape :=
  match c with
  | ChainIn => Shape (bound a) v (out_rules a)
  | ChainOut => Shape (bound a) (in_rules a) v
  end.

(** The effect of a command on the shape; [None] when it fails. *)
Definition next (base : table) (o : op) (a : shape) : option shape :=
  match o with
  | New c =>
      match chain_rules c a with
      | None => Some (with_rules c (Some []) a)
      | Some _ => None
      end
  | Flush c =>
      match chain_rules c a with
      | Some _ => Some (with_rules c (Some []) a)
      | None => None
      end
  | Destroy c =>
      match chain_rules c a, c with
      | Some [], ChainIn => Some (with_rules c None a)
      | Some [], ChainOut =>
          match bound a with
          | O => Some (with_rules c None a)
          | S _ => None
          end
      | _, _ => None
      end
  | Append spec =>
      match out_rules a with
      | Some rules =>
          if target_ok spec base
          then Some (with_rules ChainOut (Some (rules ++ [spec])) a)
          else None
      | None => None
      end
  | Bind =>
      match out_rules a with
      | Some _ => Some (Shape (S (bound a)) (in_rules a) (out_rules a))
      | None => None
      end
  | Unbind =>
      match bound a with
      | S k => Some (Shape k (in_rules a) (out_rules a))
      | O => None
      end
  end.

Definition good (r : restrictor) (o : op) : Prop :=
  match o with Append spec => harmless r spec | _ => True end.

(** A command whose failure is ignored. *)
Definition unchecked (cmd : list string) (t : table) : table :=
  default t (exec cmd t).

Definition run_unchecked (r : restrictor) (ops : list op) (t : table) : table :=
  foldl (fun t o => unchecked (args r o) t) t ops.

Definition run_checked (r : restrictor) (ops : list op) (t : table) : option table :=
  foldl (fun acc o => t ← acc; exec (args r o) t) (Some t) ops.

Definition next_unchecked (base : table) (ops : list op) (a : shape) : shape :=
  foldl (fun a o => default a (next base o a)) a ops.

Definition next_checked (base : table) (ops : list op) (a : shape) : option shape :=
  foldl (fun acc o => a ← acc; next base o a) (Some a) ops.
End TableShapes.

Module RuleStatements.
Import PyStr Iptables NetworkRestrictor FirewallStatements TableShapes.

#[global] Instance ip_version_eq_dec : EqDecision ip_version.
Proof. solve_decision. Defined.

(** The rule that accepts one address. *)
Definition accept (ip : string) : rule := ["-d"; ip; "-j"; "ACCEPT"].

(** The rules that start the output chain of the IPv6 table. *)
Definition default_rules6 : list rule :=
  [ ["-m"; "state"; "--state"; "ESTABLISHED,RELATED"; "-j"; "ACCEPT"];
    ["-d"; "::1/128"; "-j"; "ACCEPT"];
    ["-p"; "udp"; "--dport"; "53"; "-j"; "ACCEPT"];
    ["-p"; "tcp"; "--dport"; "53"; "-j"; "ACCEPT"] ].

Definition reject_rule6 : rule :=
  ["-j"; "REJECT"; "--reject-with"; "icmp6-adm-prohibited"].

Section Env.
Variable set_iter : gset string -> list string.
Variable valid_ipv6 : string -> bool.
Variable dns : string -> rrtype -> list string.

(** The addresses [add_domain_rules] goes through for one domain and for
    a set of domains, in order. *)
Definition ips_of (domain : string) : list string :=
  let ips := resolve_domain_ips dns domain in
  if decide (ips = ∅) then [] else set_iter ips.

Definition allowed_ips (domains : gset string) : list string :=
  set_iter domains ≫= ips_of.

(** The addresses that get a rule when the chain is filled for a set of
    domains: those of the domains, then those of the essential CDNs. *)
Definition run_ips (domains : gset string) : list string :=
  allowed_ips domains ++ allowed_ips (list_to_set essential_cdns).

(** The addresses of a version, as commands on that table. *)
Definition ip_ops (v : ip_version) (ips : list string) : list op :=
  (fun ip => Append (accept ip)) <$> filter (fun ip => version valid_ipv6 ip = v) ips.
End Env.

Definition clear_ops4 : list op :=
  [Unbind; Flush ChainIn; Destroy ChainIn; Flush ChainOut; Destroy ChainOut].
Definition clear_ops6 : list op :=
  [Flush ChainIn; Destroy ChainIn; Flush ChainOut; Destroy ChainOut].
Definition create_ops : list op := [New ChainIn; New ChainOut].
Definition default_ops4 : list op := Append <$> default_rules.
Definition default_ops6 : list op := Append <$> default_rules6.
Definition final_ops4 : list op := [Append reject_rule; Bind].
Definition final_ops6 : list op := [Append reject_rule6; Bind].

Section Runs.
Variable valid_ipv6 : string -> bool.

(** What [apply_restrictions] does to the IPv4 table. *)
Definition apply4 (r : restrictor) (ips : list string) (t : table) : option table :=
  t ← run_checked r create_ops (run_unchecked r clear_ops4 t);
  t ← run_checked r default_ops4 t;
  run_checked r final_ops4 (run_unchecked r (ip_ops valid_ipv6 V4 ips) t).

(** What it does to the IPv6 table. *)
Definition apply6 (r : restrictor) (ips : list string) (t : table) : table :=
  run_unchecked r
    (clear_ops6 ++ create_ops ++ default_ops6 ++ ip_ops valid_ipv6 V6 ips
     ++ final_ops6) t.
(** What [update_domain_ips] does to the IPv4 table. *)
Definition update4 (r : restrictor) (ips : list string) (t : table) : option table :=
  t ← run_checked r (Flush ChainOut :: default_ops4) t;
  run_checked r final_ops4 (run_unchecked r (ip_ops valid_ipv6 V4 ips) t).

Definition update6 (r : restrictor) (ips : list string) (t : table) : table :=
  run_unchecked r
    (Flush ChainOut :: default_ops6 ++ ip_ops valid_ipv6 V6 ips ++ final_ops6) t.
(** The output chain of the IPv4 table after a run. *)
Definition rules4 (ips : list string) : list rule :=
  default_rules ++ (accept <$> filter (fun ip => version valid_ipv6 ip = V4) ips)
  ++ [reject_rule].
End Runs.
End RuleStatements.

Module ShapeStatements.
Import PyStr Iptables NetworkRestrictor FirewallStatements TableShapes RuleStatements.

(** The shapes the program produces: the input chain is absent or empty,
    and a bound output chain exists. *)
Definition regular (a : shape) : Prop :=
  (in_rules a = None \/ in_rules a = Some []) /\
  (out_rules a = None -> bound a = O).

Section Env.
Variable valid_ipv6 : string -> bool.

(** [apply4], [apply6], [update4] and [update6] on shapes. *)
Definition apply4_next (base : table) (ips : list string) (a : shape) : option shape :=
  a ← next_checked base create_ops (next_unchecked base clear_ops4 a);
  a ← next_checked base default_ops4 a;
  next_checked base final_ops4 (next_unchecked base (ip_ops valid_ipv6 V4 ips) a).

Definition apply6_next (base : table) (ips : list string) (a : shape) : shape :=
  next_unchecked base
    (clear_ops6 ++ create_ops ++ default_ops6 ++ ip_ops valid_ipv6 V6 ips
     ++ final_ops6) a.

Definition update4_next (base : table) (ips : list string) (a : shape) : option shape :=
  a ← next_checked base (Flush ChainOut :: default_ops4) a;
  next_checked base final_ops4 (next_unchecked base (ip_ops valid_ipv6 V4 ips) a).

Definition update6_next (base : table) (ips : list string) (a : shape) : shape :=
  next_unchecked base
    (Flush ChainOut :: default_ops6 ++ ip_ops valid_ipv6 V6 ips ++ final_ops6) a.
End Env.
End ShapeStatements.

(* ================================================================== *)
(** * Facts about the string methods *)
(* ================================================================== *)

Section StringFacts.
Import PyStr.

Lemma ascii_eqb_true (a b : ascii) : Ascii.eqb a b = true <-> a = b.
Proof. apply Ascii.eqb_eq. Qed.

Lemma string_app_cons (x : ascii) (a b : string) :
  String x a +:+ b = String x (a +:+ b).
Proof. reflexivity. Qed.

Lemma string_app_nil_l (a : string) : "" +:+ a = a.
Proof. reflexivity. Qed.

Lemma string_app_assoc (a b c : string) : (a +:+ b) +:+ c = a +:+ (b +:+ c).
Proof.
  induction a as [|x a IH]; [reflexivity|].
  rewrite !string_app_cons. now rewrite IH.
Qed.

Lemma string_app_nil_r (a : string) : a +:+ "" = a.
Proof.
  induction a as [|x a IH]; [reflexivity|].
  rewrite string_app_cons. now rewrite IH.
Qed.

Lemma lower_char_idem (c : ascii) : lower_char (lower_char c) = lower_char c.
Proof. destruct c as [[] [] [] [] [] [] [] []]; reflexivity. Qed.

Lemma is_space_lower_char (c : ascii) : is_space (lower_char c) = is_space c.
Proof. destruct c as [[] [] [] [] [] [] [] []]; reflexivity. Qed.

Lemma lower_char_slash (c : ascii) : lower_char c = "/"%char -> c = "/"%char.
Proof. destruct c as [[] [] [] [] [] [] [] []]; vm_compute; congruence. Qed.

Lemma lower_char_colon (c : ascii) : lower_char c = ":"%char -> c = ":"%char.
Proof. destruct c as [[] [] [] [] [] [] [] []]; vm_compute; congruence. Qed.

Lemma lower_idem (s : string) : lower (lower s) = lower s.
Proof.
  induction s as [|c s IH]; [reflexivity|].
  cbn. now rewrite lower_char_idem, IH.
Qed.

Lemma lower_app (a b : string) : lower (a +:+ b) = lower a +:+ lower b.
Proof.
  induction a as [|x a IH]; [reflexivity|].
  rewrite string_app_cons. cbn [lower]. now rewrite IH.
Qed.

Lemma lower_nil_inv (s : string) : lower s = "" -> s = "".
Proof. destruct s; [reflexivity|discriminate]. Qed.

(** ** Characters that a string does not have *)

Lemma has_char_app (c : ascii) (a b : string) :
  has_char c (a +:+ b) = has_char c a || has_char c b.
Proof.
  induction a as [|x a IH]; [reflexivity|].
  rewrite string_app_cons. cbn [has_char].
  destruct (Ascii.eqb c x); [reflexivity|exact IH].
Qed.

Lemma has_char_lower (c : ascii) (s : string) :
  (forall b, lower_char b = c -> b = c) ->
  has_char c s = false -> has_char c (lower s) = false.
Proof.
  intros Hc. induction s as [|x s IH]; [reflexivity|].
  cbn. destruct (Ascii.eqb c x) eqn:E; [discriminate|].
  intros H. destruct (Ascii.eqb c (lower_char x)) eqn:E'; [|auto].
  apply ascii_eqb_true in E'. symmetry in E'. apply Hc in E'. subst x.
  rewrite Ascii.eqb_refl in E. discriminate.
Qed.

Lemma has_char_split_head (c : ascii) (s : string) :
  has_char c (split_head c s) = false.
Proof.
  induction s as [|x s IH]; [reflexivity|].
  cbn. destruct (Ascii.eqb c x) eqn:E; [reflexivity|].
  cbn. now rewrite E.
Qed.

Lemma has_char_split_head_other (c d : ascii) (s : string) :
  has_char d s = false -> has_char d (split_head c s) = false.
Proof.
  induction s as [|x s IH]; [reflexivity|].
  cbn. destruct (Ascii.eqb d x) eqn:E; [discriminate|].
  intros H. destruct (Ascii.eqb c x); [reflexivity|].
  cbn. rewrite E. auto.
Qed.

Lemma split_head_id (c : ascii) (s : string) :
  has_char c s = false -> split_head c s = s.
Proof.
  induction s as [|x s IH]; [reflexivity|].
  cbn. destruct (Ascii.eqb c x); [discriminate|].
  intros H. now rewrite IH.
Qed.

Lemma has_char_lstrip (c : ascii) (s : string) :
  has_char c s = false -> has_char c (lstrip s) = false.
Proof.
  induction s as [|x s IH]; [reflexivity|].
  intros H. cbn. destruct (is_space x); [|exact H].
  apply IH. cbn in H. destruct (Ascii.eqb c x); [discriminate|exact H].
Qed.

Lemma has_char_rstrip (c : ascii) (s : string) :
  has_char c s = false -> has_char c (rstrip s) = false.
Proof.
  induction s as [|x s IH]; [reflexivity|].
  cbn. destruct (Ascii.eqb c x) eqn:E; [discriminate|].
  intros H. specialize (IH H).
  destruct (rstrip s) as [|y r].
  - destruct (is_space x); [reflexivity|]. cbn. now rewrite E.
  - cbn. rewrite E. exact IH.
Qed.

Lemma has_char_strip (c : ascii) (s : string) :
  has_char c s = false -> has_char c (strip s) = false.
Proof. intros H. apply has_char_lstrip, has_char_rstrip, H. Qed.

Lemma startswith_has_char (c : ascii) (p s : string) :
  startswith p s = true -> has_char c p = true -> has_char c s = true.
Proof.
  revert s. induction p as [|a p IH]; intros s; [discriminate 2|].
  destruct s as [|b s]; [discriminate|].
  cbn. destruct (Ascii.eqb a b) eqn:E; [|discriminate].
  apply ascii_eqb_true in E. subst b.
  intros Hp. destruct (Ascii.eqb c a); [reflexivity|]. now apply IH.
Qed.

Lemma replace_from_id (c : ascii) (old new s : string) :
  has_char c old = true -> has_char c s = false ->
  replace_from old new O s = s.
Proof.
  intros Hold. induction s as [|x s IH]; [reflexivity|].
  intros Hs. cbn [replace_from].
  destruct (startswith old (String x s)) eqn:E.
  - rewrite (startswith_has_char c _ _ E Hold) in Hs. discriminate.
  - rewrite IH; [reflexivity|].
    cbn in Hs. destruct (Ascii.eqb c x); [discriminate|exact Hs].
Qed.

Lemma replace_id (c : ascii) (old new s : string) :
  has_char c old = true -> has_char c s = false -> replace old new s = s.
Proof. apply replace_from_id. Qed.

(** ** Stripping *)

Lemma lstrip_idem (s : string) : lstrip (lstrip s) = lstrip s.
Proof.
  induction s as [|x s IH]; [reflexivity|].
  cbn. destruct (is_space x) eqn:E; [exact IH|]. cbn. now rewrite E.
Qed.

Lemma rstrip_idem (s : string) : rstrip (rstrip s) = rstrip s.
Proof.
  induction s as [|x s IH]; [reflexivity|].
  cbn. destruct (rstrip s) as [|y r] eqn:Er.
  - destruct (is_space x) eqn:E; [reflexivity|]. cbn. now rewrite E.
  - cbn [rstrip]. cbn [rstrip] in IH. now rewrite IH.
Qed.

Lemma lstrip_rstrip_comm (s : string) : lstrip (rstrip s) = rstrip (lstrip s).
Proof.
  induction s as [|x s IH]; [reflexivity|].
  cbn [rstrip lstrip]. destruct (is_space x) eqn:E.
  - rewrite <- IH. destruct (rstrip s) as [|y r]; [reflexivity|].
    cbn [lstrip]. now rewrite E.
  - cbn [rstrip]. destruct (rstrip s) as [|y r]; rewrite ?E; cbn; now rewrite E.
Qed.

Lemma strip_idem (s : string) : strip (strip s) = strip s.
Proof.
  unfold strip.
  rewrite (lstrip_rstrip_comm (lstrip (rstrip s))), lstrip_idem.
  now rewrite <- lstrip_rstrip_comm, rstrip_idem.
Qed.

Lemma lower_lstrip (s : string) : lower (lstrip s) = lstrip (lower s).
Proof.
  induction s as [|x s IH]; [reflexivity|].
  cbn. rewrite is_space_lower_char. destruct (is_space x); [exact IH|reflexivity].
Qed.

Lemma lower_rstrip (s : string) : lower (rstrip s) = rstrip (lower s).
Proof.
  induction s as [|x s IH]; [reflexivity|].
  cbn. rewrite <- IH, is_space_lower_char.
  destruct (rstrip s) as [|y r]; cbn; [|reflexivity].
  destruct (is_space x); reflexivity.
Qed.

Lemma lower_strip (s : string) : lower (strip s) = strip (lower s).
Proof. unfold strip. now rewrite lower_lstrip, lower_rstrip. Qed.

Lemma rstrip_app_space (s : string) (c : ascii) :
  is_space c = true -> rstrip (s +:+ String c "") = rstrip s.
Proof.
  intros Hc. induction s as [|x s IH].
  - rewrite string_app_nil_l. cbn. now rewrite Hc.
  - rewrite string_app_cons. cbn [rstrip]. now rewrite IH.
Qed.

(** ** Substrings *)

Lemma startswith_spec (p s : string) :
  startswith p s = true <-> exists t, s = p +:+ t.
Proof.
  revert s. induction p as [|a p IH]; intros s.
  - split; [intros _; now exists s|reflexivity].
  - destruct s as [|b s]; cbn.
    + split; [discriminate|intros [t Ht]; discriminate].
    + destruct (Ascii.eqb a b) eqn:E.
      * apply ascii_eqb_true in E. subst b. rewrite IH.
        split; intros [t Ht]; exists t; [now subst|].
        rewrite string_app_cons in Ht. now injection Ht.
      * split; [discriminate|]. intros [t Ht].
        rewrite string_app_cons in Ht. injection Ht as -> _.
        rewrite Ascii.eqb_refl in E. discriminate.
Qed.

Lemma contains_spec (p s : string) :
  contains p s = true <-> exists a b, s = a +:+ p +:+ b.
Proof.
  induction s as [|x s IH]; cbn [contains].
  - destruct (startswith p "") eqn:E.
    + split; [intros _|reflexivity].
      apply startswith_spec in E as [t Ht]. now exists "", t.
    + split; [discriminate|]. intros [a [b H]].
      destruct a; [|discriminate].
      assert (startswith p "" = true) as E'
        by (apply startswith_spec; now exists b).
      congruence.
  - destruct (startswith p (String x s)) eqn:E.
    + split; [intros _|reflexivity].
      apply startswith_spec in E as [t Ht]. now exists "", t.
    + rewrite IH. split.
      * intros [a [b H]]. exists (String x a), b. now rewrite H.
      * intros [a [b H]]. destruct a as [|y a].
        -- assert (startswith p (String x s) = true) as E'
             by (apply startswith_spec; now exists b).
           congruence.
        -- rewrite string_app_cons in H. injection H as _ H.
           now exists a, b.
Qed.

Lemma contains_trans (a b c : string) :
  contains a b = true -> contains b c = true -> contains a c = true.
Proof.
  rewrite !contains_spec. intros [u [v ->]] [x [y ->]].
  exists (x +:+ u), (v +:+ y). now rewrite !string_app_assoc.
Qed.

Lemma startswith_contains (p s : string) :
  startswith p s = true -> contains p s = true.
Proof.
  intros H. apply startswith_spec in H as [t ->].
  apply contains_spec. now exists "", t.
Qed.

Lemma contains_lower (p s : string) :
  contains p s = true -> contains (lower p) (lower s) = true.
Proof.
  rewrite !contains_spec. intros [a [b ->]].
  exists (lower a), (lower b). now rewrite !lower_app.
Qed.

Lemma contains_any_spec (keywords : list string) (s : string) :
  contains_any keywords s = true <->
  exists k, k ∈ keywords /\ contains k s = true.
Proof.
  unfold contains_any. rewrite existsb_exists.
  split; intros [k [Hk H]]; exists k; split; auto; now apply list_elem_of_In.
Qed.

End StringFacts.

(* ================================================================== *)
(** * The domain normalizer *)
(* ================================================================== *)

Section NormalizerFacts.
Import PyStr ContestManager Statements.

Lemma normalize_core_no_slash (x : string) :
  has_char "/"%char (normalize_core x) = false.
Proof.
  unfold normalize_core.
  apply has_char_strip, has_char_lower; [exact lower_char_slash|].
  apply has_char_split_head_other, has_char_split_head.
Qed.

Lemma normalize_core_no_colon (x : string) :
  has_char ":"%char (normalize_core x) = false.
Proof.
  unfold normalize_core.
  apply has_char_strip, has_char_lower; [exact lower_char_colon|].
  apply has_char_split_head.
Qed.

Lemma normalize_core_fixed (x : string) :
  normalize_core (normalize_core x) = normalize_core x.
Proof.
  pose proof (normalize_core_no_slash x) as Hs.
  pose proof (normalize_core_no_colon x) as Hc.
  unfold normalize_core at 1.
  rewrite (replace_id "/"%char "http://" "" _ eq_refl Hs).
  rewrite (replace_id "/"%char "https://" "" _ eq_refl Hs).
  rewrite (split_head_id _ _ Hs), (split_head_id _ _ Hc).
  unfold normalize_core.
  now rewrite <- lower_strip, strip_idem, lower_strip, lower_idem.
Qed.

Lemma normalize_unfold (x : string) :
  _normalize_domain x =
  if String.eqb x "" then ""
  else if String.eqb (normalize_core x) ""
          || negb (has_char "."%char (normalize_core x))
       then "" else normalize_core x.
Proof. reflexivity. Qed.

(** The result of the normalizer is empty or a lowercase, trimmed name
    with a dot and without "/" and ":". *)
Lemma normalize_result (x : string) :
  _normalize_domain x = "" \/
  (_normalize_domain x = normalize_core x /\
   has_char "."%char (normalize_core x) = true /\
   normalize_core x <> "").
Proof.
  rewrite normalize_unfold.
  destruct (String.eqb x ""); [now left|].
  destruct (String.eqb (normalize_core x) "") eqn:E; [now left|].
  destruct (has_char "."%char (normalize_core x)) eqn:D; [|now left].
  right. repeat split. intros H. rewrite H in E. discriminate.
Qed.

(** C7: domain normalization is idempotent,
    normalize(normalize(x)) == normalize(x) for every string x. *)
Theorem normalize_domain_idempotent (x : string) :
  _normalize_domain (_normalize_domain x) = _normalize_domain x.
Proof.
  destruct (normalize_result x) as [E|[E [Hdot Hne]]]; rewrite E.
  - reflexivity.
  - rewrite normalize_unfold, normalize_core_fixed, Hdot.
    apply String.eqb_neq in Hne. now rewrite Hne.
Qed.

End NormalizerFacts.

(* ================================================================== *)
(** * The whitelist store *)
(* ================================================================== *)

Section WhitelistFacts.
Import PyStr ContestManager Statements.

Lemma normalize_upper_scheme :
  _normalize_domain "HTTP://Example.com/path" = "".
Proof. reflexivity. Qed.

Lemma normalize_lower_scheme :
  _normalize_domain "http://Example.com/path" = "example.com".
Proof. reflexivity. Qed.

Lemma add_domain_invalid (d : string) (w : world) :
  _normalize_domain d = "" ->
  add_domain d w = (false, say (PrintError "Invalid domain format") w).
Proof. intros H. unfold add_domain. now rewrite H. Qed.


Lemma load_whitelist_say (m : message) (w : world) :
  load_whitelist (say m w) = load_whitelist w.
Proof. reflexivity. Qed.

(** C3: repeated add calls whose arguments decorate one host by case,
    scheme or path all succeed and leave the host listed once.  The code
    removes the scheme by a case-sensitive replace before it lowercases:
    on the spec's own first call, add("HTTP://Example.com/path"), the
    normalizer returns the empty string, add reports failure and the
    whitelist is left as it was, so the host is not listed. *)
Theorem add_uppercase_scheme_rejected (w : world) :
  _normalize_domain "HTTP://Example.com/path" = "" /\
  add_domain "HTTP://Example.com/path" w
    = (false, say (PrintError "Invalid domain format") w) /\
  list_domains (add_domain "HTTP://Example.com/path" w).2 = list_domains w /\
  list_domains
    (add_domain "HTTP://Example.com/path"
                (World (Some header) None CacheAbsent true [])).2 = [].
Proof.
  split; [reflexivity|].
  rewrite (add_domain_invalid _ w normalize_upper_scheme).
  split; [reflexivity|]. split; [reflexivity|].
  vm_compute. reflexivity.
Qed.




(** ** Writing and reading the file *)

Lemma whitelist_text_acc (acc : string) (l : list string) :
  foldl (fun acc domain => acc +:+ domain +:+ nl) acc l = acc +:+ lines_text l.
Proof.
  revert acc. induction l as [|d l IH]; intros acc; cbn [foldl lines_text].
  - now rewrite string_app_nil_r.
  - now rewrite IH, !string_app_assoc.
Qed.

Lemma whitelist_text_unfold (X : gset string) :
  whitelist_text X = header +:+ lines_text (sorted X).
Proof. apply whitelist_text_acc. Qed.

Lemma universal_newlines_id (s : string) :
  has_char "013"%char s = false -> universal_newlines s = s.
Proof.
  induction s as [|c s IH]; [reflexivity|].
  cbn [has_char universal_newlines].
  destruct (Ascii.eqb "013"%char c) eqn:E; [discriminate|].
  rewrite Ascii.eqb_sym in E. rewrite E. intros H. now rewrite IH.
Qed.

Lemma split_lines_line (d rest : string) :
  has_char "010"%char d = false ->
  split_lines (d +:+ nl +:+ rest) = (d +:+ nl) :: split_lines rest.
Proof.
  induction d as [|c d IH]; [reflexivity|].
  cbn [has_char]. destruct (Ascii.eqb "010"%char c) eqn:E; [discriminate|].
  intros H. rewrite !string_app_cons. cbn [split_lines].
  rewrite Ascii.eqb_sym in E. rewrite E. now rewrite IH.
Qed.

Lemma split_lines_text (l : list string) :
  Forall (fun d => has_char "010"%char d = false) l ->
  split_lines (lines_text l) = map (fun d => d +:+ nl) l.
Proof.
  induction 1 as [|d l Hd Hl IH]; [reflexivity|].
  cbn [lines_text map]. now rewrite split_lines_line, IH.
Qed.

Lemma has_char_lines_text (c : ascii) (l : list string) :
  has_char c nl = false ->
  Forall (fun d => has_char c d = false) l ->
  has_char c (lines_text l) = false.
Proof.
  intros Hnl. induction 1 as [|d l Hd Hl IH]; [reflexivity|].
  cbn [lines_text]. now rewrite !has_char_app, Hd, Hnl, IH.
Qed.

Lemma file_lines_whitelist (l : list string) :
  Forall (fun d => has_char "010"%char d = false) l ->
  Forall (fun d => has_char "013"%char d = false) l ->
  file_lines (header +:+ lines_text l)
    = header_lines ++ map (fun d => d +:+ nl) l.
Proof.
  intros Hn Hr. unfold file_lines.
  rewrite universal_newlines_id.
  2:{ rewrite has_char_app, (has_char_lines_text "013"%char _ eq_refl Hr). reflexivity. }
  unfold header. rewrite !string_app_assoc.
  rewrite !split_lines_line by reflexivity.
  rewrite <- (string_app_nil_l (nl +:+ lines_text l)).
  rewrite split_lines_line by reflexivity.
  now rewrite split_lines_text.
Qed.

Lemma data_line_stored (d : string) :
  storable d -> data_line (d +:+ nl) = Some d.
Proof.
  intros (_ & Hs & Hne & Hc & _). unfold data_line.
  assert (strip (d +:+ nl) = d) as ->.
  { unfold strip, nl. rewrite rstrip_app_space by reflexivity. exact Hs. }
  apply String.eqb_neq in Hne. now rewrite Hne, Hc.
Qed.

Lemma read_stored_lines (l : list string) (acc : gset string) :
  Forall storable l ->
  foldl read_line acc (map (fun d => d +:+ nl) l) = acc ∪ list_to_set l.
Proof.
  intros H. revert acc. induction H as [|d l Hd Hl IH]; intros acc.
  - cbn. now rewrite union_empty_r_L.
  - cbn [map foldl]. rewrite IH. unfold read_line.
    rewrite (data_line_stored d Hd). destruct Hd as (-> & _).
    cbn [list_to_set]. symmetry. apply (assoc_L (∪)).
Qed.

Lemma sorted_elem_of (X : gset string) (d : string) : d ∈ sorted X <-> d ∈ X.
Proof.
  unfold sorted. rewrite merge_sort_Permutation. apply elem_of_elements.
Qed.

Lemma list_to_set_sorted (X : gset string) : list_to_set (sorted X) = X.
Proof.
  apply set_eq. intros d. rewrite elem_of_list_to_set. apply sorted_elem_of.
Qed.

Lemma load_saved (X : gset string) (w : world) :
  (forall d, d ∈ X -> storable d) ->
  load_whitelist (write_whitelist (whitelist_text X) w) = X.
Proof.
  intros HX.
  assert (Forall storable (sorted X)) as Hall.
  { apply Forall_forall. intros d Hd. now apply HX, sorted_elem_of. }
  unfold load_whitelist. cbn [whitelist_file write_whitelist].
  rewrite whitelist_text_unfold, file_lines_whitelist.
  2:{ eapply Forall_impl; [exact Hall|]. intros d Hd. apply Hd. }
  2:{ eapply Forall_impl; [exact Hall|]. intros d Hd. apply Hd. }
  rewrite foldl_app.
  change (foldl read_line ∅ header_lines) with (∅ : gset string).
  rewrite read_stored_lines by exact Hall.
  rewrite list_to_set_sorted. apply union_empty_l_L.
Qed.

(** C6 (as amended): whitelist save/load round trip.  For every finite
    set of domains that are lowercase, trimmed, not empty, not starting
    with '#' and free of line breaks, saving the set to a writable
    directory succeeds and loading the file returns exactly that set;
    the file holds the header and then the domains in ascending order,
    whatever the order in which they were inserted. *)
Theorem whitelist_save_load_roundtrip (X : gset string) (w : world) :
  writable w = true ->
  (forall d, d ∈ X -> storable d) ->
  (save_whitelist X w).1 = true /\
  load_whitelist (save_whitelist X w).2 = X /\
  whitelist_file (save_whitelist X w).2
    = Some (header +:+ lines_text (sorted X)) /\
  Sorted String.le (sorted X).
Proof.
  intros Hw HX. unfold save_whitelist. rewrite Hw. cbn [fst snd].
  split; [reflexivity|]. split; [now apply load_saved|].
  split; [cbn; now rewrite whitelist_text_unfold|].
  apply Sorted_merge_sort. apply _.
Qed.

(** Two domains, inserted in descending order. *)
Lemma whitelist_save_load_roundtrip_witness :
  load_whitelist
    (save_whitelist {[ "b.org"; "a.com" ]} (World None None CacheAbsent true [])).2
  = {[ "b.org"; "a.com" ]}.
Proof.
  refine (proj1 (proj2 (whitelist_save_load_roundtrip
            {[ "b.org"; "a.com" ]} (World None None CacheAbsent true [])
            eq_refl _))).
  intros d Hd. apply elem_of_union in Hd as [Hd|Hd];
    apply elem_of_singleton in Hd; subst d;
    repeat split; try reflexivity; discriminate.
Defined.

(** C6 as stated fails: a name with a line break inside is lowercase, has
    a dot, does not start with '#' and is a fixed point of the
    normalizer, yet it is written as two lines and read back as two
    domains. *)
Lemma whitelist_roundtrip_line_break :
  let d := "a.b" +:+ nl +:+ "c.d" in
  let w := World None None CacheAbsent true [] in
  lower d = d /\ has_char "."%char d = true /\ startswith "#" d = false /\
  _normalize_domain d = d /\
  load_whitelist (save_whitelist {[ d ]} w).2 ≠ {[ d ]}.
Proof.
  cbv zeta. repeat split; try reflexivity.
  intros H.
  assert ("c.d" ∈ ({[ "a.b" +:+ nl +:+ "c.d" ]} : gset string)) as Hin.
  { rewrite <- H. apply (bool_decide_unpack _). vm_compute. exact I. }
  apply elem_of_singleton in Hin. discriminate.
Qed.

End WhitelistFacts.

(* ================================================================== *)
(** * The dependency cache *)
(* ================================================================== *)

Section CacheFacts.
Import PyStr ContestManager ContestRestrictor Statements.



Section Scripts.
Variable set_iter : gset string -> list string.
Variable analyze_site : string -> option (gset string).

Lemma analyze_one_world (force : bool) cache all w site :
  writable (analyze_one set_iter analyze_site force (cache, all, w) site).2
  = writable w.
Proof.
  unfold analyze_one.
  destruct (cache !! site), force, (analyze_site site); reflexivity.
Qed.




Lemma analyze_fold_world (force : bool) (l : list string) :
  forall acc,
    writable (foldl (analyze_one set_iter analyze_site force) acc l).2
    = writable acc.2.
Proof.
  induction l as [|a l IH]; intros [[cache all] w]; cbn [foldl]; [reflexivity|].
  rewrite IH. apply analyze_one_world.
Qed.




Lemma analyze_dependencies_cache (force : bool) sites w :
  writable w = true ->
  load_dependencies (analyze_dependencies set_iter analyze_site force sites w).2
  = (foldl (analyze_one set_iter analyze_site force)
           (if force then ∅ else load_dependencies w, ∅,
            if force then w else (load_dependency_cache w).2)
           (set_iter sites)).1.1.
Proof.
  intros Hw. unfold analyze_dependencies.
  assert ((if force then (∅, w) else load_dependency_cache w)
          = (if force then ∅ else load_dependencies w,
             if force then w else (load_dependency_cache w).2)) as ->.
  { destruct force; [reflexivity|].
    unfold load_dependency_cache, load_dependencies.
    destruct (cache_file w); reflexivity. }
  pose proof (analyze_fold_world force (set_iter sites)
                (if force then ∅ else load_dependencies w, ∅,
                 if force then w else (load_dependency_cache w).2)) as Hf.
  destruct (foldl _ _ _) as [[c1 a1] w1]. cbn [fst snd] in *.
  unfold save_dependency_cache.
  assert (writable w1 = true) as ->.
  { rewrite Hf. destruct force; [exact Hw|].
    unfold load_dependency_cache. destruct (cache_file w); exact Hw. }
  reflexivity.
Qed.
End Scripts.




End CacheFacts.

(* ================================================================== *)
(** * Dependency classification *)
(* ================================================================== *)

Section ClassifierFacts.
Import PyStr DependencyAnalyzer Statements.

Lemma blocked_keywords_lower (k : string) :
  k ∈ blocked_keywords -> lower k = k.
Proof.
  revert k. apply (proj1 (Forall_forall _ _)). repeat constructor.
Qed.

Lemma cdn_patterns_essential (p : string) :
  p ∈ cdn_patterns -> contains_any essential_keywords p = true.
Proof.
  revert p. apply (proj1 (Forall_forall _ _)). repeat constructor.
Qed.

Lemma contains_any_mono (keywords : list string) (p s : string) :
  contains_any keywords p = true -> contains p s = true ->
  contains_any keywords s = true.
Proof.
  rewrite !contains_any_spec. intros [k [Hk Hkp]] Hps.
  exists k. split; [exact Hk|]. eapply contains_trans; eauto.
Qed.

Lemma is_cdn_is_essential (dep : string) :
  is_cdn dep = true -> is_essential dep = true.
Proof.
  unfold is_cdn, is_essential. intros H.
  apply contains_any_spec in H as [p [Hp Hc]].
  eapply contains_any_mono; [apply cdn_patterns_essential|]; eauto.
Qed.

Lemma prefix_pattern_essential (host : string) :
  existsb (fun p => startswith p host) cdn_patterns = true ->
  contains_any essential_keywords host = true.
Proof.
  intros H. apply existsb_exists in H as [p [Hp Hs]].
  apply list_elem_of_In in Hp.
  eapply contains_any_mono; [apply cdn_patterns_essential; exact Hp|].
  now apply startswith_contains.
Qed.

Lemma is_blocked_keyword (h kw : string) :
  kw ∈ blocked_keywords -> contains kw h = true -> is_blocked h = true.
Proof.
  intros Hk Hc. unfold is_blocked. apply contains_any_spec.
  exists kw. split; [exact Hk|].
  rewrite <- (blocked_keywords_lower kw Hk). now apply contains_lower.
Qed.

(** C4: a blocked-keyword match short-circuits before the essential
    check.  A host that contains a blocked keyword is classified as
    blocked and is not in the set filter_dependencies returns, whatever
    essential keywords it also contains. *)
Theorem blocked_keyword_excluded (deps : gset string) (h kw : string) :
  kw ∈ blocked_keywords -> contains kw h = true ->
  classify h = Blocked /\ h ∉ filter_dependencies deps.
Proof.
  intros Hk Hc.
  assert (classify h = Blocked) as Hb.
  { unfold classify. now rewrite (is_blocked_keyword h kw Hk Hc). }
  split; [exact Hb|].
  unfold filter_dependencies. rewrite elem_of_filter, Hb.
  intros [H _]. discriminate.
Qed.

(** cdn.facebook.com matches the essential keyword cdn and the blocked
    keyword facebook. *)
Lemma blocked_keyword_excluded_witness :
  is_essential "cdn.facebook.com" = true /\
  "cdn.facebook.com" ∉ filter_dependencies {[ "cdn.facebook.com" ]}.
Proof.
  split; [reflexivity|].
  refine (proj2 (blocked_keyword_excluded {[ "cdn.facebook.com" ]}
                   "cdn.facebook.com" "facebook" _ eq_refl)).
  apply (bool_decide_unpack _). vm_compute. exact I.
Defined.

(** C8: for a crawled (lowercase) host that matches no blocked keyword,
    the classifier marks it essential if and only if it contains an
    essential keyword, or starts with a literal CDN pattern, or ends in
    .net or .io and contains the name of a big CDN; every other such
    host is skipped, neither essential nor blocked. *)
Theorem essential_classification (deps : gset string) (h : string) :
  lower h = h ->
  contains_any blocked_keywords h = false ->
  classify h = (if spec_essential h then Essential else Skipped) /\
  (h ∈ filter_dependencies deps <-> h ∈ deps /\ spec_essential h = true).
Proof.
  intros Hl Hb.
  assert (classify h = if spec_essential h then Essential else Skipped) as Hc.
  { unfold classify, is_blocked. rewrite Hl, Hb.
    pose proof (is_cdn_is_essential h) as Hcdn.
    pose proof (prefix_pattern_essential h) as Hpre.
    unfold spec_essential, is_common_cdn, is_essential, is_cdn in *.
    rewrite Hl in *.
    destruct (contains_any essential_keywords h); [reflexivity|].
    destruct (contains_any cdn_patterns h); [now specialize (Hcdn eq_refl)|].
    destruct (existsb _ cdn_patterns); [now specialize (Hpre eq_refl)|].
    reflexivity. }
  split; [exact Hc|].
  unfold filter_dependencies. rewrite elem_of_filter, Hc.
  destruct (spec_essential h); intuition congruence.
Qed.

(** A host with an essential keyword and a host with none. *)
Lemma essential_classification_witness :
  classify "static.example.net" = Essential /\
  classify "tracker.example.org" = Skipped.
Proof.
  split.
  - exact (proj1 (essential_classification ∅ "static.example.net"
                    eq_refl eq_refl)).
  - exact (proj1 (essential_classification ∅ "tracker.example.org"
                    eq_refl eq_refl)).
Defined.

End ClassifierFacts.

(* ================================================================== *)
(** * Hosts extracted from request URLs *)
(* ================================================================== *)

Section ExtractFacts.
Import PyStr DependencyAnalyzer Statements.

Lemma lower_cons_inv (c : ascii) (s : string) :
  lower (String c s) = String c s -> lower_char c = c /\ lower s = s.
Proof. cbn. intros H. now injection H. Qed.

Lemma lower_split_head (c : ascii) (s : string) :
  lower s = s -> lower (split_head c s) = split_head c s.
Proof.
  induction s as [|x s IH]; [reflexivity|].
  intros H. apply lower_cons_inv in H as [Hx Hs].
  cbn. destruct (Ascii.eqb c x); [reflexivity|].
  cbn. now rewrite Hx, IH.
Qed.

Lemma lower_drop (n : nat) (s : string) :
  lower s = s -> lower (drop n s) = drop n s.
Proof.
  revert s. induction n as [|n IH]; intros s H; [destruct s; exact H|].
  destruct s as [|x s]; [reflexivity|].
  apply lower_cons_inv in H as [_ Hs]. cbn. now apply IH.
Qed.

Lemma has_char_drop (c : ascii) (n : nat) (s : string) :
  has_char c s = false -> has_char c (drop n s) = false.
Proof.
  revert s. induction n as [|n IH]; intros s H; [destruct s; exact H|].
  destruct s as [|x s]; [reflexivity|].
  cbn in *. destruct (Ascii.eqb c x); [discriminate|]. now apply IH.
Qed.

Lemma startswith_split_head (c : ascii) (p s : string) :
  startswith p (split_head c s) = true -> startswith p s = true.
Proof.
  revert s. induction p as [|a p IH]; intros s; [reflexivity|].
  destruct s as [|b s]; [discriminate|].
  cbn. destruct (Ascii.eqb c b); [discriminate|].
  cbn. destruct (Ascii.eqb a b); [apply IH|discriminate].
Qed.

Lemma strip_port_no_colon (s : string) :
  has_char ":"%char (strip_port s) = false.
Proof.
  unfold strip_port. destruct (has_char ":"%char s) eqn:E; [|exact E].
  apply has_char_split_head.
Qed.

Lemma strip_port_lower (s : string) :
  lower s = s -> lower (strip_port s) = strip_port s.
Proof.
  intros H. unfold strip_port.
  destruct (has_char ":"%char s); [now apply lower_split_head|exact H].
Qed.

Lemma strip_port_prefix (p s : string) :
  startswith p (strip_port s) = true -> startswith p s = true.
Proof.
  unfold strip_port. destruct (has_char ":"%char s); [|auto].
  apply startswith_split_head.
Qed.

Lemma strip_www_lower (s : string) :
  lower s = s -> lower (strip_www s) = strip_www s.
Proof.
  intros H. unfold strip_www.
  destruct (startswith "www." s); [now apply lower_drop|exact H].
Qed.

Lemma strip_www_no_char (c : ascii) (s : string) :
  has_char c s = false -> has_char c (strip_www s) = false.
Proof.
  intros H. unfold strip_www.
  destruct (startswith "www." s); [now apply has_char_drop|exact H].
Qed.

(** One leading "www." is removed: the result starts with "www." only
    when the input started with it twice. *)
Lemma strip_www_once (s : string) :
  startswith "www." (strip_www s) = true -> startswith "www.www." s = true.
Proof.
  unfold strip_www. destruct (startswith "www." s) eqn:E.
  - apply startswith_spec in E as [t ->].
    change (drop 4 ("www." +:+ t)) with t. intros H.
    apply startswith_spec in H as [u ->]. apply startswith_spec.
    exists u. reflexivity.
  - congruence.
Qed.

Section Crawled.
Variable netloc_of : string -> option string.

Lemma extract_domain_spec (url d : string) :
  extract_domain netloc_of url = Some d ->
  exists netloc, netloc_of url = Some netloc /\
                 d = strip_www (strip_port (lower netloc)).
Proof.
  unfold extract_domain. destruct (netloc_of url) as [netloc|]; [|discriminate].
  destruct (String.eqb _ ""); [discriminate|].
  intros H. injection H as <-. now exists netloc.
Qed.

Lemma collect_spec (domain : string) (entries : list (option string)) :
  forall (acc : gset string) (d : string),
    d ∈ collect netloc_of domain entries acc ->
    d ∈ acc \/
    (d <> domain /\
     exists url, Some url ∈ entries /\ extract_domain netloc_of url = Some d).
Proof.
  induction entries as [|[req_url|] rest IH]; intros acc d; cbn [collect].
  - now left.
  - destruct (extract_domain netloc_of req_url) as [dep|] eqn:E.
    + destruct (String.eqb dep domain) eqn:Ed; cbn [negb]; intros H;
        apply IH in H as [H|(Hne & url & Hin & Hu)].
      * now left.
      * right. split; [exact Hne|]. exists url. split; [now right|exact Hu].
      * apply elem_of_union in H as [H|H]; [now left|].
        apply elem_of_singleton in H. subst dep. right.
        split; [now apply String.eqb_neq|].
        exists req_url. split; [now left|exact E].
      * right. split; [exact Hne|]. exists url. split; [now right|exact Hu].
    + intros H. apply IH in H as [H|(Hne & url & Hin & Hu)]; [now left|].
      right. split; [exact Hne|]. exists url. split; [now right|exact Hu].
  - now left.
Qed.

Lemma analyze_domain_collected (domain : string)
    (har : option (list (option string))) (d : string) :
  d ∈ analyze_domain netloc_of domain har ->
  classify d = Essential /\ d <> domain /\
  exists entries url,
    har = Some entries /\ Some url ∈ entries /\
    extract_domain netloc_of url = Some d.
Proof.
  unfold analyze_domain, filter_dependencies. rewrite elem_of_filter.
  intros [Hc Hd]. split; [exact Hc|].
  destruct har as [entries|]; [|now apply not_elem_of_empty in Hd].
  apply collect_spec in Hd as [Hd|(Hne & url & Hin & Hu)];
    [now apply not_elem_of_empty in Hd|].
  split; [exact Hne|]. now exists entries, url.
Qed.
End Crawled.

(** C10 (as amended): every dependency analyze_domain returns for a
    domain differs from that domain, is lowercase, has no ':' (the port
    is cut off) and comes from a captured request: the capture was read,
    one of its entries holds a URL, and the dependency is the lowercased
    network location of that URL with the port and one leading "www."
    removed; it starts with "www." only when that location started with
    "www.www.". *)
Theorem analyzed_dependencies_normalized
    (netloc_of : string -> option string) (domain : string)
    (har : option (list (option string))) (d : string) :
  d ∈ analyze_domain netloc_of domain har ->
  d <> domain /\ lower d = d /\ has_char ":"%char d = false /\
  exists entries url netloc,
    har = Some entries /\ Some url ∈ entries /\
    netloc_of url = Some netloc /\
    d = strip_www (strip_port (lower netloc)) /\
    (startswith "www." d = true -> startswith "www.www." (lower netloc) = true).
Proof.
  intros H.
  apply analyze_domain_collected in H as (_ & Hne & entries & url & Hhar & Hin & Hu).
  apply extract_domain_spec in Hu as (netloc & Hn & ->).
  split; [exact Hne|]. split; [|split].
  - apply strip_www_lower, strip_port_lower, lower_idem.
  - apply strip_www_no_char, strip_port_no_colon.
  - exists entries, url, netloc. split; [exact Hhar|]. split; [exact Hin|].
    split; [exact Hn|]. split; [reflexivity|].
    intros Hw. now apply strip_port_prefix, strip_www_once.
Qed.

(** A request to WWW.Fonts.Gstatic.com:443 made while example.com is
    analyzed. *)
Lemma analyzed_dependencies_normalized_witness :
  "fonts.gstatic.com" <> "example.com" /\
  lower "fonts.gstatic.com" = "fonts.gstatic.com" /\
  has_char ":"%char "fonts.gstatic.com" = false.
Proof.
  assert ("fonts.gstatic.com" ∈
          analyze_domain plain_netloc "example.com"
            (Some [Some "https://WWW.Fonts.Gstatic.com:443/css";
                   Some "https://example.com/"])) as Hin.
  { apply (bool_decide_unpack _). vm_compute. exact I. }
  destruct (analyzed_dependencies_normalized _ _ _ _ Hin) as (H1 & H2 & H3 & _).
  exact (conj H1 (conj H2 H3)).
Defined.

(** C10 as stated fails: the request host www.www.cdn.example.com is
    reported as www.cdn.example.com, which is not www-less. *)
Lemma dependency_with_www_prefix :
  "www.cdn.example.com" ∈
    analyze_domain plain_netloc "example.com"
      (Some [Some "https://www.www.cdn.example.com/app.js"]) /\
  startswith "www." "www.cdn.example.com" = true.
Proof.
  split; [|reflexivity].
  apply (bool_decide_unpack _). vm_compute. exact I.
Qed.

End ExtractFacts.

(* ================================================================== *)
(** * The firewall rule builder *)
(* ================================================================== *)

Section FirewallFacts.
Import PyStr Iptables NetworkRestrictor FirewallStatements.

Lemma run_command_v6 (args : list string) (fw : firewall) :
  exists t6, run_command ("ip6tables" :: args) false fw
             = Some (Firewall (ipv4 fw) t6).
Proof.
  unfold run_command, run.
  change (String.eqb "ip6tables" "iptables") with false.
  change (String.eqb "ip6tables" "ip6tables") with true. cbv iota.
  destruct (exec args (ipv6 fw)) as [t|]; cbn; eauto.
  destruct fw; cbn; eauto.
Qed.

Lemma run_command_v4 (args : list string) (check : bool) (fw : firewall) :
  run_command ("iptables" :: args) check fw =
  match exec args (ipv4 fw) with
  | Some t => Some (Firewall t (ipv6 fw))
  | None => if check then None else Some fw
  end.
Proof.
  unfold run_command, run.
  change (String.eqb "iptables" "iptables") with true. cbv iota.
  destruct (exec args (ipv4 fw)); reflexivity.
Qed.

Lemma exec_append (c : string) (spec : rule) (t : table) (rs : list rule) :
  t !! c = Some rs -> target_ok spec t = true ->
  exec ("-A" :: c :: spec) t = Some (<[c := rs ++ [spec]]> t).
Proof.
  intros Hc Ht. unfold exec.
  change (String.eqb "-A" "-N") with false.
  change (String.eqb "-A" "-F") with false.
  change (String.eqb "-A" "-X") with false.
  change (String.eqb "-A" "-A") with true. cbv iota.
  now rewrite Hc, Ht.
Qed.

Lemma exec_append_inv (c : string) (spec : rule) (t t' : table) :
  exec ("-A" :: c :: spec) t = Some t' ->
  exists rs, t !! c = Some rs /\ t' = <[c := rs ++ [spec]]> t.
Proof.
  unfold exec.
  change (String.eqb "-A" "-N") with false.
  change (String.eqb "-A" "-F") with false.
  change (String.eqb "-A" "-X") with false.
  change (String.eqb "-A" "-A") with true. cbv iota.
  destruct (t !! c) as [rs|]; [|discriminate].
  destruct (target_ok spec t); [|discriminate].
  intros H. injection H as <-. eauto.
Qed.

Lemma exec_new_inv (c : string) (t t' : table) :
  exec ["-N"; c] t = Some t' -> t !! c = None /\ t' = <[c := []]> t.
Proof.
  unfold exec. change (String.eqb "-N" "-N") with true. cbv iota.
  destruct (t !! c); [discriminate|]. intros H. now injection H as <-.
Qed.

Lemma bind_some {A B} (x : A) (f : A -> option B) : (Some x ≫= f) = f x.
Proof. reflexivity. Qed.

Section Names.
Variable upper : string -> string.
Variables (user : string) (uid : nat).
Let r := __init__ upper user uid.

Lemma chain_out_user : user_chain (chain_out r).
Proof. apply startswith_spec. eexists. reflexivity. Qed.

Lemma chain_in_user : user_chain (chain_in r).
Proof. apply startswith_spec. eexists. reflexivity. Qed.

Lemma chain_in_out : chain_in r <> chain_out r.
Proof.
  cbn. intros H. apply (inj (String.app "CONTEST_")) in H.
  apply (inj (String.app (upper user))) in H. discriminate.
Qed.
End Names.

Lemma user_chain_not_output (c : string) : user_chain c -> c <> "OUTPUT".
Proof. intros H ->. discriminate. Qed.

Lemma user_chain_not_builtin (c : string) : user_chain c -> c ∉ builtin_chains.
Proof.
  intros H Hin. unfold builtin_chains in Hin.
  repeat (apply elem_of_cons in Hin as [->|Hin]; [discriminate|]).
  now apply elem_of_nil in Hin.
Qed.

Lemma pretty_nat_not_flag (n : nat) : String.eqb (pretty n) "-j" = false.
Proof.
  apply String.eqb_neq. unfold pretty, pretty_nat, pretty, pretty_N.
  destruct (decide (N.of_nat n = 0%N)); [discriminate|].
  apply (pretty_N_go_ne_dash _ "" "j"). discriminate.
Qed.

Lemma jump_target_owner (r : restrictor) :
  jump_target (owner_jump r) = Some (chain_out r).
Proof.
  unfold owner_jump. cbn [jump_target].
  change (String.eqb "-m" "-j") with false.
  change (String.eqb "owner" "-j") with false.
  change (String.eqb "--uid-owner" "-j") with false.
  rewrite pretty_nat_not_flag.
  change (String.eqb "-j" "-j") with true. reflexivity.
Qed.

(** Appending a rule with a standard target to an existing chain. *)
Lemma append_v4 (c : string) (spec : rule) (check : bool)
    (base t6 : table) (rs : list rule) :
  (forall t, target_ok spec t = true) ->
  run_command ("iptables" :: "-A" :: c :: spec) check
              (Firewall (<[c := rs]> base) t6)
  = Some (Firewall (<[c := rs ++ [spec]]> base) t6).
Proof.
  intros Ht. rewrite run_command_v4. cbn [ipv4 ipv6].
  rewrite (exec_append c spec _ rs); [|apply lookup_insert_eq|apply Ht].
  now rewrite insert_insert_eq.
Qed.

Local Ltac step_v6 :=
  match goal with
  | |- context [run_command ("ip6tables" :: ?args) false ?fw] =>
      let t := fresh "t6" in
      destruct (run_command_v6 args fw) as [t ->];
      rewrite ?bind_some; cbn [ipv4 ipv6]
  end.

Lemma setup_default_rules_spec (r : restrictor) (base t6 : table)
    (rs : list rule) :
  exists t6',
    setup_default_rules r (Firewall (<[chain_out r := rs]> base) t6)
    = Some (Firewall (<[chain_out r := rs ++ default_rules]> base) t6').
Proof.
  unfold setup_default_rules.
  rewrite !append_v4, !bind_some by reflexivity.
  repeat (rewrite append_v4 by reflexivity; rewrite bind_some).
  repeat step_v6.
  eexists. rewrite <- !app_assoc. reflexivity.
Qed.

Lemma foldl_noop {S B : Type} (f : S -> B -> S) (l : list B) (a : S) :
  (forall a y, y ∈ l -> f a y = a) -> foldl f a l = a.
Proof.
  revert a. induction l as [|y l IH]; intros a H; [reflexivity|].
  cbn [foldl]. rewrite H by now left. apply IH.
  intros a' y' Hy. apply H. now right.
Qed.

Lemma foldl_unique {S B : Type} (f : S -> B -> S) (x : B) (l : list B) (a : S) :
  NoDup l -> x ∈ l -> (forall a y, y <> x -> f a y = a) ->
  foldl f a l = f a x.
Proof.
  intros Hnd Hx Hf. revert a. induction Hnd as [|y l Hy Hnd IH]; intros a.
  - now apply elem_of_nil in Hx.
  - cbn [foldl]. apply elem_of_cons in Hx as [->|Hx].
    + apply foldl_noop. intros a' y' Hy'. apply Hf. intros ->. now apply Hy.
    + rewrite (Hf a y); [now apply IH|]. intros ->. now apply Hy.
Qed.

Lemma subdomain_not_example (sub d : string) :
  sub ∈ subdomains -> sub +:+ "." +:+ d <> "example.com".
Proof.
  intros H. unfold subdomains in H.
  repeat (apply elem_of_cons in H as [->|H]; [discriminate|]).
  now apply elem_of_nil in H.
Qed.

Lemma essential_cdns_not_example (d : string) :
  d ∈ essential_cdns -> d <> "example.com".
Proof.
  intros H. unfold essential_cdns in H.
  repeat (apply elem_of_cons in H as [->|H]; [discriminate|]).
  now apply elem_of_nil in H.
Qed.

Section Example.
Variable set_iter : gset string -> list string.
Variable valid_ipv6 : string -> bool.
Variable dns : string -> rrtype -> list string.
Hypothesis set_iter_perm : forall X, set_iter X ≡ₚ elements X.
Hypothesis dns_example : dns "example.com" A = ["93.184.216.34"].
Hypothesis dns_other :
  forall name ty, (name, ty) <> ("example.com", A) -> dns name ty = [].

Lemma set_iter_elem (X : gset string) (x : string) : x ∈ set_iter X <-> x ∈ X.
Proof. rewrite set_iter_perm. apply elem_of_elements. Qed.

Lemma set_iter_nodup (X : gset string) : NoDup (set_iter X).
Proof. rewrite set_iter_perm. apply NoDup_elements. Qed.

Lemma set_iter_singleton (x : string) : set_iter {[ x ]} = [x].
Proof.
  apply Permutation_singleton_r. rewrite set_iter_perm.
  now rewrite elements_singleton.
Qed.

Lemma resolve_subdomains (d : string) (ips : gset string) :
  foldl (fun (ips : gset string) subdomain =>
           let subdomain_name := subdomain +:+ "." +:+ d in
           ips ∪ list_to_set (dns subdomain_name A)
               ∪ list_to_set (dns subdomain_name AAAA))
        ips subdomains = ips.
Proof.
  apply foldl_noop. intros a sub Hsub. cbv zeta.
  rewrite !dns_other
    by (intros [= H]; now apply (subdomain_not_example sub d) in H).
  cbn [list_to_set]. now rewrite !union_empty_r_L.
Qed.

Lemma resolve_example :
  resolve_domain_ips dns "example.com" = {[ "93.184.216.34" ]}.
Proof.
  unfold resolve_domain_ips. rewrite resolve_subdomains.
  rewrite dns_example, dns_other by (intros [=]).
  cbn [list_to_set]. now rewrite !union_empty_r_L.
Qed.

Lemma resolve_other (d : string) :
  d <> "example.com" -> resolve_domain_ips dns d = ∅.
Proof.
  intros Hd. unfold resolve_domain_ips. rewrite resolve_subdomains.
  rewrite !dns_other by (intros [= H]; congruence).
  cbn [list_to_set]. now rewrite !union_empty_r_L.
Qed.

Lemma add_ip_example (r : restrictor) (base t6 : table) (rs : list rule) :
  add_ip_rule valid_ipv6 r (Firewall (<[chain_out r := rs]> base) t6)
              "93.184.216.34"
  = Firewall (<[chain_out r := rs ++ [accept_example]]> base) t6.
Proof.
  unfold add_ip_rule, version.
  change (valid_ipv4 "93.184.216.34") with true. cbv iota.
  now rewrite append_v4 by reflexivity.
Qed.

Lemma add_rules_for_other (r : restrictor) (fw : firewall) (d : string) :
  d <> "example.com" -> add_rules_for set_iter valid_ipv6 dns r fw d = fw.
Proof.
  intros Hd. unfold add_rules_for. rewrite (resolve_other d Hd).
  now rewrite decide_True.
Qed.

Lemma add_rules_for_example (r : restrictor) (base t6 : table) (rs : list rule) :
  add_rules_for set_iter valid_ipv6 dns r (Firewall (<[chain_out r := rs]> base) t6) "example.com"
  = Firewall (<[chain_out r := rs ++ [accept_example]]> base) t6.
Proof.
  unfold add_rules_for. rewrite resolve_example.
  rewrite decide_False by (apply non_empty_singleton_L).
  rewrite set_iter_singleton. cbn [foldl]. apply add_ip_example.
Qed.

Lemma add_domain_rules_example (r : restrictor) (deps : gset string)
    (base t6 : table) (rs : list rule) :
  add_domain_rules set_iter valid_ipv6 dns r ({[ "example.com" ]} ∪ deps)
                   (Firewall (<[chain_out r := rs]> base) t6)
  = Firewall (<[chain_out r := rs ++ [accept_example]]> base) t6.
Proof.
  unfold add_domain_rules.
  rewrite (foldl_unique (add_rules_for set_iter valid_ipv6 dns r) "example.com").
  - apply add_rules_for_example.
  - apply set_iter_nodup.
  - apply set_iter_elem, elem_of_union. left. now apply elem_of_singleton.
  - intros a y Hy. now apply add_rules_for_other.
Qed.

Lemma add_essential_cdns_example (r : restrictor) (fw : firewall) :
  add_essential_cdns set_iter valid_ipv6 dns r fw = fw.
Proof.
  unfold add_essential_cdns, add_domain_rules.
  apply foldl_noop. intros a y Hy. apply add_rules_for_other.
  apply essential_cdns_not_example.
  now apply set_iter_elem, elem_of_list_to_set in Hy.
Qed.
End Example.

Lemma finalize_rules_inv (r : restrictor) (base t6 : table) (rs : list rule)
    (fw' : firewall) :
  user_chain (chain_out r) ->
  finalize_rules r (Firewall (<[chain_out r := rs]> base) t6) = Some fw' ->
  ipv4 fw' !! chain_out r = Some (rs ++ [reject_rule]).
Proof.
  intros Hu. unfold finalize_rules.
  rewrite append_v4, bind_some by reflexivity. step_v6.
  rewrite run_command_v4. cbn [ipv4 ipv6].
  destruct (exec _ _) as [t|] eqn:E; [|discriminate].
  rewrite bind_some. step_v6. intros [= <-]. cbn [ipv4].
  apply exec_append_inv in E as (o & _ & ->).
  rewrite lookup_insert_ne by (symmetry; now apply user_chain_not_output).
  apply lookup_insert_eq.
Qed.

Lemma finalize_rules_ok (r : restrictor) (base t6 : table) (rs o : list rule) :
  user_chain (chain_out r) ->
  base !! "OUTPUT" = Some o ->
  is_Some (finalize_rules r (Firewall (<[chain_out r := rs]> base) t6)).
Proof.
  intros Hu Ho. unfold finalize_rules.
  rewrite append_v4, bind_some by reflexivity. step_v6.
  rewrite run_command_v4. cbn [ipv4 ipv6].
  rewrite (exec_append "OUTPUT" _ _ o).
  - rewrite bind_some. step_v6. eauto.
  - rewrite lookup_insert_ne by now apply user_chain_not_output. exact Ho.
  - unfold target_ok. rewrite jump_target_owner, lookup_insert_eq.
    rewrite (bool_decide_eq_true_2 (is_Some _)) by eauto.
    apply orb_true_r.
Qed.

Lemma create_chains_inv (r : restrictor) (fw fw' : firewall) :
  create_chains r fw = Some fw' ->
  exists base t6, fw' = Firewall (<[chain_out r := []]> base) t6.
Proof.
  unfold create_chains. rewrite !run_command_v4.
  destruct (exec _ (ipv4 fw)) as [t1|] eqn:E1; [|discriminate].
  rewrite bind_some, run_command_v4. cbn [ipv4 ipv6].
  destruct (exec _ t1) as [t2|] eqn:E2; [|discriminate].
  rewrite bind_some. repeat step_v6. intros [= <-].
  apply exec_new_inv in E2 as [_ ->]. eauto.
Qed.

Lemma exec_absent (op c : string) (spec : rule) (t : table) :
  op <> "-N" -> t !! c = None -> exec (op :: c :: spec) t = None.
Proof.
  intros Hop Hc. unfold exec. apply String.eqb_neq in Hop. rewrite Hop, Hc.
  repeat match goal with
         | |- context [String.eqb ?a ?b] => destruct (String.eqb a b)
         | |- context [match ?x with _ => _ end] => destruct x
         end; reflexivity.
Qed.

Lemma clear_existing_rules_clean (r : restrictor) (t t6 : table) :
  clean r t ->
  exists t6', clear_existing_rules r (Firewall t t6) = Some (Firewall t t6').
Proof.
  intros (Hin & Hout & Ho). unfold clear_existing_rules.
  rewrite run_command_v4. cbn [ipv4 ipv6].
  assert (exec ("-D" :: "OUTPUT" :: owner_jump r) t = None) as ->.
  { unfold exec.
    change (String.eqb "-D" "-N") with false.
    change (String.eqb "-D" "-F") with false.
    change (String.eqb "-D" "-X") with false.
    change (String.eqb "-D" "-A") with false.
    change (String.eqb "-D" "-I") with false.
    change (String.eqb "-D" "-D") with true. cbv iota. rewrite Ho.
    now rewrite bool_decide_eq_false_2 by apply not_elem_of_nil. }
  rewrite bind_some. cbn [foldl]. rewrite bind_some.
  repeat first
    [ step_v6
    | rewrite run_command_v4; cbn [ipv4 ipv6];
      rewrite exec_absent by (discriminate || assumption);
      rewrite ?bind_some ].
  eauto.
Qed.

Lemma create_chains_clean (r : restrictor) (t t6 : table) :
  clean r t -> chain_in r <> chain_out r ->
  exists t6', create_chains r (Firewall t t6)
              = Some (Firewall (<[chain_out r := []]> (<[chain_in r := []]> t)) t6').
Proof.
  intros (Hin & Hout & Ho) Hne. unfold create_chains.
  rewrite run_command_v4. cbn [ipv4 ipv6].
  assert (forall c (u : table), u !! c = None -> exec ["-N"; c] u = Some (<[c := []]> u)) as Hnew.
  { intros c u Hc. unfold exec.
    change (String.eqb "-N" "-N") with true. cbv iota. now rewrite Hc. }
  rewrite (Hnew _ _ Hin), bind_some, run_command_v4. cbn [ipv4 ipv6].
  rewrite Hnew by (now rewrite lookup_insert_ne).
  rewrite bind_some. repeat step_v6. eauto.
Qed.

(** C1: when restrictions are applied for a user whose whitelist is
    {"example.com"}, with resolution yielding exactly 93.184.216.34 for
    example.com and nothing for any other queried name, the rules of the
    user's output chain are, in order: accept established/related,
    accept loopback, accept DNS over UDP port 53, accept DNS over TCP
    port 53, accept destination 93.184.216.34, reject everything else.
    This holds whenever apply_restrictions returns, whatever the
    dependency set and the order in which sets are iterated, and it
    does return on tables that hold neither chain of the user and an
    empty OUTPUT chain. *)
Theorem apply_restrictions_rule_order
    (upper : string -> string) (set_iter : gset string -> list string)
    (valid_ipv6 : string -> bool) (dns : string -> rrtype -> list string)
    (user : string) (uid : nat) (deps : gset string) (fw : firewall) :
  (forall X, set_iter X ≡ₚ elements X) ->
  dns "example.com" A = ["93.184.216.34"] ->
  (forall name ty, (name, ty) <> ("example.com", A) -> dns name ty = []) ->
  let r := __init__ upper user uid in
  let result :=
    apply_restrictions set_iter valid_ipv6 dns r {[ "example.com" ]} deps fw in
  (forall fw', result = Some fw' ->
               ipv4 fw' !! chain_out r = Some expected_rules) /\
  (clean r (ipv4 fw) -> is_Some result).
Proof.
  intros Hperm Hex Hother r result. subst result.
  pose proof (chain_out_user upper user uid) as Hu. fold r in Hu.
  unfold apply_restrictions. split.
  - intros fw'.
    destruct (clear_existing_rules r fw) as [fw1|]; [|discriminate].
    rewrite bind_some.
    destruct (create_chains r fw1) as [fw2|] eqn:E2; [|discriminate].
    rewrite bind_some.
    apply create_chains_inv in E2 as (base & t6 & ->).
    destruct (setup_default_rules_spec r base t6 []) as [t6' ->].
    rewrite bind_some. cbv zeta.
    rewrite add_domain_rules_example, add_essential_cdns_example by assumption.
    intros H. now apply finalize_rules_inv in H.
  - intros Hc. destruct fw as [t t6]. cbn [ipv4] in Hc.
    destruct (clear_existing_rules_clean r t t6 Hc) as [t6a ->].
    rewrite bind_some.
    destruct (create_chains_clean r t t6a Hc (chain_in_out upper user uid))
      as [t6b ->].
    rewrite bind_some.
    destruct (setup_default_rules_spec r (<[chain_in r := []]> t) t6b [])
      as [t6c ->].
    rewrite bind_some. cbv zeta.
    rewrite add_domain_rules_example, add_essential_cdns_example by assumption.
    apply (finalize_rules_ok r _ _ _ []); [exact Hu|].
    rewrite lookup_insert_ne; [apply Hc|].
    apply user_chain_not_output, chain_in_user.
Qed.
Lemma example_dns_other (name : string) (ty : rrtype) :
  (name, ty) <> ("example.com", A) -> example_dns name ty = [].
Proof.
  intros H. unfold example_dns.
  destruct (String.eqb_spec name "example.com") as [->|_]; [|reflexivity].
  destruct ty; [congruence|reflexivity].
Qed.

(** The user alice with uid 1000 on tables that hold the built-in chains
    only. *)
Lemma apply_restrictions_rule_order_witness :
  exists fw',
    apply_restrictions elements (fun _ => false) example_dns
      (__init__ ascii_upper "alice" 1000) {[ "example.com" ]} ∅ fresh = Some fw' /\
    ipv4 fw' !! "CONTEST_ALICE_OUT" = Some expected_rules.
Proof.
  destruct (apply_restrictions_rule_order ascii_upper elements (fun _ => false)
              example_dns "alice" 1000 ∅ fresh
              (fun X => reflexivity _) eq_refl example_dns_other)
    as [Hrules Hsome].
  destruct Hsome as [fw' Hfw'].
  { repeat split; vm_compute; reflexivity. }
  exists fw'. split; [exact Hfw'|exact (Hrules fw' Hfw')].
Defined.

(** C2: after every sequence of apply-restrictions calls for one user the
    global OUTPUT chain holds exactly one jump binding the user's uid to
    the per-user output chain, in the IPv4 and in the IPv6 table.  The
    code deletes the old binding before it rebuilds only with iptables:
    clear_existing_rules has no ip6tables -D (remove_restrictions has
    one), so in the IPv6 table the chain stays referenced, survives -X,
    and every reapplication appends one more binding.  Starting from
    empty tables, one call leaves one binding in each table, two calls
    leave one in IPv4 and two in IPv6, three calls one and three. *)
Theorem reapply_duplicates_ipv6_binding :
  let r := __init__ ascii_upper "alice" 1000 in
  let run n :=
    reapply elements (fun _ => false) example_dns n r {[ "example.com" ]} ∅ fresh in
  bindings r <$> run 1%nat = Some (1%nat, 1%nat) /\
  bindings r <$> run 2%nat = Some (1%nat, 2%nat) /\
  bindings r <$> run 3%nat = Some (1%nat, 3%nat).
Proof. vm_compute. repeat split. Qed.

End FirewallFacts.

(* ================================================================== *)
(** * More about the whitelist file *)
(* ================================================================== *)

Section WhitelistMore.
Import PyStr ContestManager Statements WhitelistStatements.

Lemma lower_char_hash (c : ascii) : lower_char c = "#"%char -> c = "#"%char.
Proof. destruct c as [[] [] [] [] [] [] [] []]; vm_compute; congruence. Qed.

Lemma lower_char_lf (c : ascii) : lower_char c = "010"%char -> c = "010"%char.
Proof. destruct c as [[] [] [] [] [] [] [] []]; vm_compute; congruence. Qed.

Lemma lower_char_cr (c : ascii) : lower_char c = "013"%char -> c = "013"%char.
Proof. destruct c as [[] [] [] [] [] [] [] []]; vm_compute; congruence. Qed.

Lemma lower_char_dot (c : ascii) : lower_char c = "."%char -> c = "."%char.
Proof. destruct c as [[] [] [] [] [] [] [] []]; vm_compute; congruence. Qed.

Lemma startswith_hash_lower (s : string) :
  startswith "#" s = false -> startswith "#" (lower s) = false.
Proof.
  destruct s as [|c s]; [reflexivity|]. cbn [startswith lower].
  destruct (Ascii.eqb "#" c) eqn:E; [destruct s; discriminate|]. intros _.
  destruct (Ascii.eqb "#" (lower_char c)) eqn:E'; [|reflexivity].
  apply ascii_eqb_true in E'. symmetry in E'. apply lower_char_hash in E'.
  subst c. discriminate.
Qed.

(** ** The lines of a text file *)

Lemma universal_newlines_no_cr (s : string) :
  has_char "013"%char (universal_newlines s) = false.
Proof.
  induction s as [|c s IH]; [reflexivity|].
  cbn [universal_newlines]. destruct (Ascii.eqb c "013"%char) eqn:E.
  - destruct s as [|d s']; [reflexivity|].
    destruct (Ascii.eqb d "010"%char); [exact IH|].
    cbn [has_char]. change (Ascii.eqb "013" "010")%char with false. exact IH.
  - cbn [has_char]. rewrite Ascii.eqb_sym, E. exact IH.
Qed.

(** A line is a text without line feed, with or without one at its end. *)

Lemma has_char_cons_false (x c : ascii) (s : string) :
  has_char x (String c s) = false <-> Ascii.eqb x c = false /\ has_char x s = false.
Proof.
  cbn [has_char]. destruct (Ascii.eqb x c); [|tauto].
  split; [discriminate|intros [? _]; discriminate].
Qed.

Lemma split_lines_shape (s line : string) :
  line ∈ split_lines s ->
  exists body, line_of body line /\
               forall c, has_char c s = false -> has_char c body = false.
Proof.
  revert line. induction s as [|c s IH]; intros line; cbn [split_lines].
  - intros H. now apply elem_of_nil in H.
  - destruct (Ascii.eqb c "010"%char) eqn:E.
    + intros H. apply elem_of_cons in H as [->|H].
      * apply ascii_eqb_true in E. subst c. exists "". split.
        -- split; [reflexivity|]. now right.
        -- reflexivity.
      * destruct (IH line H) as (b & Hb & Hc). exists b. split; [exact Hb|].
        intros x Hx. apply Hc. now apply has_char_cons_false in Hx.
    + rewrite Ascii.eqb_sym in E. destruct (split_lines s) as [|l ls] eqn:Es.
      * intros H. apply list_elem_of_singleton in H. subst line.
        exists (String c ""). split.
        -- split; [|now left]. now apply has_char_cons_false.
        -- intros x Hx. apply has_char_cons_false in Hx as [Hx _].
           now apply has_char_cons_false.
      * intros H. apply elem_of_cons in H as [->|H].
        -- destruct (IH l) as (b & [Hb Hl] & Hc); [now left|].
           exists (String c b). split.
           ++ split; [now apply has_char_cons_false|].
              destruct Hl as [->| ->]; [now left|now right].
           ++ intros x Hx. apply has_char_cons_false in Hx as [Hx Hs].
              apply has_char_cons_false. split; [exact Hx|now apply Hc].
        -- destruct (IH line) as (b & Hb & Hc); [now right|].
           exists b. split; [exact Hb|]. intros x Hx. apply Hc.
           now apply has_char_cons_false in Hx.
Qed.

Lemma file_lines_shape (content line : string) :
  line ∈ file_lines content ->
  exists body, line_of body line /\ has_char "013"%char body = false.
Proof.
  intros H. apply split_lines_shape in H as (b & Hb & Hc).
  exists b. split; [exact Hb|]. apply Hc, universal_newlines_no_cr.
Qed.

Lemma strip_line (body line : string) :
  line_of body line -> strip line = strip body.
Proof.
  intros [_ [->| ->]]; [reflexivity|].
  unfold strip, nl. now rewrite rstrip_app_space.
Qed.

(** What a data line holds: trimmed, not empty, not a comment, free of
    line breaks. *)

Lemma data_line_entry (content line d : string) :
  line ∈ file_lines content -> data_line line = Some d -> entry d.
Proof.
  intros Hl. apply file_lines_shape in Hl as (b & Hb & Hcr).
  unfold data_line. rewrite (strip_line b line Hb).
  destruct (String.eqb (strip b) "") eqn:E; [discriminate|].
  destruct (startswith "#" (strip b)) eqn:Eh; [discriminate|].
  cbn. intros [= <-]. repeat split.
  - apply strip_idem.
  - now apply String.eqb_neq.
  - exact Eh.
  - apply has_char_strip, Hb.
  - now apply has_char_strip.
Qed.

Lemma entry_lower_storable (d : string) : entry d -> storable (lower d).
Proof.
  intros (Hs & Hne & Hh & Hn & Hr). repeat split.
  - apply lower_idem.
  - now rewrite <- lower_strip, Hs.
  - intros H. now apply lower_nil_inv in H.
  - now apply startswith_hash_lower.
  - apply has_char_lower; [exact lower_char_lf|exact Hn].
  - apply has_char_lower; [exact lower_char_cr|exact Hr].
Qed.

Lemma read_lines_elem (lines : list string) (acc : gset string) (d : string) :
  d ∈ foldl read_line acc lines <->
  d ∈ acc \/ exists line e, line ∈ lines /\ data_line line = Some e /\ d = lower e.
Proof.
  revert acc. induction lines as [|l lines IH]; intros acc; cbn [foldl].
  - split; [now left|]. intros [H|(line & e & H & _)]; [exact H|].
    now apply elem_of_nil in H.
  - rewrite IH. unfold read_line. split.
    + intros [H|(line & e & Hl & He & ->)].
      * destruct (data_line l) as [e|] eqn:E; [|now left].
        apply elem_of_union in H as [H|H]; [now left|].
        apply elem_of_singleton in H. right. exists l, e.
        split; [now left|]. now split.
      * right. exists line, e. split; [now right|]. now split.
    + intros [H|(line & e & Hl & He & ->)].
      * left. destruct (data_line l); [|exact H]. apply elem_of_union. now left.
      * apply elem_of_cons in Hl as [->|Hl].
        -- left. rewrite He. apply elem_of_union. right. now apply elem_of_singleton.
        -- right. exists line, e. now repeat split.
Qed.

Lemma load_whitelist_elem (w : world) (d : string) :
  d ∈ load_whitelist w <->
  exists content line e,
    whitelist_file w = Some content /\ line ∈ file_lines content /\
    data_line line = Some e /\ d = lower e.
Proof.
  unfold load_whitelist. destruct (whitelist_file w) as [content|].
  - rewrite read_lines_elem. split.
    + intros [H|(line & e & H)]; [now apply not_elem_of_empty in H|].
      exists content, line, e. now split.
    + intros (c & line & e & [= <-] & H). right. now exists line, e.
  - split; [intros H; now apply not_elem_of_empty in H|].
    intros (c & line & e & H & _). discriminate.
Qed.

Lemma loaded_storable (w : world) (d : string) :
  d ∈ load_whitelist w -> storable d.
Proof.
  intros H. apply load_whitelist_elem in H as (c & line & e & _ & Hl & He & ->).
  eapply entry_lower_storable, data_line_entry; eauto.
Qed.

(** X1: whatever the whitelist file holds, every domain that
    load_whitelist returns is lowercase, trimmed, not empty, does not
    start with '#' and contains no line break: it is a domain the file
    can hold on one line. *)
Theorem loaded_domains_storable (w : world) (d : string) :
  d ∈ load_whitelist w -> storable d.
Proof.
  intros H. apply load_whitelist_elem in H as (c & line & e & _ & Hl & He & ->).
  eapply entry_lower_storable, data_line_entry; eauto.
Qed.

Lemma load_after_save (X : gset string) (w : world) :
  writable w = true -> (forall d, d ∈ X -> storable d) ->
  (save_whitelist X w).1 = true /\ load_whitelist (save_whitelist X w).2 = X.
Proof.
  intros Hw HX. unfold save_whitelist. rewrite Hw. cbn [fst snd].
  split; [reflexivity|now apply load_saved].
Qed.

(** X2: loading a whitelist file, saving the loaded set and loading
    again returns the same set of domains, for every content of the file
    (comments, blank lines, upper case and duplicates included), in a
    writable directory. *)
Theorem load_save_load (w : world) :
  writable w = true ->
  load_whitelist (save_whitelist (load_whitelist w) w).2 = load_whitelist w.
Proof.
  intros Hw. apply load_after_save; [exact Hw|].
  intros d. apply loaded_storable.
Qed.

(** ** The shape of a normalized domain *)

(** A non-empty result of the normalizer: lowercase, trimmed, with a dot,
    without "/" and ":". *)

Lemma normalize_core_lower (x : string) :
  lower (normalize_core x) = normalize_core x.
Proof. unfold normalize_core. now rewrite lower_strip, lower_idem. Qed.

Lemma normalize_core_strip (x : string) :
  strip (normalize_core x) = normalize_core x.
Proof. unfold normalize_core. apply strip_idem. Qed.

Lemma normalize_core_id (d : string) :
  lower d = d -> strip d = d ->
  has_char "/"%char d = false -> has_char ":"%char d = false ->
  normalize_core d = d.
Proof.
  intros Hl Hs Hsl Hc. unfold normalize_core.
  rewrite (replace_id "/"%char "http://" "" _ eq_refl Hsl).
  rewrite (replace_id "/"%char "https://" "" _ eq_refl Hsl).
  rewrite (split_head_id _ _ Hsl), (split_head_id _ _ Hc). now rewrite Hl.
Qed.

Lemma has_char_nonempty (c : ascii) (d : string) :
  has_char c d = true -> d <> "".
Proof. intros H ->. discriminate. Qed.

Lemma normalize_domain_normal (x : string) :
  _normalize_domain x <> "" -> normal (_normalize_domain x).
Proof.
  intros Hne. destruct (normalize_result x) as [E|(E & Hdot & _)]; [contradiction|].
  rewrite E. repeat split.
  - apply normalize_core_lower.
  - apply normalize_core_strip.
  - exact Hdot.
  - apply normalize_core_no_slash.
  - apply normalize_core_no_colon.
Qed.

(** X3: the result of _normalize_domain is either empty (the input is
    rejected) or a lowercase, trimmed name with a dot and without '/'
    and ':'. *)
Theorem normalize_domain_shape (x : string) :
  _normalize_domain x = "" \/ normal (_normalize_domain x).
Proof.
  destruct (String.eqb_spec (_normalize_domain x) "") as [E|E]; [now left|].
  right. now apply normalize_domain_normal.
Qed.

(** X4: _normalize_domain returns its argument unchanged exactly for
    the empty string and for the lowercase, trimmed names that contain a
    dot and neither '/' nor ':'. *)
Theorem normalize_domain_fixed_iff (d : string) :
  _normalize_domain d = d <-> d = "" \/ normal d.
Proof.
  split.
  - intros H. rewrite <- H.
    destruct (String.eqb_spec (_normalize_domain d) "") as [E|E]; [now left|].
    right. now apply normalize_domain_normal.
  - intros [->|(Hl & Hs & Hdot & Hsl & Hc)]; [reflexivity|].
    rewrite normalize_unfold, (normalize_core_id d Hl Hs Hsl Hc), Hdot.
    pose proof (has_char_nonempty _ _ Hdot) as Hne.
    apply String.eqb_neq in Hne. now rewrite Hne.
Qed.

Lemma normalized_storable (x : string) :
  _normalize_domain x <> "" ->
  startswith "#" (_normalize_domain x) = false ->
  has_char "010"%char (_normalize_domain x) = false ->
  has_char "013"%char (_normalize_domain x) = false ->
  storable (_normalize_domain x).
Proof.
  intros Hne Hh Hn Hr.
  destruct (normalize_domain_normal x Hne) as (Hl & Hs & _).
  repeat split; assumption.
Qed.

(** ** Adding and removing *)

Lemma save_whitelist_writable (X : gset string) (w : world) :
  writable w = true ->
  save_whitelist X w = (true, write_whitelist (whitelist_text X) w).
Proof. intros Hw. unfold save_whitelist. now rewrite Hw. Qed.


Lemma add_domain_loaded (x : string) (w : world) :
  writable w = true ->
  _normalize_domain x <> "" ->
  startswith "#" (_normalize_domain x) = false ->
  has_char "010"%char (_normalize_domain x) = false ->
  has_char "013"%char (_normalize_domain x) = false ->
  load_whitelist (add_domain x w).2 = load_whitelist w ∪ {[ _normalize_domain x ]}.
Proof.
  intros Hw Hne Hh Hn Hr.
  pose proof (normalized_storable x Hne Hh Hn Hr) as Hst.
  unfold add_domain. apply String.eqb_neq in Hne. rewrite Hne.
  destruct (decide (_normalize_domain x ∈ load_whitelist w)) as [Hin|Hin].
  - cbn [snd]. rewrite load_whitelist_say.
    apply set_eq. intros d. rewrite elem_of_union, elem_of_singleton.
    split; [now left|]. intros [H| ->]; assumption.
  - rewrite save_whitelist_writable by exact Hw.
    cbn [snd]. rewrite !load_whitelist_say. apply load_saved.
    intros d Hd. apply elem_of_union in Hd as [Hd|Hd].
    + now apply loaded_storable in Hd.
    + apply elem_of_singleton in Hd. now subst d.
Qed.

(** X5: in a writable directory, add_domain of an input whose
    normalized form is not empty, does not start with '#' and has no
    line break returns True, and the whitelist read back from the file
    is the old one together with the normalized domain. *)
Theorem add_domain_lists (x : string) (w : world) :
  writable w = true ->
  _normalize_domain x <> "" ->
  startswith "#" (_normalize_domain x) = false ->
  has_char "010"%char (_normalize_domain x) = false ->
  has_char "013"%char (_normalize_domain x) = false ->
  (add_domain x w).1 = true /\
  load_whitelist (add_domain x w).2 = load_whitelist w ∪ {[ _normalize_domain x ]}.
Proof.
  intros Hw Hne Hh Hn Hr. split; [|now apply add_domain_loaded].
  unfold add_domain. apply String.eqb_neq in Hne. rewrite Hne.
  destruct (decide (_normalize_domain x ∈ load_whitelist w)); [reflexivity|].
  now rewrite save_whitelist_writable by exact Hw.
Qed.


Lemma remove_domain_loaded (x : string) (w : world) :
  writable w = true ->
  _normalize_domain x <> "" ->
  load_whitelist (remove_domain x w).2
    = load_whitelist w ∖ {[ _normalize_domain x ]}.
Proof.
  intros Hw Hne. unfold remove_domain. apply String.eqb_neq in Hne. rewrite Hne.
  destruct (decide (_normalize_domain x ∈ load_whitelist w)) as [Hin|Hin].
  - rewrite save_whitelist_writable by exact Hw.
    cbn [snd]. rewrite !load_whitelist_say. apply load_saved.
    intros d Hd. apply elem_of_difference in Hd as [Hd _].
    now apply loaded_storable in Hd.
  - cbn [snd]. rewrite load_whitelist_say.
    apply set_eq. intros d. rewrite elem_of_difference, elem_of_singleton.
    split; [|tauto]. intros H. split; [exact H|]. intros ->. contradiction.
Qed.

(** X7: in a writable directory, remove_domain of an input with a
    non-empty normalized form returns True, and the whitelist read back
    from the file is the old one without that domain (the same set when
    the domain was not listed). *)
Theorem remove_domain_unlists (x : string) (w : world) :
  writable w = true ->
  _normalize_domain x <> "" ->
  (remove_domain x w).1 = true /\
  load_whitelist (remove_domain x w).2
    = load_whitelist w ∖ {[ _normalize_domain x ]}.
Proof.
  intros Hw Hne. split; [|now apply remove_domain_loaded].
  unfold remove_domain. apply String.eqb_neq in Hne. rewrite Hne.
  destruct (decide (_normalize_domain x ∈ load_whitelist w)); [|reflexivity].
  now rewrite save_whitelist_writable by exact Hw.
Qed.



(** X10: add_domain returns True exactly when the normalized input is
    not empty and the domain is already listed or the file can be
    written; remove_domain returns True exactly when the normalized
    input is not empty and the domain is not listed or the file can be
    written.  A call that has nothing to change (the input is rejected,
    the domain to add is listed already, the domain to remove is not
    listed) never opens the file: the files are left as they are. *)
Theorem add_remove_result (x : string) (w : world) :
  ((add_domain x w).1 = true <->
   _normalize_domain x <> "" /\
   (_normalize_domain x ∈ load_whitelist w \/ writable w = true)) /\
  ((remove_domain x w).1 = true <->
   _normalize_domain x <> "" /\
   (_normalize_domain x ∉ load_whitelist w \/ writable w = true)) /\
  (_normalize_domain x = "" \/ _normalize_domain x ∈ load_whitelist w ->
   files (add_domain x w).2 = files w) /\
  (_normalize_domain x = "" \/ _normalize_domain x ∉ load_whitelist w ->
   files (remove_domain x w).2 = files w).
Proof.
  unfold add_domain, remove_domain.
  destruct (String.eqb_spec (_normalize_domain x) "") as [E|E].
  - cbn. repeat split; try discriminate; try tauto; intros [? _]; contradiction.
  - destruct (decide (_normalize_domain x ∈ load_whitelist w)) as [Hin|Hin].
    + unfold save_whitelist. destruct (writable w) eqn:Hw; cbn;
        repeat split; try discriminate; try tauto; intuition discriminate.
    + unfold save_whitelist. destruct (writable w) eqn:Hw; cbn;
        repeat split; try discriminate; try tauto; intuition discriminate.
Qed.

(** ** Seeding the whitelist from the bundled default file *)

Lemma read_lines_omap (lines : list string) (acc : gset string) :
  foldl read_line acc lines
  = acc ∪ list_to_set (lower <$> omap data_line lines).
Proof.
  revert acc. induction lines as [|l lines IH]; intros acc.
  - cbn. now rewrite union_empty_r_L.
  - cbn [foldl]. rewrite IH. unfold read_line. cbn [omap list_omap].
    destruct (data_line l) as [e|]; [|reflexivity].
    cbn [fmap list_fmap list_to_set]. symmetry. apply (assoc_L (∪)).
Qed.

Lemma data_line_of_entry (d : string) : entry d -> data_line (d +:+ nl) = Some d.
Proof.
  intros (Hs & Hne & Hc & _). unfold data_line.
  assert (strip (d +:+ nl) = d) as ->.
  { unfold strip, nl. rewrite rstrip_app_space by reflexivity. exact Hs. }
  apply String.eqb_neq in Hne. now rewrite Hne, Hc.
Qed.

Lemma omap_data_line_entries (l : list string) :
  Forall entry l -> omap data_line ((fun d => d +:+ nl) <$> l) = l.
Proof.
  induction 1 as [|d l Hd Hl IH]; [reflexivity|].
  cbn [fmap list_fmap omap list_omap]. rewrite (data_line_of_entry d Hd).
  f_equal. exact IH.
Qed.

Lemma seed_body (lines : list string) (acc : string) :
  foldl (fun acc line =>
           match data_line line with
           | Some line => acc +:+ line +:+ nl
           | None => acc
           end) acc lines
  = acc +:+ lines_text (omap data_line lines).
Proof.
  revert acc. induction lines as [|l lines IH]; intros acc.
  - cbn. now rewrite string_app_nil_r.
  - cbn [foldl]. rewrite IH. cbn [omap list_omap].
    destruct (data_line l) as [e|]; [|reflexivity].
    cbn [lines_text]. now rewrite !string_app_assoc.
Qed.

Lemma omap_data_line_all_entries (content : string) :
  Forall entry (omap data_line (file_lines content)).
Proof.
  apply Forall_forall. intros d Hd.
  apply list_elem_of_omap in Hd as (line & Hl & He).
  eapply data_line_entry; eauto.
Qed.

Lemma domains_of_entries (l : list string) :
  Forall entry l ->
  domains_of_text (header +:+ lines_text l) = list_to_set (lower <$> l).
Proof.
  intros Hl. unfold domains_of_text. rewrite file_lines_whitelist.
  - rewrite read_lines_omap, omap_app.
    change (omap data_line header_lines) with (@nil string).
    rewrite app_nil_l, omap_data_line_entries by exact Hl.
    apply union_empty_l_L.
  - eapply Forall_impl; [exact Hl|]. intros d Hd. apply Hd.
  - eapply Forall_impl; [exact Hl|]. intros d Hd. apply Hd.
Qed.

(** X11: when the whitelist file is missing, the constructor seeds it:
    afterwards load_whitelist returns exactly the domains of the bundled
    default file (lowercased, comments and blank lines dropped), the
    empty set when there is no default file, and the empty set when the
    directory is not writable. *)
Theorem default_whitelist_seeded (w : world) :
  whitelist_file w = None ->
  load_whitelist (__init__ w) =
    if writable w then from_option domains_of_text ∅ (default_whitelist w)
    else ∅.
Proof.
  intros Hnone. unfold __init__, _create_default_whitelist. rewrite Hnone.
  destruct (writable w); [|unfold load_whitelist; cbn; now rewrite Hnone].
  rewrite load_whitelist_say. unfold load_whitelist. cbn [whitelist_file write_whitelist].
  destruct (default_whitelist w) as [src|]; cbn [from_option].
  - rewrite seed_body, string_app_nil_l.
    change (foldl read_line ∅ (file_lines (header +:+
              lines_text (omap data_line (file_lines src)))))
      with (domains_of_text (header +:+ lines_text (omap data_line (file_lines src)))).
    rewrite domains_of_entries by apply omap_data_line_all_entries.
    unfold domains_of_text. rewrite read_lines_omap. now rewrite union_empty_l_L.
  - rewrite string_app_nil_r. reflexivity.
Qed.
End WhitelistMore.

(* ================================================================== *)
(** * More about the classifier and the analysis of a file *)
(* ================================================================== *)

Section ClassifierMore.
Import PyStr DependencyAnalyzer Statements.

Lemma contains_any_false (keywords : list string) (s k : string) :
  contains_any keywords s = false -> k ∈ keywords -> contains k s = false.
Proof.
  intros H Hk. destruct (contains k s) eqn:E; [|reflexivity].
  assert (contains_any keywords s = true) as H'
    by (apply contains_any_spec; eauto).
  congruence.
Qed.

Lemma elem_of_list_dec (k : string) (l : list string) :
  bool_decide (k ∈ l) = true -> k ∈ l.
Proof. apply bool_decide_eq_true_1. Qed.

(** X12: filter_dependencies keeps a host exactly when it matches no
    blocked keyword and either matches an essential keyword or ends in
    .net or .io and contains "microsoft" or "akamai"; the list of CDN
    patterns and the other names of the common CDN list never decide. *)
Theorem classify_essential_iff (dep : string) :
  classify dep = Essential <->
  is_blocked dep = false /\
  (is_essential dep = true \/
   ((endswith ".net" dep || endswith ".io" dep) = true /\
    (contains "microsoft" (lower dep) || contains "akamai" (lower dep)) = true)).
Proof.
  unfold classify. destruct (is_blocked dep) eqn:Hb.
  { split; [discriminate|]. intros [? _]. discriminate. }
  pose proof (is_cdn_is_essential dep) as Hcdn.
  destruct (is_essential dep) eqn:He.
  { cbn. split; [intros _|reflexivity]. split; [reflexivity|now left]. }
  destruct (is_cdn dep); [now specialize (Hcdn eq_refl)|].
  assert (is_common_cdn dep =
          (endswith ".net" dep || endswith ".io" dep)
          && (contains "microsoft" (lower dep) || contains "akamai" (lower dep)))
    as ->.
  { unfold is_common_cdn. f_equal. unfold contains_any, common_cdns.
    cbn [existsb].
    rewrite (contains_any_false essential_keywords (lower dep) "cloudflare" He)
      by (apply elem_of_list_dec; reflexivity).
    rewrite (contains_any_false essential_keywords (lower dep) "fastly" He)
      by (apply elem_of_list_dec; reflexivity).
    rewrite (contains_any_false blocked_keywords (lower dep) "amazon" Hb)
      by (apply elem_of_list_dec; reflexivity).
    cbn. now rewrite orb_false_r. }
  cbn [orb].
  destruct ((endswith ".net" dep || endswith ".io" dep)
            && (contains "microsoft" (lower dep) || contains "akamai" (lower dep)))
    eqn:E.
  - split; [intros _|reflexivity]. split; [reflexivity|]. right.
    now apply andb_true_iff in E.
  - split; [discriminate|]. intros [_ [H|[H1 H2]]]; [discriminate|].
    rewrite H1, H2 in E. discriminate.
Qed.
End ClassifierMore.

Section FileFacts.
Import PyStr ContestManager DependencyAnalyzer DependencyAnalyzerFile Statements
       WhitelistStatements.

Lemma startswith_hash_app (d t : string) :
  d <> "" -> startswith "#" (d +:+ t) = startswith "#" d.
Proof. destruct d as [|c d]; [contradiction|]. intros _. reflexivity. Qed.

Lemma selected_stored (d : string) :
  storable d -> selected_line (d +:+ nl) = Some d.
Proof.
  intros (_ & Hs & Hne & Hc & _). unfold selected_line.
  assert (strip (d +:+ nl) = d) as ->.
  { unfold strip, nl. rewrite rstrip_app_space by reflexivity. exact Hs. }
  rewrite (startswith_hash_app d nl Hne), Hc.
  apply String.eqb_neq in Hne. now rewrite Hne.
Qed.

Lemma omap_selected_stored (l : list string) :
  Forall storable l -> omap selected_line ((fun d => d +:+ nl) <$> l) = l.
Proof.
  induction 1 as [|d l Hd Hl IH]; [reflexivity|].
  cbn [fmap list_fmap omap list_omap]. rewrite (selected_stored d Hd).
  f_equal. exact IH.
Qed.

Lemma clean_domain_id (d : string) :
  has_char "/"%char d = false -> clean_domain d = d.
Proof.
  intros H. unfold clean_domain.
  rewrite (replace_id "/"%char "http://" "" _ eq_refl H).
  rewrite (replace_id "/"%char "https://" "" _ eq_refl H).
  now apply split_head_id.
Qed.

Section Crawl.
Variable netloc_of : string -> option string.
Variable capture : string -> option (list (option string)).

Lemma analyze_fold_elem (l : list string) (acc : gset string) (dep : string) :
  dep ∈ foldl (fun (dependencies : gset string) domain =>
                 let domain := clean_domain domain in
                 dependencies ∪ analyze_domain netloc_of domain (capture domain))
              acc l
  <-> dep ∈ acc \/
      exists d, d ∈ l /\
        dep ∈ analyze_domain netloc_of (clean_domain d) (capture (clean_domain d)).
Proof.
  revert acc. induction l as [|a l IH]; intros acc; cbn [foldl].
  - split; [now left|]. intros [H|(d & H & _)]; [exact H|].
    now apply elem_of_nil in H.
  - rewrite IH. cbv zeta. rewrite elem_of_union. split.
    + intros [[H|H]|(d & Hd & H)]; [now left| |].
      * right. exists a. split; [now left|exact H].
      * right. exists d. split; [now right|exact H].
    + intros [H|(d & Hd & H)]; [now left; left|].
      apply elem_of_cons in Hd as [->|Hd]; [now left; right|].
      right. now exists d.
Qed.

(** X13: analyze_domains_from_file run on a whitelist file written by
    save_whitelist (domains that the file can hold and that have no '/')
    returns exactly the union of analyze_domain over the saved domains:
    the header is skipped and no domain is altered by the clean-up. *)
Theorem analyze_saved_whitelist (X : gset string) (w : world) (dep : string) :
  writable w = true ->
  (forall d, d ∈ X -> storable d /\ has_char "/"%char d = false) ->
  dep ∈ analyze_domains_from_file netloc_of capture
          (whitelist_file (save_whitelist X w).2)
  <-> exists d, d ∈ X /\ dep ∈ analyze_domain netloc_of d (capture d).
Proof.
  intros Hw HX. rewrite save_whitelist_writable by exact Hw.
  cbn [snd whitelist_file write_whitelist]. unfold analyze_domains_from_file.
  assert (Forall storable (sorted X)) as Hall.
  { apply Forall_forall. intros d Hd. now apply HX, sorted_elem_of. }
  rewrite whitelist_text_unfold, file_lines_whitelist.
  2:{ eapply Forall_impl; [exact Hall|]. intros d Hd. apply Hd. }
  2:{ eapply Forall_impl; [exact Hall|]. intros d Hd. apply Hd. }
  cbv zeta. rewrite omap_app.
  change (omap selected_line header_lines) with (@nil string).
  rewrite app_nil_l, omap_selected_stored by exact Hall.
  rewrite analyze_fold_elem. split.
  - intros [H|(d & Hd & H)]; [now apply not_elem_of_empty in H|].
    apply sorted_elem_of in Hd. exists d. split; [exact Hd|].
    now rewrite clean_domain_id in H by apply HX, Hd.
  - intros (d & Hd & H). right. exists d. split; [now apply sorted_elem_of|].
    now rewrite clean_domain_id by apply HX, Hd.
Qed.
End Crawl.

(** X14: the line filter of analyze_domains_from_file tests for '#'
    before it strips the line, the one of the manager after: a line is a
    domain for the manager exactly when it is one, with the same text,
    for the analyzer and the text does not start with '#'. *)
Theorem selected_line_data_line (line d : string) :
  data_line line = Some d <->
  selected_line line = Some d /\ startswith "#" d = false.
Proof.
  unfold data_line, selected_line.
  destruct (String.eqb (strip line) "") eqn:E.
  { cbn [negb andb]. split; [discriminate|]. intros [H _]. discriminate. }
  cbn [negb andb]. split.
  - destruct (startswith "#" (strip line)) eqn:Eh; [discriminate|].
    cbn [negb]. intros H. injection H as <-. split; [|exact Eh].
    destruct (startswith "#" line) eqn:Er; [|reflexivity].
    exfalso. destruct line as [|c line]; [discriminate|].
    cbn [startswith] in Er. destruct (Ascii.eqb "#" c) eqn:Ec; [|discriminate].
    apply ascii_eqb_true in Ec. subst c.
    unfold strip in Eh. cbn [rstrip] in Eh.
    destruct (rstrip line); discriminate.
  - intros [H Hd]. destruct (startswith "#" line); [discriminate|].
    injection H as <-. now rewrite Hd.
Qed.
End FileFacts.

(* ================================================================== *)
(** * The restrict script: whitelist and dependency cache *)
(* ================================================================== *)

Section ScriptFacts.
Import PyStr ContestManager ContestRestrictor Statements WhitelistStatements
       RestrictScript.

Lemma site_line_of_entry (d : string) : entry d -> site_line (d +:+ nl) = Some d.
Proof.
  intros (Hs & Hne & Hc & _). unfold site_line.
  assert (strip (d +:+ nl) = d) as ->.
  { unfold strip, nl. rewrite rstrip_app_space by reflexivity. exact Hs. }
  apply String.eqb_neq in Hne. rewrite Hne.
  destruct d as [|c d]; [discriminate|].
  rewrite string_app_cons. cbn [startswith] in Hc |- *. now rewrite Hc.
Qed.

Lemma omap_site_line_entries (l : list string) :
  Forall entry l -> omap site_line ((fun d => d +:+ nl) <$> l) = l.
Proof.
  induction 1 as [|d l Hd Hl IH]; [reflexivity|].
  cbn [fmap list_fmap omap list_omap]. rewrite (site_line_of_entry d Hd).
  f_equal. exact IH.
Qed.

(** X15: load_whitelist of scripts/restrict.py, run on a file written
    by save_whitelist of the manager for domains that fit on a line,
    returns True and sets whitelisted_sites to exactly the saved set. *)
Theorem script_loads_saved_whitelist (whitelist_path : string)
    (X sites : gset string) (w : world) :
  writable w = true -> (forall d, d ∈ X -> entry d) ->
  (RestrictScript.load_whitelist whitelist_path sites (save_whitelist X w).2).1
  = (true, X).
Proof.
  intros Hw HX. rewrite save_whitelist_writable by exact Hw. cbn [snd].
  unfold RestrictScript.load_whitelist. cbn [whitelist_file write_whitelist fst].
  assert (Forall entry (sorted X)) as Hall.
  { apply Forall_forall. intros d Hd. now apply HX, sorted_elem_of. }
  rewrite whitelist_text_unfold, file_lines_whitelist.
  2:{ eapply Forall_impl; [exact Hall|]. intros d Hd. apply Hd. }
  2:{ eapply Forall_impl; [exact Hall|]. intros d Hd. apply Hd. }
  rewrite omap_app.
  change (omap site_line header_lines) with (@nil string).
  change (map (fun d => d +:+ nl) (sorted X)) with ((fun d => d +:+ nl) <$> sorted X).
  rewrite omap_site_line_entries by exact Hall. cbn [app].
  now rewrite list_to_set_sorted.
Qed.

Section Scripts.
Variable set_iter : gset string -> list string.
Hypothesis set_iter_elements : forall X, set_iter X ≡ₚ elements X.

Lemma list_to_set_iter (X : gset string) : list_to_set (set_iter X) = X.
Proof.
  apply set_eq. intros d. rewrite elem_of_list_to_set, set_iter_elements.
  apply elem_of_elements.
Qed.

Lemma sites_iter_NoDup (X : gset string) : NoDup (set_iter X).
Proof. rewrite set_iter_elements. apply NoDup_elements. Qed.

Lemma sites_iter_elem (X : gset string) (d : string) : d ∈ set_iter X <-> d ∈ X.
Proof. rewrite set_iter_elements. apply elem_of_elements. Qed.

Section Analyzer.
Variable analyze_site : string -> option (gset string).

(** One site: its entry after the step is what the step added to the
    dependencies. *)
Lemma analyze_one_entry (force : bool) cache all w site :
  exists l,
    (analyze_one set_iter analyze_site force (cache, all, w) site).1.1 !! site
    = Some l /\
    (analyze_one set_iter analyze_site force (cache, all, w) site).1.2
    = all ∪ list_to_set l.
Proof.
  unfold analyze_one.
  destruct (cache !! site) as [cached|] eqn:E, force; cbn [fst snd].
  2:{ exists cached. now rewrite E. }
  all: destruct (analyze_site site) as [deps|]; cbn [fst snd];
    rewrite lookup_insert_eq; eexists; (split; [reflexivity|]);
    rewrite ?list_to_set_iter; cbn [list_to_set]; rewrite ?union_empty_r_L; reflexivity.
Qed.

Lemma analyze_one_other (force : bool) cache all w site d :
  d <> site ->
  (analyze_one set_iter analyze_site force (cache, all, w) site).1.1 !! d
  = cache !! d.
Proof.
  intros Hd. unfold analyze_one.
  destruct (cache !! site), force, (analyze_site site); cbn [fst snd];
    rewrite ?lookup_insert_ne by congruence; reflexivity.
Qed.

Lemma analyze_fold_other (force : bool) (l : list string) d :
  d ∉ l ->
  forall acc,
    (foldl (analyze_one set_iter analyze_site force) acc l).1.1 !! d
    = acc.1.1 !! d.
Proof.
  induction l as [|s l IH]; intros Hd [[cache all] w]; [reflexivity|].
  cbn [foldl]. apply not_elem_of_cons in Hd as [Hs Hd].
  rewrite IH by exact Hd.
  destruct (analyze_one _ _ _ _ s) as [[c1 a1] w1] eqn:E. cbn [fst snd].
  pose proof (analyze_one_other force cache all w s d Hs) as H.
  now rewrite E in H.
Qed.

(** The dependencies of a run are the entries of its sites, as the cache
    stands after the run. *)
Lemma analyze_fold_result (force : bool) (l : list string) :
  NoDup l ->
  forall acc d,
    d ∈ (foldl (analyze_one set_iter analyze_site force) acc l).1.2 <->
    d ∈ acc.1.2 \/
    exists s deps,
      s ∈ l /\
      (foldl (analyze_one set_iter analyze_site force) acc l).1.1 !! s = Some deps /\
      d ∈ deps.
Proof.
  induction 1 as [|s l Hs Hl IH]; intros [[cache all] w] d.
  - cbn. split; [now left|]. intros [H|(s & deps & H & _)]; [exact H|].
    now apply elem_of_nil in H.
  - cbn [foldl]. rewrite IH.
    destruct (analyze_one_entry force cache all w s) as (deps0 & Hentry & Hall).
    pose proof (analyze_fold_other force l s Hs
                  (analyze_one set_iter analyze_site force (cache, all, w) s)) as Hkeep.
    rewrite Hentry in Hkeep. rewrite Hall, elem_of_union, elem_of_list_to_set.
    cbn [fst snd]. split.
    + intros [[H|H]|(s' & deps & Hin & Hlook & Hd)].
      * now left.
      * right. exists s, deps0. split; [now left|]. auto.
      * right. exists s', deps. split; [now right|]. auto.
    + intros [H|(s' & deps & Hin & Hlook & Hd)]; [now left; left|].
      apply elem_of_cons in Hin as [->|Hin].
      * rewrite Hkeep in Hlook. injection Hlook as <-. now left; right.
      * right. exists s', deps. auto.
Qed.

End Analyzer.

Lemma load_dependency_cache_fst (w : world) :
  (load_dependency_cache w).1 = load_dependencies w.
Proof.
  unfold load_dependency_cache, load_dependencies. now destruct (cache_file w).
Qed.

Lemma load_dependency_cache_writable (w : world) :
  writable (load_dependency_cache w).2 = writable w.
Proof. unfold load_dependency_cache. now destruct (cache_file w). Qed.

Lemma analyze_dependencies_unfold
    (analyze_site : string -> option (gset string)) (force : bool)
    (sites : gset string) (w : world) :
  writable w = true ->
  let final :=
    foldl (analyze_one set_iter analyze_site force)
          (if force then ∅ else load_dependencies w, ∅,
           if force then w else (load_dependency_cache w).2)
          (set_iter sites) in
  (analyze_dependencies set_iter analyze_site force sites w).1.2 = final.1.2 /\
  cache_file (analyze_dependencies set_iter analyze_site force sites w).2
  = CacheJson final.1.1.
Proof.
  intros Hw. cbv zeta. unfold analyze_dependencies.
  assert ((if force then (∅, w) else load_dependency_cache w)
          = (if force then ∅ else load_dependencies w,
             if force then w else (load_dependency_cache w).2)) as ->.
  { destruct force; [reflexivity|].
    unfold load_dependency_cache, load_dependencies.
    destruct (cache_file w); reflexivity. }
  pose proof (analyze_fold_world set_iter analyze_site force (set_iter sites)
                (if force then ∅ else load_dependencies w, ∅,
                 if force then w else (load_dependency_cache w).2)) as Hf.
  destruct (foldl _ _ _) as [[c1 a1] w1]. cbn [fst snd] in *.
  unfold save_dependency_cache.
  assert (writable w1 = true) as ->.
  { rewrite Hf. destruct force; [exact Hw|].
    now rewrite load_dependency_cache_writable. }
  split; reflexivity.
Qed.


Lemma analyze_dependencies_members
    (analyze_site : string -> option (gset string)) (force : bool)
    (sites : gset string) (w : world) (d : string) :
  writable w = true ->
  d ∈ (analyze_dependencies set_iter analyze_site force sites w).1.2 <->
  exists s deps,
    s ∈ sites /\
    load_dependencies (analyze_dependencies set_iter analyze_site force sites w).2
      !! s = Some deps /\
    d ∈ deps.
Proof.
  intros Hw.
  destruct (analyze_dependencies_unfold analyze_site force sites w Hw) as [-> _].
  rewrite (analyze_dependencies_cache set_iter analyze_site force sites w Hw).
  rewrite (analyze_fold_result analyze_site force _ (sites_iter_NoDup sites)).
  assert ((if force then ∅ else load_dependencies w, (∅ : gset string),
           if force then w else (load_dependency_cache w).2).1.2 = ∅) as ->
      by now destruct force.
  split.
  - intros [H|(s & deps & Hs & H)]; [now apply elem_of_empty in H|].
    exists s, deps. now rewrite <- sites_iter_elem.
  - intros (s & deps & Hs & H). right. exists s, deps. now rewrite sites_iter_elem.
Qed.

(** X16: after analyze_dependencies, forced or not, the dependency set
    it computed is exactly the union of the cache entries of the
    whitelisted sites, as the cache file stands after the run. *)
Theorem analyze_dependencies_from_cache
    (analyze_site : string -> option (gset string)) (force : bool)
    (sites : gset string) (w : world) (d : string) :
  writable w = true ->
  let result := analyze_dependencies set_iter analyze_site force sites w in
  d ∈ result.1.2 <->
  exists s deps,
    s ∈ sites /\ load_dependencies result.2 !! s = Some deps /\ d ∈ deps.
Proof. intros Hw result. subst result. now apply analyze_dependencies_members. Qed.

End Scripts.
End ScriptFacts.

(* ================================================================== *)
(** * Tables and their shapes *)
(* ================================================================== *)

Section ShapeFacts.
Import PyStr Iptables NetworkRestrictor FirewallStatements TableShapes.

Lemma referenced_spec (c : string) (t : table) :
  referenced c t = true <->
  exists key rules spec,
    t !! key = Some rules /\ spec ∈ rules /\ jump_target spec = Some c.
Proof.
  unfold referenced. rewrite existsb_exists. split.
  - intros ([key rules] & Hin & Hex). apply existsb_exists in Hex as (spec & Hs & Hj).
    exists key, rules, spec. split; [|split].
    + apply elem_of_map_to_list. now apply list_elem_of_In.
    + now apply list_elem_of_In.
    + unfold jumps_to in Hj. now apply bool_decide_eq_true_1 in Hj.
  - intros (key & rules & spec & Hl & Hs & Hj). exists (key, rules). split.
    + apply list_elem_of_In. now apply elem_of_map_to_list.
    + apply existsb_exists. exists spec. split; [now apply list_elem_of_In|].
      unfold jumps_to. now apply bool_decide_eq_true_2.
Qed.

Lemma exec_new_eq (c : string) (t : table) :
  exec ["-N"; c] t = match t !! c with None => Some (<[c := []]> t) | Some _ => None end.
Proof. reflexivity. Qed.

Lemma exec_flush_eq (c : string) (t : table) :
  exec ["-F"; c] t = match t !! c with Some _ => Some (<[c := []]> t) | None => None end.
Proof. reflexivity. Qed.

Lemma exec_destroy_eq (c : string) (t : table) :
  exec ["-X"; c] t =
  match t !! c with
  | Some [] => if bool_decide (c ∈ builtin_chains) || referenced c t
               then None else Some (delete c t)
  | _ => None
  end.
Proof. reflexivity. Qed.

Lemma exec_append_eq (c : string) (spec : rule) (t : table) :
  exec ("-A" :: c :: spec) t =
  match t !! c with
  | Some rules => if target_ok spec t then Some (<[c := rules ++ [spec]]> t) else None
  | None => None
  end.
Proof. reflexivity. Qed.

Lemma exec_delete_eq (c : string) (spec : rule) (t : table) :
  exec ("-D" :: c :: spec) t =
  match t !! c with
  | Some rules => if bool_decide (spec ∈ rules)
                  then Some (<[c := delete_first spec rules]> t) else None
  | None => None
  end.
Proof. reflexivity. Qed.
End ShapeFacts.

Section Simulation.
Import PyStr Iptables NetworkRestrictor FirewallStatements TableShapes.

Variable r : restrictor.
Variable base : table.
Hypothesis in_user : user_chain (chain_in r).
Hypothesis out_user : user_chain (chain_out r).
Hypothesis in_out : chain_in r <> chain_out r.
Hypothesis base_quiet : quiet r base.

Lemma owner_jump_not_harmless : ~ harmless r (owner_jump r).
Proof. intros [_ H]. apply H, jump_target_owner. Qed.

Lemma name_user (c : which) : user_chain (chain_name r c).
Proof. destruct c; assumption. Qed.

Lemma name_not_output (c : which) : chain_name r c <> "OUTPUT".
Proof. apply user_chain_not_output, name_user. Qed.

Lemma rep_base : rep r base base (Shape 0 None None).
Proof.
  destruct base_quiet as (Hi & Ho & [O HO] & _).
  repeat split; cbn; try assumption; try discriminate.
  exists O. split; [exact HO|]. now rewrite app_nil_r.
Qed.

Lemma rep_get (t : table) (a : shape) (c : which) :
  rep r base t a -> t !! chain_name r c = chain_rules c a.
Proof. intros (_ & Hi & Ho & _). destruct c; assumption. Qed.

Lemma rep_harmless_get (t : table) (a : shape) (c : which) (rules : list rule) :
  rep r base t a -> chain_rules c a = Some rules -> Forall (harmless r) rules.
Proof. intros (_ & _ & _ & _ & Hi & Ho). destruct c; auto. Qed.

(** Where the rules of a table can jump. *)
Lemma rep_targets (t : table) (a : shape) (key : string) (rules : list rule)
    (spec : rule) :
  rep r base t a -> t !! key = Some rules -> spec ∈ rules ->
  harmless r spec \/ (key = "OUTPUT" /\ spec = owner_jump r /\ bound a <> O).
Proof.
  intros ([O [HO HtO]] & Hi & Ho & Hother & Hhi & Hho) Hk Hs.
  destruct base_quiet as (_ & _ & _ & Hbase).
  destruct (decide (key = "OUTPUT")) as [->|Hk1].
  { rewrite HtO in Hk. injection Hk as <-.
    apply elem_of_app in Hs as [Hs|Hs].
    - left. eapply Forall_forall; [exact (Hbase _ _ HO)|exact Hs].
    - apply elem_of_replicate in Hs as [-> Hn]. now right. }
  left. destruct (decide (key = chain_in r)) as [->|Hk2].
  { rewrite Hi in Hk. eapply Forall_forall; [exact (Hhi _ Hk)|exact Hs]. }
  destruct (decide (key = chain_out r)) as [->|Hk3].
  { rewrite Ho in Hk. eapply Forall_forall; [exact (Hho _ Hk)|exact Hs]. }
  rewrite Hother in Hk by assumption.
  eapply Forall_forall; [exact (Hbase _ _ Hk)|exact Hs].
Qed.

Lemma referenced_in (t : table) (a : shape) :
  rep r base t a -> referenced (chain_in r) t = false.
Proof.
  intros Hrep. destruct (referenced (chain_in r) t) eqn:E; [|reflexivity].
  apply referenced_spec in E as (key & rules & spec & Hk & Hs & Hj).
  destruct (rep_targets t a key rules spec Hrep Hk Hs) as [[H _]|(_ & -> & _)].
  - contradiction.
  - rewrite jump_target_owner in Hj. injection Hj as Hj. congruence.
Qed.

Lemma referenced_out (t : table) (a : shape) :
  rep r base t a ->
  referenced (chain_out r) t = match bound a with O => false | S _ => true end.
Proof.
  intros Hrep. destruct (bound a) as [|k] eqn:Hb.
  - destruct (referenced (chain_out r) t) eqn:E; [|reflexivity].
    apply referenced_spec in E as (key & rules & spec & Hk & Hs & Hj).
    destruct (rep_targets t a key rules spec Hrep Hk Hs) as [[_ H]|(_ & _ & H)];
      contradiction.
  - apply referenced_spec. destruct Hrep as ([O [HO HtO]] & _).
    exists "OUTPUT", (O ++ replicate (bound a) (owner_jump r)), (owner_jump r).
    split; [exact HtO|]. split; [|apply jump_target_owner].
    apply elem_of_app. right. apply elem_of_replicate. split; [reflexivity|lia].
Qed.

Lemma not_builtin (c : which) : bool_decide (chain_name r c ∈ builtin_chains) = false.
Proof. apply bool_decide_eq_false_2, user_chain_not_builtin, name_user. Qed.

(** Changing one chain of the user. *)
Lemma rep_insert (t : table) (a : shape) (c : which) (rules : list rule) :
  rep r base t a -> Forall (harmless r) rules ->
  rep r base (<[chain_name r c := rules]> t) (with_rules c (Some rules) a).
Proof.
  intros ([O [HO HtO]] & Hi & Ho & Hother & Hhi & Hho) Hr.
  pose proof (name_not_output c) as Hno.
  split; [|split; [|split; [|split; [|split]]]].
  - exists O. split; [exact HO|]. rewrite lookup_insert_ne by exact Hno.
    destruct c; exact HtO.
  - destruct c; cbn; [apply lookup_insert_eq|].
    rewrite lookup_insert_ne by congruence. exact Hi.
  - destruct c; cbn; [|apply lookup_insert_eq].
    rewrite lookup_insert_ne by congruence. exact Ho.
  - intros k H1 H2 H3. rewrite lookup_insert_ne by (destruct c; cbn; congruence).
    now apply Hother.
  - destruct c; cbn; [intros ? [= <-]; exact Hr|exact Hhi].
  - destruct c; cbn; [exact Hho|intros ? [= <-]; exact Hr].
Qed.

Lemma rep_delete (t : table) (a : shape) (c : which) :
  rep r base t a -> rep r base (delete (chain_name r c) t) (with_rules c None a).
Proof.
  intros ([O [HO HtO]] & Hi & Ho & Hother & Hhi & Hho).
  pose proof (name_not_output c) as Hno.
  destruct base_quiet as (Hbi & Hbo & _).
  split; [|split; [|split; [|split; [|split]]]].
  - exists O. split; [exact HO|]. rewrite lookup_delete_ne by exact Hno.
    destruct c; exact HtO.
  - destruct c; cbn; [apply lookup_delete_eq|].
    rewrite lookup_delete_ne by congruence. exact Hi.
  - destruct c; cbn; [|apply lookup_delete_eq].
    rewrite lookup_delete_ne by congruence. exact Ho.
  - intros k H1 H2 H3. rewrite lookup_delete_ne by (destruct c; cbn; congruence).
    now apply Hother.
  - destruct c; cbn; [discriminate|exact Hhi].
  - destruct c; cbn; [exact Hho|discriminate].
Qed.

Lemma rep_output (t : table) (a : shape) (O : list rule) (k : nat) :
  rep r base t a -> base !! "OUTPUT" = Some O ->
  rep r base (<["OUTPUT" := O ++ replicate k (owner_jump r)]> t)
      (Shape k (in_rules a) (out_rules a)).
Proof.
  intros (_ & Hi & Ho & Hother & Hhi & Hho) HO.
  split; [|split; [|split; [|split; [|split]]]]; cbn.
  - exists O. split; [exact HO|]. apply lookup_insert_eq.
  - rewrite lookup_insert_ne by (symmetry; now apply user_chain_not_output). exact Hi.
  - rewrite lookup_insert_ne by (symmetry; now apply user_chain_not_output). exact Ho.
  - intros c H1 H2 H3. rewrite lookup_insert_ne by congruence. now apply Hother.
  - exact Hhi.
  - exact Hho.
Qed.

Lemma base_output_no_binding (O : list rule) :
  base !! "OUTPUT" = Some O -> owner_jump r ∉ O.
Proof.
  intros HO Hin. destruct base_quiet as (_ & _ & _ & Hbase).
  apply owner_jump_not_harmless.
  eapply Forall_forall; [exact (Hbase _ _ HO)|exact Hin].
Qed.

Lemma delete_first_binding (O : list rule) (k : nat) :
  owner_jump r ∉ O ->
  delete_first (owner_jump r) (O ++ replicate (S k) (owner_jump r))
  = O ++ replicate k (owner_jump r).
Proof.
  intros Hnot. induction O as [|x O IH]; cbn [app delete_first replicate].
  - now rewrite decide_True.
  - rewrite decide_False by (intros ->; apply Hnot; now left).
    f_equal. apply IH. intros H. apply Hnot. now right.
Qed.

Lemma target_ok_base (t : table) (a : shape) (spec : rule) :
  rep r base t a -> harmless r spec -> target_ok spec t = target_ok spec base.
Proof.
  intros ([O [HO HtO]] & _ & _ & Hother & _) [H1 H2]. unfold target_ok.
  destruct (jump_target spec) as [tg|]; [|reflexivity]. f_equal.
  destruct (decide (tg = "OUTPUT")) as [->|Hne].
  - rewrite HO, HtO. reflexivity.
  - rewrite Hother by congruence. reflexivity.
Qed.

(** Each command acts on the table as [next] says. *)
Lemma exec_next (t : table) (a : shape) (o : op) :
  rep r base t a -> good r o ->
  match next base o a with
  | Some a' => exists t', exec (args r o) t = Some t' /\ rep r base t' a'
  | None => exec (args r o) t = None
  end.
Proof.
  intros Hrep Hgood. destruct o as [c|c|c|spec| |]; cbn [args next].
  - rewrite exec_new_eq, (rep_get t a c Hrep).
    destruct (chain_rules c a); [reflexivity|]. eexists. split; [reflexivity|].
    now apply rep_insert.
  - rewrite exec_flush_eq, (rep_get t a c Hrep).
    destruct (chain_rules c a); [|reflexivity]. eexists. split; [reflexivity|].
    now apply rep_insert.
  - rewrite exec_destroy_eq, (rep_get t a c Hrep), not_builtin.
    destruct (chain_rules c a) as [[|x rules]|]; try (destruct c; reflexivity).
    destruct c; cbn [chain_name orb].
    + rewrite (referenced_in t a Hrep). eexists. split; [reflexivity|].
      now apply (rep_delete t a ChainIn).
    + rewrite (referenced_out t a Hrep). destruct (bound a); [|reflexivity].
      eexists. split; [reflexivity|]. now apply (rep_delete t a ChainOut).
  - pose proof (rep_get t a ChainOut Hrep) as Hg. cbn [chain_name chain_rules] in Hg.
    rewrite exec_append_eq, Hg.
    destruct (out_rules a) as [rules|] eqn:Ho; [|reflexivity].
    rewrite (target_ok_base t a spec Hrep Hgood).
    destruct (target_ok spec base); [|reflexivity].
    eexists. split; [reflexivity|]. apply (rep_insert t a ChainOut); [exact Hrep|].
    apply Forall_app. split; [|constructor; [exact Hgood|constructor]].
    now apply (rep_harmless_get t a ChainOut).
  - rewrite exec_append_eq.
    destruct Hrep as ([O [HO HtO]] & Hrest). rewrite HtO.
    assert (rep r base t a) as Hrep by (split; eauto).
    pose proof (rep_get t a ChainOut Hrep) as Hg. cbn [chain_name chain_rules] in Hg.
    unfold target_ok. rewrite jump_target_owner, Hg.
    rewrite (bool_decide_eq_false_2 (chain_out r ∈ standard_targets)).
    2:{ intros H. unfold standard_targets in H.
        repeat (apply elem_of_cons in H as [H|H];
                [rewrite H in out_user; discriminate|]).
        now apply elem_of_nil in H. }
    destruct (out_rules a) as [rules|] eqn:Ho.
    + rewrite bool_decide_eq_true_2 by eauto. cbn [orb].
      eexists. split; [reflexivity|].
      rewrite <- app_assoc, <- replicate_S_end.
      pose proof (rep_output t a O (S (bound a)) Hrep HO) as H.
      now rewrite Ho in H.
    + rewrite bool_decide_eq_false_2 by (intros [? ?]; discriminate). reflexivity.
  - rewrite exec_delete_eq.
    destruct Hrep as ([O [HO HtO]] & Hrest). rewrite HtO.
    assert (rep r base t a) as Hrep by (split; eauto).
    pose proof (base_output_no_binding O HO) as Hnot.
    destruct (bound a) as [|k] eqn:Hb.
    + rewrite app_nil_r. cbn [replicate].
      now rewrite bool_decide_eq_false_2 by exact Hnot.
    + rewrite bool_decide_eq_true_2.
      2:{ apply elem_of_app. right. now left. }
      eexists. split; [reflexivity|].
      rewrite delete_first_binding by exact Hnot.
      now apply rep_output.
Qed.

Lemma run_unchecked_next (ops : list op) :
  Forall (good r) ops ->
  forall (t : table) (a : shape),
    rep r base t a ->
    rep r base (run_unchecked r ops t) (next_unchecked base ops a).
Proof.
  induction 1 as [|o ops Ho Hops IH]; intros t a Hrep; [exact Hrep|].
  unfold run_unchecked, next_unchecked. cbn [foldl]. apply IH.
  pose proof (exec_next t a o Hrep Ho) as H. unfold unchecked.
  destruct (next base o a) as [a'|].
  - destruct H as (t' & -> & H). exact H.
  - rewrite H. exact Hrep.
Qed.

Lemma run_checked_cons (o : op) (ops : list op) (t : table) :
  run_checked r (o :: ops) t = (t' ← exec (args r o) t; run_checked r ops t').
Proof.
  unfold run_checked. cbn [foldl mbind option_bind].
  destruct (exec (args r o) t); [reflexivity|].
  induction ops as [|o' ops IH]; [reflexivity|exact IH].
Qed.

Lemma next_checked_cons (o : op) (ops : list op) (a : shape) :
  next_checked base (o :: ops) a = (a' ← next base o a; next_checked base ops a').
Proof.
  unfold next_checked. cbn [foldl mbind option_bind].
  destruct (next base o a); [reflexivity|].
  induction ops as [|o' ops IH]; [reflexivity|exact IH].
Qed.

Lemma run_checked_next (ops : list op) :
  Forall (good r) ops ->
  forall (t : table) (a : shape),
    rep r base t a ->
    match next_checked base ops a with
    | Some a' => exists t', run_checked r ops t = Some t' /\ rep r base t' a'
    | None => run_checked r ops t = None
    end.
Proof.
  induction 1 as [|o ops Ho Hops IH]; intros t a Hrep.
  - cbn. eauto.
  - rewrite run_checked_cons, next_checked_cons.
    pose proof (exec_next t a o Hrep Ho) as H.
    destruct (next base o a) as [a1|]; cbn [mbind option_bind].
    + destruct H as (t1 & -> & Hrep1). cbn [mbind option_bind]. now apply IH.
    + now rewrite H.
Qed.

(** The shape determines the table. *)
Lemma rep_unique (t t' : table) (a : shape) :
  rep r base t a -> rep r base t' a -> t = t'.
Proof.
  intros ([O [HO HtO]] & Hi & Ho & Hother & _) ([O' [HO' HtO']] & Hi' & Ho' & Hother' & _).
  apply map_eq. intros c.
  destruct (decide (c = "OUTPUT")) as [->|H1]; [congruence|].
  destruct (decide (c = chain_in r)) as [->|H2]; [congruence|].
  destruct (decide (c = chain_out r)) as [->|H3]; [congruence|].
  now rewrite Hother, Hother'.
Qed.

Lemma filter_replicate_eq (k : nat) (x : rule) :
  filter (fun spec => spec = x) (replicate k x) = replicate k x.
Proof.
  induction k as [|k IH]; [reflexivity|].
  cbn [replicate]. rewrite filter_cons_True by reflexivity. now rewrite IH.
Qed.

Lemma filter_absent (x : rule) (l : list rule) :
  x ∉ l -> filter (fun spec => spec = x) l = [].
Proof.
  induction l as [|y l IH]; intros Hnot; [reflexivity|].
  rewrite filter_cons_False by (intros ->; apply Hnot; now left).
  apply IH. intros H. apply Hnot. now right.
Qed.

Lemma rep_count (t : table) (a : shape) :
  rep r base t a -> count_bindings r t = bound a.
Proof.
  intros ([O [HO HtO]] & _). unfold count_bindings. rewrite HtO. cbn [from_option id].
  rewrite filter_app, (filter_absent _ O (base_output_no_binding O HO)).
  rewrite filter_replicate_eq. cbn [app]. apply length_replicate.
Qed.
End Simulation.

(* ================================================================== *)
(** * The methods of the restrictor, table by table *)
(* ================================================================== *)

Section SplitFacts.
Import PyStr Iptables NetworkRestrictor NetworkRestrictorUpdate FirewallStatements
       TableShapes RuleStatements.

Lemma run_unchecked_v4 (cmd : list string) (fw : firewall) :
  run_command ("iptables" :: cmd) false fw
  = Some (Firewall (unchecked cmd (ipv4 fw)) (ipv6 fw)).
Proof.
  rewrite run_command_v4. unfold unchecked.
  destruct (exec cmd (ipv4 fw)); [reflexivity|]. now destruct fw.
Qed.

Lemma run_unchecked_v6 (cmd : list string) (fw : firewall) :
  run_command ("ip6tables" :: cmd) false fw
  = Some (Firewall (ipv4 fw) (unchecked cmd (ipv6 fw))).
Proof.
  unfold run_command, run, unchecked.
  change (String.eqb "ip6tables" "iptables") with false.
  change (String.eqb "ip6tables" "ip6tables") with true. cbv iota.
  destruct (exec cmd (ipv6 fw)); [reflexivity|]. now destruct fw.
Qed.

Lemma run_checked_v4 (cmd : list string) (t4 t6 : table) :
  run_command ("iptables" :: cmd) true (Firewall t4 t6)
  = (t ← exec cmd t4; Some (Firewall t t6)).
Proof. rewrite run_command_v4. cbn [ipv4 ipv6]. now destruct (exec cmd t4). Qed.

Lemma run_caught_v4 (cmd : list string) (fw : firewall) :
  default fw (run_command ("iptables" :: cmd) true fw)
  = Firewall (unchecked cmd (ipv4 fw)) (ipv6 fw).
Proof.
  rewrite run_command_v4. unfold unchecked.
  destruct (exec cmd (ipv4 fw)); [reflexivity|]. now destruct fw.
Qed.

Lemma run_unchecked_app (r : restrictor) (ops1 ops2 : list op) (t : table) :
  run_unchecked r (ops1 ++ ops2) t = run_unchecked r ops2 (run_unchecked r ops1 t).
Proof. apply foldl_app. Qed.

Local Ltac split_step :=
  first
    [ rewrite run_unchecked_v4
    | rewrite run_unchecked_v6
    | rewrite bind_some ];
  cbn [ipv4 ipv6].

Lemma clear_split (r : restrictor) (t4 t6 : table) :
  clear_existing_rules r (Firewall t4 t6)
  = Some (Firewall (run_unchecked r clear_ops4 t4) (run_unchecked r clear_ops6 t6)).
Proof.
  unfold clear_existing_rules. cbn [foldl]. repeat split_step. reflexivity.
Qed.

Lemma remove_split (r : restrictor) (t4 t6 : table) :
  remove_restrictions r (Firewall t4 t6)
  = Some (Firewall (run_unchecked r clear_ops4 t4) (run_unchecked r clear_ops4 t6)).
Proof.
  unfold remove_restrictions. cbn [foldl]. repeat split_step. reflexivity.
Qed.

Lemma run_checked_nil (r : restrictor) (t : table) : run_checked r [] t = Some t.
Proof. reflexivity. Qed.

Local Ltac checked_step :=
  rewrite run_checked_cons; cbn [args chain_name]; rewrite run_checked_v4;
  match goal with
  | |- context [exec ?c ?t] =>
      destruct (exec c t); cbn [mbind option_bind]; [|reflexivity]
  end.

Lemma create_split (r : restrictor) (t4 t6 : table) :
  create_chains r (Firewall t4 t6)
  = (t ← run_checked r create_ops t4;
     Some (Firewall t (run_unchecked r create_ops t6))).
Proof.
  unfold create_chains, create_ops.
  repeat checked_step. rewrite run_checked_nil. cbn [mbind option_bind].
  repeat split_step. reflexivity.
Qed.

Lemma default_split (r : restrictor) (t4 t6 : table) :
  setup_default_rules r (Firewall t4 t6)
  = (t ← run_checked r default_ops4 t4;
     Some (Firewall t (run_unchecked r default_ops6 t6))).
Proof.
  unfold setup_default_rules, default_ops4, default_rules.
  cbn [fmap list_fmap].
  repeat checked_step. rewrite run_checked_nil. cbn [mbind option_bind].
  repeat split_step. reflexivity.
Qed.

Lemma finalize_split (r : restrictor) (t4 t6 : table) :
  finalize_rules r (Firewall t4 t6)
  = (t ← run_checked r final_ops4 t4;
     Some (Firewall t (run_unchecked r final_ops6 t6))).
Proof.
  unfold finalize_rules, final_ops4, reject_rule.
  checked_step. split_step. rewrite bind_some.
  checked_step. rewrite run_checked_nil. cbn [mbind option_bind].
  repeat split_step. reflexivity.
Qed.

Section Env.
Variable set_iter : gset string -> list string.
Variable valid_ipv6 : string -> bool.
Variable dns : string -> rrtype -> list string.

Lemma add_ips_split (r : restrictor) (ips : list string) :
  forall t4 t6,
    foldl (add_ip_rule valid_ipv6 r) (Firewall t4 t6) ips
    = Firewall (run_unchecked r (ip_ops valid_ipv6 V4 ips) t4)
               (run_unchecked r (ip_ops valid_ipv6 V6 ips) t6).
Proof.
  induction ips as [|ip ips IH]; intros t4 t6; [reflexivity|].
  cbn [foldl]. unfold add_ip_rule at 2, ip_ops. rewrite !filter_cons.
  destruct (version valid_ipv6 ip) eqn:Ev.
  - rewrite run_caught_v4. cbn [ipv4 ipv6]. rewrite IH.
    rewrite decide_True by reflexivity. rewrite decide_False by discriminate.
    reflexivity.
  - rewrite run_unchecked_v6. cbn [ipv4 ipv6 from_option id]. rewrite IH.
    rewrite decide_False by discriminate. rewrite decide_True by reflexivity.
    reflexivity.
  - rewrite IH. rewrite !decide_False by discriminate. reflexivity.
Qed.

Lemma add_rules_for_ips (r : restrictor) (fw : firewall) (d : string) :
  add_rules_for set_iter valid_ipv6 dns r fw d
  = foldl (add_ip_rule valid_ipv6 r) fw (ips_of set_iter dns d).
Proof.
  unfold add_rules_for, ips_of. cbv zeta.
  now destruct (decide (resolve_domain_ips dns d = ∅)).
Qed.

Lemma add_domain_rules_ips (r : restrictor) (domains : gset string) (fw : firewall) :
  add_domain_rules set_iter valid_ipv6 dns r domains fw
  = foldl (add_ip_rule valid_ipv6 r) fw (allowed_ips set_iter dns domains).
Proof.
  unfold add_domain_rules, allowed_ips.
  generalize (set_iter domains). intros l. revert fw.
  induction l as [|d l IH]; intros fw; [reflexivity|].
  cbn [foldl mbind list_bind]. rewrite foldl_app, <- add_rules_for_ips. apply IH.
Qed.

Lemma add_all_split (r : restrictor) (domains : gset string) (t4 t6 : table) :
  add_essential_cdns set_iter valid_ipv6 dns r
    (add_domain_rules set_iter valid_ipv6 dns r domains (Firewall t4 t6))
  = Firewall
      (run_unchecked r (ip_ops valid_ipv6 V4 (run_ips set_iter dns domains)) t4)
      (run_unchecked r (ip_ops valid_ipv6 V6 (run_ips set_iter dns domains)) t6).
Proof.
  unfold add_essential_cdns. rewrite !add_domain_rules_ips, <- foldl_app.
  apply add_ips_split.
Qed.

Lemma apply_split (r : restrictor) (domains dependencies : gset string)
    (t4 t6 : table) :
  apply_restrictions set_iter valid_ipv6 dns r domains dependencies (Firewall t4 t6)
  = (t ← apply4 valid_ipv6 r (run_ips set_iter dns (domains ∪ dependencies)) t4;
     Some (Firewall t
             (apply6 valid_ipv6 r (run_ips set_iter dns (domains ∪ dependencies)) t6))).
Proof.
  unfold apply_restrictions, apply4, apply6.
  rewrite clear_split, bind_some, create_split.
  destruct (run_checked r create_ops _) as [t1|]; cbn [mbind option_bind]; [|reflexivity].
  rewrite default_split.
  destruct (run_checked r default_ops4 t1) as [t2|]; cbn [mbind option_bind]; [|reflexivity].
  cbv zeta. rewrite add_all_split, finalize_split.
  destruct (run_checked r final_ops4 _) as [t3|]; cbn [mbind option_bind]; [|reflexivity].
  now rewrite !run_unchecked_app.
Qed.

Lemma update_split (r : restrictor) (domains : gset string) (t4 t6 : table) :
  update_domain_ips set_iter valid_ipv6 dns r domains (Firewall t4 t6)
  = (t ← update4 valid_ipv6 r (run_ips set_iter dns domains) t4;
     Some (Firewall t (update6 valid_ipv6 r (run_ips set_iter dns domains) t6))).
Proof.
  unfold update_domain_ips, update4, update6.
  rewrite run_checked_cons. cbn [args chain_name]. rewrite run_checked_v4.
  destruct (exec ["-F"; chain_out r] t4) as [t1|]; cbn [mbind option_bind]; [|reflexivity].
  rewrite run_unchecked_v6. cbn [ipv4 ipv6]. rewrite bind_some, default_split.
  destruct (run_checked r default_ops4 t1) as [t2|]; cbn [mbind option_bind]; [|reflexivity].
  cbv zeta. rewrite add_all_split, finalize_split.
  destruct (run_checked r final_ops4 _) as [t3|]; cbn [mbind option_bind]; [|reflexivity].
  change (Flush ChainOut :: default_ops6 ++ ip_ops valid_ipv6 V6 (run_ips set_iter dns domains) ++ final_ops6)
    with ([Flush ChainOut] ++ default_ops6 ++ ip_ops valid_ipv6 V6 (run_ips set_iter dns domains) ++ final_ops6).
  now rewrite !run_unchecked_app.
Qed.
End Env.
End SplitFacts.

(* ================================================================== *)
(** * The shapes the methods produce *)
(* ================================================================== *)

Section ShapeRuns.
Import PyStr Iptables NetworkRestrictor FirewallStatements TableShapes
       RuleStatements ShapeStatements.
Variable valid_ipv6 : string -> bool.
Variable r : restrictor.
Variable base : table.
Hypothesis in_user : user_chain (chain_in r).
Hypothesis out_user : user_chain (chain_out r).
Hypothesis in_out : chain_in r <> chain_out r.
Hypothesis base_quiet : quiet r base.

Lemma harmless_target (spec : rule) (tg : string) :
  jump_target spec = Some tg -> ~ user_chain tg -> harmless r spec.
Proof.
  intros Hj Hu. unfold harmless. rewrite Hj.
  split; intros H; injection H as ->; now apply Hu.
Qed.

Lemma jump_target_accept (ip : string) :
  jump_target (accept ip) = Some (if String.eqb ip "-j" then "-j" else "ACCEPT").
Proof.
  unfold accept. cbn [jump_target]. change (String.eqb "-d" "-j") with false. cbv iota.
  destruct (String.eqb ip "-j"); reflexivity.
Qed.

Lemma accept_harmless (ip : string) : harmless r (accept ip).
Proof.
  apply (harmless_target _ _ (jump_target_accept ip)).
  destruct (String.eqb ip "-j"); discriminate.
Qed.

Lemma default_rules_harmless : Forall (harmless r) default_rules.
Proof.
  repeat constructor; (eapply harmless_target; [vm_compute; reflexivity|discriminate]).
Qed.

Lemma default_rules6_harmless : Forall (harmless r) default_rules6.
Proof.
  repeat constructor; (eapply harmless_target; [vm_compute; reflexivity|discriminate]).
Qed.

Lemma reject_rule_harmless : harmless r reject_rule.
Proof. eapply harmless_target; [vm_compute; reflexivity|discriminate]. Qed.

Lemma reject_rule6_harmless : harmless r reject_rule6.
Proof. eapply harmless_target; [vm_compute; reflexivity|discriminate]. Qed.

Lemma appends_good (specs : list rule) :
  Forall (harmless r) specs -> Forall (good r) (Append <$> specs).
Proof. intros H. apply Forall_fmap. exact H. Qed.

Lemma clear_ops4_good : Forall (good r) clear_ops4.
Proof. repeat constructor. Qed.

Lemma clear_ops6_good : Forall (good r) clear_ops6.
Proof. repeat constructor. Qed.

Lemma create_ops_good : Forall (good r) create_ops.
Proof. repeat constructor. Qed.

Lemma default_ops4_good : Forall (good r) default_ops4.
Proof. apply appends_good, default_rules_harmless. Qed.

Lemma default_ops6_good : Forall (good r) default_ops6.
Proof. apply appends_good, default_rules6_harmless. Qed.

Lemma final_ops4_good : Forall (good r) final_ops4.
Proof.
  constructor; [exact reject_rule_harmless|]. constructor; [exact I|constructor].
Qed.

Lemma final_ops6_good : Forall (good r) final_ops6.
Proof.
  constructor; [exact reject_rule6_harmless|]. constructor; [exact I|constructor].
Qed.

Lemma ip_ops_good (v : ip_version) (ips : list string) :
  Forall (good r) (ip_ops valid_ipv6 v ips).
Proof.
  unfold ip_ops. apply Forall_fmap, Forall_forall. intros ip _. apply accept_harmless.
Qed.

Lemma flush_good (ops : list op) : Forall (good r) ops -> Forall (good r) (Flush ChainOut :: ops).
Proof. now constructor. Qed.

Lemma ops6_good (ips : list string) :
  Forall (good r)
    (clear_ops6 ++ create_ops ++ default_ops6 ++ ip_ops valid_ipv6 V6 ips ++ final_ops6).
Proof.
  repeat apply Forall_app_2;
    auto using clear_ops6_good, create_ops_good, default_ops6_good, ip_ops_good,
      final_ops6_good.
Qed.

(** The methods on tables follow the methods on shapes. *)
Lemma apply4_sim (ips : list string) (t : table) (a : shape) :
  rep r base t a ->
  match apply4_next valid_ipv6 base ips a with
  | Some a' => exists t', apply4 valid_ipv6 r ips t = Some t' /\ rep r base t' a'
  | None => apply4 valid_ipv6 r ips t = None
  end.
Proof.
  intros Hrep. unfold apply4_next, apply4.
  pose proof (run_unchecked_next r base in_user out_user in_out base_quiet
                _ clear_ops4_good t a Hrep) as H0.
  pose proof (run_checked_next r base in_user out_user in_out base_quiet
                _ create_ops_good _ _ H0) as H1.
  destruct (next_checked base create_ops _) as [a1|]; cbn [mbind option_bind].
  2:{ now rewrite H1. }
  destruct H1 as (t1 & -> & H1). cbn [mbind option_bind].
  pose proof (run_checked_next r base in_user out_user in_out base_quiet
                _ default_ops4_good _ _ H1) as H2.
  destruct (next_checked base default_ops4 a1) as [a2|]; cbn [mbind option_bind].
  2:{ now rewrite H2. }
  destruct H2 as (t2 & -> & H2). cbn [mbind option_bind].
  pose proof (run_unchecked_next r base in_user out_user in_out base_quiet
                _ (ip_ops_good V4 ips) _ _ H2) as H3.
  exact (run_checked_next r base in_user out_user in_out base_quiet
           _ final_ops4_good _ _ H3).
Qed.

Lemma apply6_sim (ips : list string) (t : table) (a : shape) :
  rep r base t a ->
  rep r base (apply6 valid_ipv6 r ips t) (apply6_next valid_ipv6 base ips a).
Proof.
  apply (run_unchecked_next r base in_user out_user in_out base_quiet), ops6_good.
Qed.

Lemma update4_sim (ips : list string) (t : table) (a : shape) :
  rep r base t a ->
  match update4_next valid_ipv6 base ips a with
  | Some a' => exists t', update4 valid_ipv6 r ips t = Some t' /\ rep r base t' a'
  | None => update4 valid_ipv6 r ips t = None
  end.
Proof.
  intros Hrep. unfold update4_next, update4.
  pose proof (run_checked_next r base in_user out_user in_out base_quiet
                _ (flush_good _ default_ops4_good) _ _ Hrep) as H2.
  destruct (next_checked base (Flush ChainOut :: default_ops4) a) as [a2|];
    cbn [mbind option_bind].
  2:{ now rewrite H2. }
  destruct H2 as (t2 & -> & H2). cbn [mbind option_bind].
  pose proof (run_unchecked_next r base in_user out_user in_out base_quiet
                _ (ip_ops_good V4 ips) _ _ H2) as H3.
  exact (run_checked_next r base in_user out_user in_out base_quiet
           _ final_ops4_good _ _ H3).
Qed.

Lemma update6_sim (ips : list string) (t : table) (a : shape) :
  rep r base t a ->
  rep r base (update6 valid_ipv6 r ips t) (update6_next valid_ipv6 base ips a).
Proof.
  apply (run_unchecked_next r base in_user out_user in_out base_quiet).
  apply flush_good. repeat apply Forall_app_2;
    auto using default_ops6_good, ip_ops_good, final_ops6_good.
Qed.

(** ** The shapes the methods produce *)

Lemma target_ok_standard (spec : rule) (tg : string) (t : table) :
  jump_target spec = Some tg -> tg ∈ standard_targets -> target_ok spec t = true.
Proof.
  intros Hj Hs. unfold target_ok. rewrite Hj.
  now rewrite (bool_decide_eq_true_2 _ Hs).
Qed.

Lemma next_unchecked_cons (o : op) (ops : list op) (a : shape) :
  next_unchecked base (o :: ops) a
  = next_unchecked base ops (default a (next base o a)).
Proof. reflexivity. Qed.

Lemma next_unchecked_app (ops1 ops2 : list op) (a : shape) :
  next_unchecked base (ops1 ++ ops2) a
  = next_unchecked base ops2 (next_unchecked base ops1 a).
Proof. apply foldl_app. Qed.

(** Appended rules go to the end of the output chain; the ones with an
    unknown target are refused. *)
Lemma next_unchecked_appends (specs : list rule) :
  forall (k : nat) (i : option (list rule)) (R : list rule),
    next_unchecked base (Append <$> specs) (Shape k i (Some R))
    = Shape k i (Some (R ++ filter (fun s => target_ok s base = true) specs)).
Proof.
  induction specs as [|s specs IH]; intros k i R.
  - cbn. now rewrite app_nil_r.
  - cbn [fmap list_fmap]. rewrite next_unchecked_cons. cbn [next out_rules].
    rewrite filter_cons. destruct (target_ok s base) eqn:E.
    + rewrite decide_True by reflexivity. cbn [with_rules from_option id bound in_rules].
      fold (fmap (M:=list) Append specs). rewrite IH. now rewrite <- app_assoc.
    + rewrite decide_False by discriminate. cbn [from_option id].
      fold (fmap (M:=list) Append specs). apply IH.
Qed.

Lemma next_checked_appends (specs : list rule) :
  Forall (fun s => target_ok s base = true) specs ->
  forall (k : nat) (i : option (list rule)) (R : list rule),
    next_checked base (Append <$> specs) (Shape k i (Some R))
    = Some (Shape k i (Some (R ++ specs))).
Proof.
  induction 1 as [|s specs Hs Hspecs IH]; intros k i R.
  - cbn. now rewrite app_nil_r.
  - cbn [fmap list_fmap]. rewrite next_checked_cons. cbn [next out_rules].
    rewrite Hs. cbn [mbind option_bind with_rules bound in_rules].
    fold (fmap (M:=list) Append specs). rewrite IH. now rewrite <- app_assoc.
Qed.

Lemma default_rules_ok : Forall (fun s => target_ok s base = true) default_rules.
Proof.
  repeat constructor;
    (eapply target_ok_standard; [vm_compute; reflexivity|]);
    unfold standard_targets; apply (bool_decide_unpack _); reflexivity.
Qed.

Lemma reject_rule_ok : target_ok reject_rule base = true.
Proof.
  eapply target_ok_standard; [vm_compute; reflexivity|].
  unfold standard_targets. apply (bool_decide_unpack _). reflexivity.
Qed.

Lemma reject_rule6_ok : target_ok reject_rule6 base = true.
Proof.
  eapply target_ok_standard; [vm_compute; reflexivity|].
  unfold standard_targets. apply (bool_decide_unpack _). reflexivity.
Qed.

Lemma accept_ok_v4 (ip : string) :
  valid_ipv4 ip = true -> target_ok (accept ip) base = true.
Proof.
  intros Hv. eapply target_ok_standard; [apply jump_target_accept|].
  destruct (String.eqb ip "-j") eqn:E.
  - apply String.eqb_eq in E. subst ip. discriminate Hv.
  - unfold standard_targets. apply (bool_decide_unpack _). reflexivity.
Qed.

Lemma clear4_shape (a : shape) :
  regular a ->
  next_unchecked base clear_ops4 a
  = Shape (pred (bound a)) None
          (match pred (bound a) with O => None | S _ => Some [] end).
Proof.
  destruct a as [k i o]. intros [[Hi|Hi] Ho]; cbn in Hi, Ho; subst i;
    destruct k as [|[|k]]; destruct o as [R|];
    try (specialize (Ho eq_refl); discriminate Ho); reflexivity.
Qed.

Lemma clear6_shape (a : shape) :
  regular a ->
  next_unchecked base clear_ops6 a
  = Shape (bound a) None (match bound a with O => None | S _ => Some [] end).
Proof.
  destruct a as [k i o]. intros [[Hi|Hi] Ho]; cbn in Hi, Ho; subst i;
    destruct k as [|k]; destruct o as [R|];
    try (specialize (Ho eq_refl); discriminate Ho); reflexivity.
Qed.

Lemma final4_shape (k : nat) (i : option (list rule)) (R : list rule) :
  next_checked base final_ops4 (Shape k i (Some R))
  = Some (Shape (S k) i (Some (R ++ [reject_rule]))).
Proof.
  unfold final_ops4. rewrite next_checked_cons. cbn [next out_rules].
  rewrite reject_rule_ok. reflexivity.
Qed.

Lemma final6_shape (k : nat) (i : option (list rule)) (R : list rule) :
  next_unchecked base final_ops6 (Shape k i (Some R))
  = Shape (S k) i (Some (R ++ [reject_rule6])).
Proof.
  unfold final_ops6. rewrite next_unchecked_cons. cbn [next out_rules].
  rewrite reject_rule6_ok. reflexivity.
Qed.

Lemma version_v4 (ip : string) : version valid_ipv6 ip = V4 -> valid_ipv4 ip = true.
Proof.
  unfold version. destruct (valid_ipv4 ip); [reflexivity|].
  destruct (valid_ipv6 ip); discriminate.
Qed.

Lemma ip_ops_appends (v : ip_version) (ips : list string) :
  ip_ops valid_ipv6 v ips
  = Append <$> (accept <$> filter (fun ip => version valid_ipv6 ip = v) ips).
Proof. unfold ip_ops. now rewrite <- list_fmap_compose. Qed.

Lemma filter_all {A} (P : A -> Prop) `{!forall x, Decision (P x)} (l : list A) :
  Forall P l -> filter P l = l.
Proof.
  induction 1 as [|x l Hx Hl IH]; [reflexivity|].
  rewrite filter_cons, decide_True by exact Hx. now rewrite IH.
Qed.

Lemma ips4_shape (ips : list string) (k : nat) (i : option (list rule))
    (R : list rule) :
  next_unchecked base (ip_ops valid_ipv6 V4 ips) (Shape k i (Some R))
  = Shape k i
      (Some (R ++ (accept <$> filter (fun ip => version valid_ipv6 ip = V4) ips))).
Proof.
  rewrite ip_ops_appends, next_unchecked_appends. rewrite filter_all; [reflexivity|].
  apply Forall_fmap, Forall_forall. intros ip Hip.
  apply list_elem_of_filter in Hip as [Hv _]. cbn. now apply accept_ok_v4, version_v4.
Qed.

Lemma apply4_shape (ips : list string) (a : shape) :
  regular a -> (bound a <= 1)%nat ->
  apply4_next valid_ipv6 base ips a = Some (Shape 1 (Some []) (Some (rules4 valid_ipv6 ips))).
Proof.
  intros Hreg Hk. unfold apply4_next. rewrite clear4_shape by exact Hreg.
  replace (pred (bound a)) with O by lia.
  cbn [next_checked create_ops foldl mbind option_bind next chain_rules with_rules bound in_rules out_rules].
  unfold default_ops4. rewrite next_checked_appends by apply default_rules_ok.
  cbn [mbind option_bind]. rewrite ips4_shape, final4_shape.
  unfold rules4. cbn [app]. now rewrite <- !app_assoc.
Qed.

Lemma apply4_shape_bound (ips : list string) (a : shape) :
  regular a -> (2 <= bound a)%nat -> apply4_next valid_ipv6 base ips a = None.
Proof.
  intros Hreg Hk. unfold apply4_next. rewrite clear4_shape by exact Hreg.
  destruct (bound a) as [|[|k]]; [lia|lia|]. reflexivity.
Qed.

Lemma apply6_shape (ips : list string) (a : shape) :
  regular a ->
  exists R, apply6_next valid_ipv6 base ips a = Shape (S (bound a)) (Some []) (Some R).
Proof.
  intros Hreg. unfold apply6_next.
  rewrite !next_unchecked_app, clear6_shape by exact Hreg.
  assert (next_unchecked base create_ops
            (Shape (bound a) None (match bound a with O => None | S _ => Some [] end))
          = Shape (bound a) (Some []) (Some [])) as -> by now destruct (bound a).
  unfold default_ops6. rewrite next_unchecked_appends.
  rewrite ip_ops_appends, next_unchecked_appends, final6_shape. eauto.
Qed.

Lemma update4_shape (ips : list string) (k : nat) (i : option (list rule))
    (R : list rule) :
  update4_next valid_ipv6 base ips (Shape k i (Some R))
  = Some (Shape (S k) i (Some (rules4 valid_ipv6 ips))).
Proof.
  unfold update4_next. rewrite next_checked_cons. cbn [next chain_rules with_rules out_rules bound in_rules].
  cbn [mbind option_bind]. unfold default_ops4.
  rewrite next_checked_appends by apply default_rules_ok.
  cbn [mbind option_bind]. rewrite ips4_shape, final4_shape.
  unfold rules4. cbn [app]. now rewrite <- !app_assoc.
Qed.

Lemma update6_shape (ips : list string) (k : nat) (i : option (list rule))
    (R : list rule) :
  exists R', update6_next valid_ipv6 base ips (Shape k i (Some R))
             = Shape (S k) i (Some R').
Proof.
  unfold update6_next. rewrite next_unchecked_cons.
  cbn [next chain_rules with_rules out_rules bound in_rules from_option id].
  rewrite next_unchecked_app. unfold default_ops6. rewrite next_unchecked_appends.
  rewrite next_unchecked_app, ip_ops_appends, next_unchecked_appends, final6_shape.
  eauto.
Qed.
End ShapeRuns.

(* ================================================================== *)
(** * Applying, updating and removing restrictions *)
(* ================================================================== *)

Section FirewallMore.
Import PyStr Iptables NetworkRestrictor NetworkRestrictorUpdate FirewallStatements
       TableShapes RuleStatements ShapeStatements.
Variable upper : string -> string.
Variable set_iter : gset string -> list string.
Variable valid_ipv6 : string -> bool.
Variable dns : string -> rrtype -> list string.
Variables (user : string) (uid : nat).
Let r := __init__ upper user uid.
Let in_user := chain_in_user upper user uid.
Let out_user := chain_out_user upper user uid.
Let in_out := chain_in_out upper user uid.

Lemma fresh_table_quiet (r' : restrictor) :
  user_chain (chain_in r') -> user_chain (chain_out r') -> quiet r' fresh_table.
Proof.
  intros Hi Ho.
  assert (forall c, c ∉ builtin_chains -> fresh_table !! c = None) as Hnone.
  { intros c Hc. unfold fresh_table. apply not_elem_of_list_to_map_1.
    intros Hin. apply Hc. cbn in Hin. exact Hin. }
  split; [apply Hnone, user_chain_not_builtin, Hi|].
  split; [apply Hnone, user_chain_not_builtin, Ho|].
  split; [now eexists|].
  intros c rules Hc. unfold fresh_table in Hc.
  apply elem_of_list_to_map_2 in Hc. cbn in Hc.
  repeat (apply elem_of_cons in Hc as [Hc|Hc]; [injection Hc as -> ->; constructor|]).
  now apply elem_of_nil in Hc.
Qed.

(** One run on tables of a known shape. *)
Lemma apply_step (domains dependencies : gset string) (b4 b6 t4 t6 : table)
    (a4 a6 : shape) :
  quiet r b4 -> quiet r b6 ->
  rep r b4 t4 a4 -> regular a4 -> (bound a4 <= 1)%nat ->
  rep r b6 t6 a6 -> regular a6 ->
  exists t4' t6' R,
    apply_restrictions set_iter valid_ipv6 dns r domains dependencies (Firewall t4 t6)
    = Some (Firewall t4' t6') /\
    rep r b4 t4'
      (Shape 1 (Some [])
         (Some (rules4 valid_ipv6 (run_ips set_iter dns (domains ∪ dependencies))))) /\
    rep r b6 t6' (Shape (S (bound a6)) (Some []) (Some R)).
Proof.
  intros Hq4 Hq6 Hr4 Hg4 Hk4 Hr6 Hg6. rewrite apply_split.
  pose proof (apply4_sim valid_ipv6 r b4 in_user out_user in_out Hq4
                (run_ips set_iter dns (domains ∪ dependencies)) t4 a4 Hr4) as H4.
  rewrite (apply4_shape valid_ipv6 b4) in H4 by assumption.
  destruct H4 as (t4' & -> & H4). cbn [mbind option_bind].
  pose proof (apply6_sim valid_ipv6 r b6 in_user out_user in_out Hq6
                (run_ips set_iter dns (domains ∪ dependencies)) t6 a6 Hr6) as H6.
  destruct (apply6_shape valid_ipv6 b6
              (run_ips set_iter dns (domains ∪ dependencies)) a6 Hg6) as [R HR].
  rewrite HR in H6. eauto 10.
Qed.

Lemma regular_full (k : nat) (R : list rule) : regular (Shape k (Some []) (Some R)).
Proof. split; cbn; [now right|discriminate]. Qed.

Lemma regular_none : regular (Shape 0 None None).
Proof. split; cbn; [now left|reflexivity]. Qed.

(** [n] runs in a row. *)
Lemma reapply_steps (domains dependencies : gset string) (b4 b6 : table) (n : nat) :
  quiet r b4 -> quiet r b6 ->
  forall (t4 t6 : table) (a4 a6 : shape),
    rep r b4 t4 a4 -> regular a4 -> (bound a4 <= 1)%nat ->
    rep r b6 t6 a6 -> regular a6 ->
    exists t4' t6' R,
      reapply set_iter valid_ipv6 dns (S n) r domains dependencies (Firewall t4 t6)
      = Some (Firewall t4' t6') /\
      rep r b4 t4'
        (Shape 1 (Some [])
           (Some (rules4 valid_ipv6 (run_ips set_iter dns (domains ∪ dependencies))))) /\
      rep r b6 t6' (Shape (S n + bound a6) (Some []) (Some R)).
Proof.
  intros Hq4 Hq6. induction n as [|n IH]; intros t4 t6 a4 a6 Hr4 Hg4 Hk4 Hr6 Hg6.
  - destruct (apply_step domains dependencies b4 b6 t4 t6 a4 a6)
      as (t4' & t6' & R & Happly & H4 & H6); try assumption.
    exists t4', t6', R. cbn [reapply]. rewrite Happly. cbn [mbind option_bind]. auto.
  - destruct (apply_step domains dependencies b4 b6 t4 t6 a4 a6)
      as (t4' & t6' & R & Happly & H4 & H6); try assumption.
    destruct (IH t4' t6' _ _ H4 (regular_full _ _) (le_n 1) H6 (regular_full _ _))
      as (t4'' & t6'' & R' & Hre & H4' & H6').
    exists t4'', t6'', R'. split; [|split; [exact H4'|]].
    + change (reapply set_iter valid_ipv6 dns (S (S n)) r domains dependencies
                (Firewall t4 t6))
        with (apply_restrictions set_iter valid_ipv6 dns r domains dependencies
                (Firewall t4 t6)
              ≫= reapply set_iter valid_ipv6 dns (S n) r domains dependencies).
      rewrite Happly. exact Hre.
    + cbn [bound] in H6'. replace (S (S n) + bound a6)%nat with (S n + S (bound a6))%nat by lia.
      exact H6'.
Qed.

Lemma reapply_quiet (domains dependencies : gset string) (t4 t6 : table) (n : nat) :
  quiet r t4 -> quiet r t6 ->
  exists t4' t6' R,
    reapply set_iter valid_ipv6 dns (S n) r domains dependencies (Firewall t4 t6)
    = Some (Firewall t4' t6') /\
    rep r t4 t4'
      (Shape 1 (Some [])
         (Some (rules4 valid_ipv6 (run_ips set_iter dns (domains ∪ dependencies))))) /\
    rep r t6 t6' (Shape (S n) (Some []) (Some R)).
Proof.
  intros Hq4 Hq6.
  destruct (reapply_steps domains dependencies t4 t6 n Hq4 Hq6 t4 t6
              (Shape 0 None None) (Shape 0 None None))
    as (t4' & t6' & R & H & H4 & H6);
    try (apply rep_base; assumption); try apply regular_none; [cbn; lia|].
  cbn [bound] in H6. rewrite Nat.add_0_r in H6. eauto 10.
Qed.

Lemma remove_step (b4 b6 t4 t6 : table) (a4 a6 : shape) :
  quiet r b4 -> quiet r b6 ->
  rep r b4 t4 a4 -> regular a4 -> rep r b6 t6 a6 -> regular a6 ->
  exists t4' t6',
    remove_restrictions r (Firewall t4 t6) = Some (Firewall t4' t6') /\
    rep r b4 t4' (Shape (pred (bound a4)) None
                    (match pred (bound a4) with O => None | S _ => Some [] end)) /\
    rep r b6 t6' (Shape (pred (bound a6)) None
                    (match pred (bound a6) with O => None | S _ => Some [] end)).
Proof.
  intros Hq4 Hq6 Hr4 Hg4 Hr6 Hg6. rewrite remove_split.
  eexists _, _. split; [reflexivity|]. split.
  - rewrite <- (clear4_shape b4 a4 Hg4).
    apply (run_unchecked_next r b4 in_user out_user in_out Hq4); [|exact Hr4].
    apply clear_ops4_good.
  - rewrite <- (clear4_shape b6 a6 Hg6).
    apply (run_unchecked_next r b6 in_user out_user in_out Hq6); [|exact Hr6].
    apply clear_ops4_good.
Qed.

(** X18: on tables that hold no chain of the user and no rule that
    jumps to one, n calls of apply_restrictions in a row all return;
    afterwards the OUTPUT chain of the IPv4 table holds one binding of
    the user (none for n = 0) and the OUTPUT chain of the IPv6 table
    holds n, for every set of domains and every resolver. *)
Theorem reapply_bindings (domains dependencies : gset string) (t4 t6 : table)
    (n : nat) :
  quiet r t4 -> quiet r t6 ->
  bindings r <$> reapply set_iter valid_ipv6 dns n r domains dependencies
                   (Firewall t4 t6)
  = Some (Nat.min n 1, n).
Proof.
  intros Hq4 Hq6. destruct n as [|n].
  - cbn [reapply fmap option_fmap option_map]. unfold bindings. cbn [ipv4 ipv6].
    rewrite (rep_count r t4 Hq4 t4 (Shape 0 None None)) by now apply rep_base.
    rewrite (rep_count r t6 Hq6 t6 (Shape 0 None None)) by now apply rep_base.
    reflexivity.
  - destruct (reapply_quiet domains dependencies t4 t6 n Hq4 Hq6)
      as (t4' & t6' & R & -> & H4 & H6).
    cbn [fmap option_fmap option_map]. unfold bindings. cbn [ipv4 ipv6].
    rewrite (rep_count r t4 Hq4 _ _ H4), (rep_count r t6 Hq6 _ _ H6).
    cbn [bound]. do 2 f_equal. lia.
Qed.

(** X19: apply_restrictions followed by remove_restrictions gives back
    the IPv4 and the IPv6 table exactly as they were, when they held no
    chain of the user and no rule that jumps to one. *)
Theorem apply_remove_restores (domains dependencies : gset string) (t4 t6 : table) :
  quiet r t4 -> quiet r t6 ->
  apply_restrictions set_iter valid_ipv6 dns r domains dependencies (Firewall t4 t6)
  ≫= remove_restrictions r
  = Some (Firewall t4 t6).
Proof.
  intros Hq4 Hq6.
  destruct (reapply_quiet domains dependencies t4 t6 0 Hq4 Hq6)
    as (t4' & t6' & R & H & H4 & H6).
  cbn [reapply] in H.
  destruct (apply_restrictions _ _ _ _ _ _ _) as [fw|]; [|discriminate].
  cbn [mbind option_bind] in H |- *. injection H as ->.
  destruct (remove_step t4 t6 t4' t6' _ _ Hq4 Hq6 H4 (regular_full _ _)
              H6 (regular_full _ _)) as (u4 & u6 & -> & Hu4 & Hu6).
  cbn [bound pred] in Hu4, Hu6.
  rewrite (rep_unique r t4 u4 t4 _ Hu4 (rep_base r t4 Hq4)).
  rewrite (rep_unique r t6 u6 t6 _ Hu6 (rep_base r t6 Hq6)).
  reflexivity.
Qed.

(** X20: after two or more calls of apply_restrictions,
    remove_restrictions gives back the IPv4 table as it was, but leaves
    in the IPv6 table all but one of the bindings in OUTPUT and the
    output chain of the user, empty. *)
Theorem reapply_remove_residue (domains dependencies : gset string)
    (t4 t6 : table) (n : nat) :
  quiet r t4 -> quiet r t6 ->
  exists fw,
    reapply set_iter valid_ipv6 dns (S (S n)) r domains dependencies (Firewall t4 t6)
    ≫= remove_restrictions r = Some fw /\
    ipv4 fw = t4 /\
    count_bindings r (ipv6 fw) = S n /\
    ipv6 fw !! chain_out r = Some [] /\
    ipv6 fw !! chain_in r = None.
Proof.
  intros Hq4 Hq6.
  destruct (reapply_quiet domains dependencies t4 t6 (S n) Hq4 Hq6)
    as (t4' & t6' & R & -> & H4 & H6).
  cbn [mbind option_bind].
  destruct (remove_step t4 t6 t4' t6' _ _ Hq4 Hq6 H4 (regular_full _ _)
              H6 (regular_full _ _)) as (u4 & u6 & -> & Hu4 & Hu6).
  cbn [bound pred] in Hu4, Hu6.
  exists (Firewall u4 u6). split; [reflexivity|]. cbn [ipv4 ipv6].
  split; [exact (rep_unique r t4 u4 t4 _ Hu4 (rep_base r t4 Hq4))|].
  split; [exact (rep_count r t6 Hq6 _ _ Hu6)|].
  destruct Hu6 as (_ & Hi & Ho & _). cbn in Hi, Ho. auto.
Qed.

(** X21: remove_restrictions on tables that hold no chain of the user
    and no rule that jumps to one returns and changes nothing. *)
Theorem remove_restrictions_quiet (t4 t6 : table) :
  quiet r t4 -> quiet r t6 ->
  remove_restrictions r (Firewall t4 t6) = Some (Firewall t4 t6).
Proof.
  intros Hq4 Hq6.
  destruct (remove_step t4 t6 t4 t6 _ _ Hq4 Hq6 (rep_base r t4 Hq4) regular_none
              (rep_base r t6 Hq6) regular_none) as (u4 & u6 & -> & Hu4 & Hu6).
  cbn [bound pred] in Hu4, Hu6.
  rewrite (rep_unique r t4 u4 t4 _ Hu4 (rep_base r t4 Hq4)).
  rewrite (rep_unique r t6 u6 t6 _ Hu6 (rep_base r t6 Hq6)).
  reflexivity.
Qed.

Lemma update_step (domains : gset string) (b4 b6 t4 t6 : table)
    (k4 k6 : nat) (i4 i6 : option (list rule)) (R4 R6 : list rule) :
  quiet r b4 -> quiet r b6 ->
  rep r b4 t4 (Shape k4 i4 (Some R4)) -> rep r b6 t6 (Shape k6 i6 (Some R6)) ->
  exists t4' t6' R,
    update_domain_ips set_iter valid_ipv6 dns r domains (Firewall t4 t6)
    = Some (Firewall t4' t6') /\
    rep r b4 t4'
      (Shape (S k4) i4 (Some (rules4 valid_ipv6 (run_ips set_iter dns domains)))) /\
    rep r b6 t6' (Shape (S k6) i6 (Some R)).
Proof.
  intros Hq4 Hq6 Hr4 Hr6. rewrite update_split.
  pose proof (update4_sim valid_ipv6 r b4 in_user out_user in_out Hq4
                (run_ips set_iter dns domains) t4 _ Hr4) as H4.
  rewrite update4_shape in H4. destruct H4 as (t4' & -> & H4).
  cbn [mbind option_bind].
  pose proof (update6_sim valid_ipv6 r b6 in_user out_user in_out Hq6
                (run_ips set_iter dns domains) t6 _ Hr6) as H6.
  destruct (update6_shape valid_ipv6 b6 (run_ips set_iter dns domains) k6 i6 R6)
    as [R HR].
  rewrite HR in H6. eauto 10.
Qed.

(** X22: update_domain_ips raises when the output chain of the user
    does not exist.  After apply_restrictions it returns: the output
    chain of the IPv4 table is rebuilt for the given domains and the
    essential CDNs only, and OUTPUT holds two bindings of the user in
    each table, because finalize_rules appends one more. *)
Theorem update_domain_ips_rebinds (domains dependencies domains' : gset string)
    (t4 t6 : table) :
  quiet r t4 -> quiet r t6 ->
  update_domain_ips set_iter valid_ipv6 dns r domains' (Firewall t4 t6) = None /\
  exists fw,
    apply_restrictions set_iter valid_ipv6 dns r domains dependencies (Firewall t4 t6)
    ≫= update_domain_ips set_iter valid_ipv6 dns r domains' = Some fw /\
    bindings r fw = (2%nat, 2%nat) /\
    ipv4 fw !! chain_out r
    = Some (rules4 valid_ipv6 (run_ips set_iter dns domains')).
Proof.
  intros Hq4 Hq6. split.
  - unfold update_domain_ips. rewrite run_command_v4. cbn [ipv4].
    rewrite exec_absent; [reflexivity|discriminate|apply Hq4].
  - destruct (reapply_quiet domains dependencies t4 t6 0 Hq4 Hq6)
      as (t4' & t6' & R & H & H4 & H6).
    cbn [reapply] in H.
    destruct (apply_restrictions _ _ _ _ _ _ _) as [fw|]; [|discriminate].
    cbn [mbind option_bind] in H |- *. injection H as ->.
    destruct (update_step domains' t4 t6 t4' t6' _ _ _ _ _ _ Hq4 Hq6 H4 H6)
      as (u4 & u6 & R' & -> & Hu4 & Hu6).
    eexists. split; [reflexivity|]. unfold bindings. cbn [ipv4 ipv6].
    rewrite (rep_count r t4 Hq4 _ _ Hu4), (rep_count r t6 Hq6 _ _ Hu6).
    split; [reflexivity|]. now destruct Hu4 as (_ & _ & Ho & _).
Qed.

(** X23: after apply_restrictions and update_domain_ips, a further
    apply_restrictions raises: only one of the two bindings is deleted,
    the output chain cannot be deleted and "iptables -N" fails. *)
Theorem apply_after_update_raises (domains dependencies domains' : gset string)
    (t4 t6 : table) :
  quiet r t4 -> quiet r t6 ->
  (apply_restrictions set_iter valid_ipv6 dns r domains dependencies (Firewall t4 t6)
   ≫= update_domain_ips set_iter valid_ipv6 dns r domains')
  ≫= apply_restrictions set_iter valid_ipv6 dns r domains dependencies
  = None.
Proof.
  intros Hq4 Hq6.
  destruct (reapply_quiet domains dependencies t4 t6 0 Hq4 Hq6)
    as (t4' & t6' & R & H & H4 & H6).
  cbn [reapply] in H.
  destruct (apply_restrictions _ _ _ _ _ _ (Firewall t4 t6)) as [fw|]; [|discriminate].
  cbn [mbind option_bind] in H |- *. injection H as ->.
  destruct (update_step domains' t4 t6 t4' t6' _ _ _ _ _ _ Hq4 Hq6 H4 H6)
    as (u4 & u6 & R' & -> & Hu4 & Hu6).
  cbn [mbind option_bind]. rewrite apply_split.
  pose proof (apply4_sim valid_ipv6 r t4 in_user out_user in_out Hq4
                (run_ips set_iter dns (domains ∪ dependencies)) u4 _ Hu4) as H.
  rewrite apply4_shape_bound in H; [|apply regular_full|cbn; lia].
  now rewrite H.
Qed.

(** ** The output chain after a run, on any tables *)

Lemma checked_appends_lookup (specs : list rule) :
  forall (t t' : table) (R : list rule),
    t !! chain_out r = Some R ->
    run_checked r (Append <$> specs) t = Some t' ->
    t' !! chain_out r = Some (R ++ specs).
Proof.
  induction specs as [|s specs IH]; intros t t' R HR Hrun.
  - cbn in Hrun. injection Hrun as <-. now rewrite app_nil_r.
  - cbn [fmap list_fmap] in Hrun. rewrite run_checked_cons in Hrun. cbn [args] in Hrun.
    destruct (exec ("-A" :: chain_out r :: s) t) as [t1|] eqn:E; [|discriminate].
    cbn [mbind option_bind] in Hrun.
    apply exec_append_inv in E as (rs & Hrs & ->).
    rewrite HR in Hrs. injection Hrs as <-.
    rewrite (IH _ t' (R ++ [s]) (lookup_insert_eq _ _ _) Hrun).
    now rewrite <- app_assoc.
Qed.

Lemma unchecked_accepts_lookup (ips : list string) :
  forall (t : table) (R : list rule),
    t !! chain_out r = Some R ->
    run_unchecked r (ip_ops valid_ipv6 V4 ips) t !! chain_out r
    = Some (R ++ (accept <$> filter (fun ip => version valid_ipv6 ip = V4) ips)).
Proof.
  unfold ip_ops.
  induction (filter (fun ip => version valid_ipv6 ip = V4) ips) as [|ip l IH] eqn:E
    in ips |- *.
  - intros t R HR. cbn. now rewrite app_nil_r.
  - intros t R HR. cbn [fmap list_fmap]. unfold run_unchecked. cbn [foldl args].
    unfold unchecked.
    assert (valid_ipv4 ip = true) as Hv.
    { apply (version_v4 valid_ipv6).
      assert (ip ∈ filter (fun ip => version valid_ipv6 ip = V4) ips) as Hin
          by (rewrite E; left).
      now apply list_elem_of_filter in Hin as [Hin _]. }
    rewrite (exec_append _ _ _ R HR (accept_ok_v4 t ip Hv)). cbn [from_option id].
    specialize (IH l).
    rewrite filter_all in IH.
    2:{ apply Forall_forall. intros x Hx.
        assert (x ∈ filter (fun ip => version valid_ipv6 ip = V4) ips) as Hin
            by (rewrite E; now right).
        now apply list_elem_of_filter in Hin as [Hin _]. }
    unfold run_unchecked in IH.
    rewrite (IH eq_refl _ (R ++ [accept ip])); [|apply lookup_insert_eq].
    now rewrite <- app_assoc.
Qed.

Lemma apply4_lookup (ips : list string) (t t' : table) :
  apply4 valid_ipv6 r ips t = Some t' ->
  t' !! chain_out r = Some (rules4 valid_ipv6 ips).
Proof.
  unfold apply4. intros H.
  destruct (run_checked r create_ops _) as [t1|] eqn:E1; [|discriminate].
  cbn [mbind option_bind] in H.
  destruct (run_checked r default_ops4 t1) as [t2|] eqn:E2; [|discriminate].
  cbn [mbind option_bind] in H.
  unfold create_ops in E1. rewrite !run_checked_cons in E1. cbn [args chain_name] in E1.
  destruct (exec ["-N"; chain_in r] _) as [ta|]; [|discriminate].
  cbn [mbind option_bind] in E1. rewrite run_checked_cons in E1. cbn [args chain_name] in E1.
  destruct (exec ["-N"; chain_out r] ta) as [tb|] eqn:Eb; [|discriminate].
  cbn [mbind option_bind] in E1. injection E1 as ->.
  apply exec_new_inv in Eb as [_ ->].
  pose proof (checked_appends_lookup default_rules _ t2 [] (lookup_insert_eq _ _ _) E2)
    as H2.
  pose proof (unchecked_accepts_lookup ips t2 _ H2) as H3.
  unfold final_ops4 in H. rewrite run_checked_cons in H. cbn [args] in H.
  destruct (exec ("-A" :: chain_out r :: reject_rule) _) as [tc|] eqn:Ec; [|discriminate].
  cbn [mbind option_bind] in H. rewrite run_checked_cons in H. cbn [args] in H.
  destruct (exec ("-A" :: "OUTPUT" :: owner_jump r) tc) as [td|] eqn:Ed; [|discriminate].
  cbn [mbind option_bind] in H. injection H as <-.
  apply exec_append_inv in Ec as (rs & Hrs & ->). rewrite H3 in Hrs. injection Hrs as <-.
  apply exec_append_inv in Ed as (rs' & _ & ->).
  rewrite lookup_insert_ne by (apply not_eq_sym, user_chain_not_output, out_user).
  rewrite lookup_insert_eq. unfold rules4. rewrite <- ?app_assoc. reflexivity.
Qed.

(** X24: whenever apply_restrictions returns, on any tables, the
    output chain of the user in the IPv4 table holds the four default
    rules, then one ACCEPT rule for each resolved address that is a
    valid IPv4 address, in the order of the loops over the domains and
    over the essential CDNs, then the REJECT rule; it does return when
    the IPv4 table holds no chain of the user and no rule that jumps to
    one. *)
Theorem apply_restrictions_output_chain (domains dependencies : gset string)
    (fw : firewall) :
  let result :=
    apply_restrictions set_iter valid_ipv6 dns r domains dependencies fw in
  (forall fw', result = Some fw' ->
               ipv4 fw' !! chain_out r
               = Some (rules4 valid_ipv6
                         (run_ips set_iter dns (domains ∪ dependencies)))) /\
  (quiet r (ipv4 fw) -> is_Some result).
Proof.
  intros result. subst result. destruct fw as [t4 t6]. rewrite apply_split. split.
  - intros fw' H.
    destruct (apply4 valid_ipv6 r _ t4) as [t|] eqn:E; [|discriminate].
    cbn [mbind option_bind] in H. injection H as <-. cbn [ipv4].
    exact (apply4_lookup _ _ _ E).
  - cbn [ipv4]. intros Hq4.
    pose proof (apply4_sim valid_ipv6 r t4 in_user out_user in_out Hq4
                  (run_ips set_iter dns (domains ∪ dependencies)) t4 _
                  (rep_base r t4 Hq4)) as H4.
    rewrite (apply4_shape valid_ipv6 t4) in H4; [|apply regular_none|cbn; lia].
    destruct H4 as (t4' & -> & _). now eexists.
Qed.

(** X25: on an IPv4 table that holds no chain of the user and no rule
    that jumps to one, apply_restrictions returns and changes exactly
    this: the input chain of the user exists and is empty, the output
    chain holds the rules of the run, and one binding is appended to
    OUTPUT; every other chain is as before. *)
Theorem apply_restrictions_ipv4_table (domains dependencies : gset string)
    (t4 t6 : table) (O : list rule) :
  quiet r t4 -> t4 !! "OUTPUT" = Some O ->
  exists fw,
    apply_restrictions set_iter valid_ipv6 dns r domains dependencies (Firewall t4 t6)
    = Some fw /\
    ipv4 fw
    = <["OUTPUT" := O ++ [owner_jump r]]>
        (<[chain_out r :=
             rules4 valid_ipv6 (run_ips set_iter dns (domains ∪ dependencies))]>
           (<[chain_in r := []]> t4)).
Proof.
  intros Hq4 HO. rewrite apply_split.
  pose proof (apply4_sim valid_ipv6 r t4 in_user out_user in_out Hq4
                (run_ips set_iter dns (domains ∪ dependencies)) t4 _
                (rep_base r t4 Hq4)) as H4.
  rewrite (apply4_shape valid_ipv6 t4) in H4; [|apply regular_none|cbn; lia].
  destruct H4 as (t4' & -> & H4). cbn [mbind option_bind].
  eexists. split; [reflexivity|]. cbn [ipv4].
  apply (rep_unique r t4 _ _ _ H4).
  pose proof (rep_insert r t4 in_user out_user in_out _ _ ChainIn [] (rep_base r t4 Hq4)
                (Forall_nil_2 _)) as H1.
  cbn [chain_name with_rules bound in_rules out_rules] in H1.
  pose proof (rep_insert r t4 in_user out_user in_out _ _ ChainOut
                (rules4 valid_ipv6 (run_ips set_iter dns (domains ∪ dependencies)))
                H1) as H2.
  cbn [chain_name with_rules bound in_rules out_rules] in H2.
  apply (rep_output r t4 in_user out_user _ _ O 1%nat) in H2; [exact H2| |exact HO].
  unfold rules4. apply Forall_app_2; [apply default_rules_harmless; assumption|].
  apply Forall_app_2.
  - apply Forall_fmap, Forall_forall. intros ip _. now apply accept_harmless.
  - constructor; [now apply reject_rule_harmless|constructor].
Qed.
End FirewallMore.

(* ================================================================== *)
(** * Examples *)
(* ================================================================== *)

Section MoreExamples.
Import PyStr ContestManager ContestRestrictor DependencyAnalyzer DependencyAnalyzerFile
       Iptables NetworkRestrictor NetworkRestrictorUpdate Statements
       FirewallStatements WhitelistStatements TableShapes
       RuleStatements.

(** A whitelist file with one domain in upper case. *)
Lemma loaded_domains_storable_witness : storable "a.com".
Proof.
  apply (loaded_domains_storable
           (World (Some (header +:+ "A.com" +:+ nl)) None CacheAbsent true [])).
  apply (bool_decide_unpack _). vm_compute. exact I.
Defined.

(** A file with a comment, a blank line and a domain listed twice. *)
Lemma load_save_load_witness :
  let w := World (Some ("# sites" +:+ nl +:+ nl +:+ "A.com" +:+ nl +:+ "a.com"))
                 None CacheAbsent true [] in
  load_whitelist (save_whitelist (load_whitelist w) w).2 = load_whitelist w.
Proof. intros w. exact (load_save_load w eq_refl). Defined.

Lemma normalized_not_empty (x d : string) :
  _normalize_domain x = d -> d <> "" -> _normalize_domain x <> "".
Proof. now intros ->. Qed.

(** A URL of example.com, added to a whitelist that holds a.com. *)
Lemma add_domain_lists_witness :
  let w := World (Some (header +:+ "a.com" +:+ nl)) None CacheAbsent true [] in
  (add_domain "https://Example.com/path" w).1 = true /\
  load_whitelist (add_domain "https://Example.com/path" w).2
  = load_whitelist w ∪ {[ "example.com" ]}.
Proof.
  intros w.
  refine (add_domain_lists "https://Example.com/path" w eq_refl _ eq_refl eq_refl
            eq_refl).
  vm_compute. discriminate.
Defined.


(** Removing one of two domains. *)
Lemma remove_domain_unlists_witness :
  let w := World (Some (header +:+ "a.com" +:+ nl +:+ "b.org" +:+ nl))
                 None CacheAbsent true [] in
  (remove_domain "A.com" w).1 = true /\
  load_whitelist (remove_domain "A.com" w).2 = load_whitelist w ∖ {[ "a.com" ]}.
Proof.
  intros w. refine (remove_domain_unlists "A.com" w eq_refl _).
  vm_compute. discriminate.
Defined.



(** A default file with a comment and a name in upper case. *)
Lemma default_whitelist_seeded_witness :
  load_whitelist
    (ContestManager.__init__ (World None (Some ("# default" +:+ nl +:+ "Codeforces.com" +:+ nl))
                                    CacheAbsent true []))
  = domains_of_text ("# default" +:+ nl +:+ "Codeforces.com" +:+ nl).
Proof.
  exact (default_whitelist_seeded
           (World None (Some ("# default" +:+ nl +:+ "Codeforces.com" +:+ nl))
                  CacheAbsent true []) eq_refl).
Defined.

(** One saved domain whose page loads a script from a CDN. *)
Lemma analyze_saved_whitelist_witness :
  "cdn.jsdelivr.net"
  ∈ analyze_domains_from_file plain_netloc
      (fun _ => Some [Some "https://cdn.jsdelivr.net/x.js"])
      (whitelist_file
         (save_whitelist {[ "a.com" ]} (World None None CacheAbsent true [])).2).
Proof.
  apply (analyze_saved_whitelist plain_netloc
           (fun _ => Some [Some "https://cdn.jsdelivr.net/x.js"])
           {[ "a.com" ]} (World None None CacheAbsent true []) "cdn.jsdelivr.net"
           eq_refl).
  - intros d Hd. apply elem_of_singleton in Hd. subst d.
    repeat split; try reflexivity; discriminate.
  - exists "a.com". split; [now apply elem_of_singleton|].
    apply (bool_decide_unpack _). vm_compute. exact I.
Defined.

(** Two domains, inserted in descending order. *)
Lemma script_loads_saved_whitelist_witness :
  (RestrictScript.load_whitelist "whitelist.txt" ∅
     (save_whitelist {[ "b.org"; "a.com" ]}
        (World None None CacheAbsent true [])).2).1
  = (true, {[ "b.org"; "a.com" ]}).
Proof.
  refine (script_loads_saved_whitelist "whitelist.txt" {[ "b.org"; "a.com" ]} ∅
            (World None None CacheAbsent true []) eq_refl _).
  intros d Hd. apply elem_of_union in Hd as [Hd|Hd];
    apply elem_of_singleton in Hd; subst d;
    repeat split; try reflexivity; discriminate.
Defined.

(** example.com cached, codeforces.com analyzed in this run. *)
Lemma analyze_dependencies_from_cache_witness :
  let result :=
    analyze_dependencies elements (fun _ => Some {[ "cdn.jsdelivr.net" ]}) false
      {[ "example.com"; "codeforces.com" ]}
      (World None None (CacheJson {[ "example.com" := ["fonts.gstatic.com"] ]})
             true []) in
  "fonts.gstatic.com" ∈ result.1.2 <->
  exists s deps,
    s ∈ ({[ "example.com"; "codeforces.com" ]} : gset string) /\
    load_dependencies result.2 !! s = Some deps /\ "fonts.gstatic.com" ∈ deps.
Proof.
  exact (analyze_dependencies_from_cache elements (fun X => reflexivity _)
           (fun _ => Some {[ "cdn.jsdelivr.net" ]}) false
           {[ "example.com"; "codeforces.com" ]}
           (World None None (CacheJson {[ "example.com" := ["fonts.gstatic.com"] ]})
                  true [])
           "fonts.gstatic.com" eq_refl).
Defined.


(** The user alice with uid 1000 on tables that hold the built-in chains
    only. *)
Lemma alice_quiet : quiet (__init__ ascii_upper "alice" 1000) fresh_table.
Proof.
  apply fresh_table_quiet;
    [apply chain_in_user|apply chain_out_user].
Qed.

Lemma reapply_bindings_witness :
  bindings (__init__ ascii_upper "alice" 1000)
    <$> reapply elements (fun _ => false) example_dns 5
          (__init__ ascii_upper "alice" 1000) {[ "example.com" ]} ∅ fresh
  = Some (1%nat, 5%nat).
Proof.
  exact (reapply_bindings ascii_upper elements (fun _ => false) example_dns
           "alice" 1000 {[ "example.com" ]} ∅ fresh_table fresh_table 5
           alice_quiet alice_quiet).
Defined.

Lemma apply_remove_restores_witness :
  apply_restrictions elements (fun _ => false) example_dns
    (__init__ ascii_upper "alice" 1000) {[ "example.com" ]} ∅ fresh
  ≫= remove_restrictions (__init__ ascii_upper "alice" 1000)
  = Some fresh.
Proof.
  exact (apply_remove_restores ascii_upper elements (fun _ => false) example_dns
           "alice" 1000 {[ "example.com" ]} ∅ fresh_table fresh_table
           alice_quiet alice_quiet).
Defined.

Lemma reapply_remove_residue_witness :
  exists fw,
    reapply elements (fun _ => false) example_dns 3
      (__init__ ascii_upper "alice" 1000) {[ "example.com" ]} ∅ fresh
    ≫= remove_restrictions (__init__ ascii_upper "alice" 1000) = Some fw /\
    ipv4 fw = fresh_table /\
    count_bindings (__init__ ascii_upper "alice" 1000) (ipv6 fw) = 2%nat /\
    ipv6 fw !! "CONTEST_ALICE_OUT" = Some [] /\
    ipv6 fw !! "CONTEST_ALICE_IN" = None.
Proof.
  exact (reapply_remove_residue ascii_upper elements (fun _ => false) example_dns
           "alice" 1000 {[ "example.com" ]} ∅ fresh_table fresh_table 1
           alice_quiet alice_quiet).
Defined.

Lemma remove_restrictions_quiet_witness :
  remove_restrictions (__init__ ascii_upper "alice" 1000) fresh = Some fresh.
Proof.
  exact (remove_restrictions_quiet ascii_upper "alice" 1000 fresh_table fresh_table
           alice_quiet alice_quiet).
Defined.

Lemma update_domain_ips_rebinds_witness :
  update_domain_ips elements (fun _ => false) example_dns
    (__init__ ascii_upper "alice" 1000) {[ "example.com" ]} fresh = None /\
  exists fw,
    apply_restrictions elements (fun _ => false) example_dns
      (__init__ ascii_upper "alice" 1000) {[ "example.com" ]} ∅ fresh
    ≫= update_domain_ips elements (fun _ => false) example_dns
         (__init__ ascii_upper "alice" 1000) ∅ = Some fw /\
    bindings (__init__ ascii_upper "alice" 1000) fw = (2%nat, 2%nat) /\
    ipv4 fw !! "CONTEST_ALICE_OUT"
    = Some (rules4 (fun _ => false) (run_ips elements example_dns ∅)).
Proof.
  destruct (update_domain_ips_rebinds ascii_upper elements (fun _ => false)
              example_dns "alice" 1000 {[ "example.com" ]} ∅ ∅
              fresh_table fresh_table alice_quiet alice_quiet) as [_ H].
  split; [reflexivity|exact H].
Defined.

Lemma apply_after_update_raises_witness :
  (apply_restrictions elements (fun _ => false) example_dns
     (__init__ ascii_upper "alice" 1000) {[ "example.com" ]} ∅ fresh
   ≫= update_domain_ips elements (fun _ => false) example_dns
        (__init__ ascii_upper "alice" 1000) {[ "example.com" ]})
  ≫= apply_restrictions elements (fun _ => false) example_dns
       (__init__ ascii_upper "alice" 1000) {[ "example.com" ]} ∅
  = None.
Proof.
  exact (apply_after_update_raises ascii_upper elements (fun _ => false)
           example_dns "alice" 1000 {[ "example.com" ]} ∅ {[ "example.com" ]}
           fresh_table fresh_table alice_quiet alice_quiet).
Defined.

Lemma apply_restrictions_output_chain_witness :
  exists fw,
    apply_restrictions elements (fun _ => false) example_dns
      (__init__ ascii_upper "alice" 1000) {[ "example.com" ]} ∅ fresh = Some fw /\
    ipv4 fw !! "CONTEST_ALICE_OUT"
    = Some (default_rules ++ [accept "93.184.216.34"] ++ [reject_rule]).
Proof.
  destruct (apply_restrictions_output_chain ascii_upper elements (fun _ => false)
              example_dns "alice" 1000 {[ "example.com" ]} ∅ fresh)
    as [Hrules Hsome].
  destruct (Hsome alice_quiet) as [fw Hfw].
  exists fw. split; [exact Hfw|].
  etransitivity; [exact (Hrules fw Hfw)|]. vm_compute. reflexivity.
Defined.

Lemma apply_restrictions_ipv4_table_witness :
  exists fw,
    apply_restrictions elements (fun _ => false) example_dns
      (__init__ ascii_upper "alice" 1000) {[ "example.com" ]} ∅ fresh = Some fw /\
    ipv4 fw
    = <["OUTPUT" := [owner_jump (__init__ ascii_upper "alice" 1000)]]>
        (<["CONTEST_ALICE_OUT" :=
             rules4 (fun _ => false)
               (run_ips elements example_dns ({[ "example.com" ]} ∪ ∅))]>
           (<["CONTEST_ALICE_IN" := []]> fresh_table)).
Proof.
  exact (apply_restrictions_ipv4_table ascii_upper elements (fun _ => false)
           example_dns "alice" 1000 {[ "example.com" ]} ∅ fresh_table fresh_table []
           alice_quiet eq_refl).
Defined.
End MoreExamples.
